(** * A shallow embedding of the terminal runtime (cell codec, ANSI emitter,
      diff renderer, input decoder, capability controller) and the
      verification of its specification.

    Conventions of the embedding.
    - A JavaScript number that the code only ever uses as an integer is a [Z];
      the 32-bit bitwise operators are written out with their wrap-around
      ([toInt32], [toUint32]).
    - A JavaScript string is the list of its UTF-16 code units ([jsstr]).
    - [undefined] is [None].
    - A thrown exception is an explicit result ([None], or a constructor of
      an outcome type), never silently dropped. *)

From Stdlib Require Import ZArith String Ascii List Bool Lia.
From Stdlib Require DecimalString.
From stdpp Require Import base decidable option list gmap.

Local Open Scope Z_scope.

(* ===================================================================== *)
(** * Part I: the embedding                                               *)
(* ===================================================================== *)

(** ** JavaScript primitives used by the sources *)
Module Js.

(** UTF-16 code units. *)
Definition jsstr := list Z.

(** An ASCII literal as a JavaScript string. *)
Definition lit (s : string) : jsstr :=
  map (fun a => Z.of_nat (nat_of_ascii a)) (list_ascii_of_string s).

(** [ToInt32] and [ToUint32] on integral numbers: reduction modulo 2^32 into
    the signed, respectively unsigned, 32-bit range (the identity on a number
    that is already in range). *)
Definition toInt32 (z : Z) : Z :=
  if (-2147483648 <=? z) && (z <? 2147483648) then z
  else (z + 2147483648) mod 4294967296 - 2147483648.
Definition toUint32 (z : Z) : Z :=
  if (0 <=? z) && (z <? 4294967296) then z else z mod 4294967296.

(** [a & b], [a | b], [a << n], [a >> n], [a >>> n]. *)
Definition band (a b : Z) : Z := Z.land (toInt32 a) (toInt32 b).
Definition bor (a b : Z) : Z := Z.lor (toInt32 a) (toInt32 b).
Definition shl (a n : Z) : Z := toInt32 (Z.shiftl (toInt32 a) (n mod 32)).
Definition shr (a n : Z) : Z := Z.shiftr (toInt32 a) (n mod 32).
Definition ushr (a n : Z) : Z := Z.shiftr (toUint32 a) (n mod 32).

(** [String(n)] / template interpolation of an integral number (plain decimal
    notation; the exponent notation JavaScript switches to from 1e21 on is
    outside the range of every number the sources print). *)
Definition decimal (n : Z) : jsstr :=
  lit (DecimalString.NilZero.string_of_int (Z.to_int n)).

(** [parts.join(sep)]. *)
Fixpoint join (sep : jsstr) (parts : list jsstr) : jsstr :=
  match parts with
  | [] => []
  | [p] => p
  | p :: ps => p ++ sep ++ join sep ps
  end.

(** [s.slice(2, -1)] (both indexes positive after normalisation). *)
Definition slice2m1 (s : jsstr) : jsstr :=
  let n := length s in
  take (n - 1 - 2)%nat (drop 2 s).

(** [s.endsWith(t)] and [s.startsWith(t)]. *)
Fixpoint startsWith (s t : jsstr) : bool :=
  match t, s with
  | [], _ => true
  | _ :: _, [] => false
  | b :: t', a :: s' => (a =? b) && startsWith s' t'
  end.
Definition endsWith (s t : jsstr) : bool := startsWith (rev s) (rev t).

(** [s.includes(t)]. *)
Fixpoint includes (s t : jsstr) : bool :=
  startsWith s t ||
  match s with
  | [] => false
  | _ :: s' => includes s' t
  end.

(** One hexadecimal digit of [Number.prototype.toString(16)] (lower case). *)
Definition hexDigit (d : Z) : Z := if d <? 10 then 48 + d else 87 + d.

(** [n.toString(16)] for a non-negative integer. The fuel is the number of
    digits, which [Z.log2] bounds. *)
Fixpoint toString16_aux (fuel : nat) (n : Z) (acc : jsstr) : jsstr :=
  match fuel with
  | O => hexDigit (n mod 16) :: acc
  | S fuel' =>
      if n <? 16 then hexDigit n :: acc
      else toString16_aux fuel' (n / 16) (hexDigit (n mod 16) :: acc)
  end.
Definition toString16 (n : Z) : jsstr :=
  toString16_aux (Z.to_nat (Z.log2 n)) n [].

(** [s.padStart(len, '0')]. *)
Definition padStart0 (len : nat) (s : jsstr) : jsstr :=
  replicate (len - length s) 48 ++ s.

(** The value of a hexadecimal digit, if the code unit is one
    ([0-9a-fA-F]). *)
Definition hexValue (c : Z) : option Z :=
  if (48 <=? c) && (c <=? 57) then Some (c - 48)
  else if (97 <=? c) && (c <=? 102) then Some (c - 87)
  else if (65 <=? c) && (c <=? 70) then Some (c - 55)
  else None.

(** [Number.parseInt(s, 16)] on a string that consists of hexadecimal digits
    only ([None] stands for a string the regular expression rejected). *)
Fixpoint parseHex_aux (acc : Z) (s : jsstr) : option Z :=
  match s with
  | [] => Some acc
  | c :: s' =>
      match hexValue c with
      | Some d => parseHex_aux (acc * 16 + d) s'
      | None => None
      end
  end.

(** [String.fromCodePoint(cp)]: a [RangeError] above 0x10FFFF (and below 0),
    one code unit in the basic plane, a surrogate pair above it. *)
Definition fromCodePoint (cp : Z) : option jsstr :=
  if (cp <? 0) || (1114111 <? cp) then None
  else if cp <? 65536 then Some [cp]
  else Some [55296 + Z.shiftr (cp - 65536) 10; 56320 + Z.land (cp - 65536) 1023].

(** [s.codePointAt(0)]. *)
Definition codePointAt0 (s : jsstr) : option Z :=
  match s with
  | [] => None
  | h :: t =>
      if (55296 <=? h) && (h <=? 56319) then
        match t with
        | l :: _ =>
            if (56320 <=? l) && (l <=? 57343)
            then Some ((h - 55296) * 1024 + (l - 56320) + 65536)
            else Some h
        | [] => Some h
        end
      else Some h
  end.

End Js.

(** ** cell.ts: the packed cell and the 16-bit colour codec *)
Module Cell.
Import Js.

(** [type Color = `#${string}` | number]. *)
Inductive Color : Type :=
| Palette (n : Z)
| Hex (s : jsstr).

#[global] Instance Color_eq_dec : EqDecision Color.
Proof. solve_decision. Defined.

(** [type Cell = [number, number]]. *)
Definition Cell : Type := Z * Z.

Definition COLOR_NONE : Z := 0.
Definition COLOR_PALETTE_START : Z := 1.
Definition COLOR_RGB_START : Z := 257.
Definition CHAR_MASK : Z := 2097151.
Definition ATTR_SHIFT : Z := 24.

(** [HEX_COLOR_REGEX = /^#([0-9a-fA-F]{6})$/] followed by
    [Number.parseInt(match[1], 16)]: the 24-bit value of a string the
    expression accepts, [None] for every other string. *)
Definition matchHexColor (s : jsstr) : option Z :=
  match s with
  | 35 :: digits =>
      if (length digits =? 6)%nat then parseHex_aux 0 digits else None
  | _ => None
  end.

Definition packRgbColor (r g b : Z) : Z :=
  let r5 := band (shr r 3) 31 in
  let g6 := band (shr g 2) 63 in
  let b5 := band (shr b 3) 31 in
  COLOR_RGB_START + shl r5 11 + shl g6 5 + b5.

Definition unpackRgbColor (packed : Z) : Z * Z * Z :=
  let rgb := packed - COLOR_RGB_START in
  let r5 := band (shr rgb 11) 31 in
  let g6 := band (shr rgb 5) 63 in
  let b5 := band rgb 31 in
  let r := bor (shl r5 3) (shr r5 2) in
  let g := bor (shl g6 2) (shr g6 4) in
  let b := bor (shl b5 3) (shr b5 2) in
  (r, g, b).

(** The truthiness of a [Color | undefined] value ([!color] is its
    negation): [undefined], the number 0 and the empty string are falsy. *)
Definition truthy (color : option Color) : bool :=
  match color with
  | None => false
  | Some (Palette n) => negb (n =? 0)
  | Some (Hex s) => match s with [] => false | _ => true end
  end.

Definition encodeColor (color : option Color) : Z :=
  if negb (truthy color) then COLOR_NONE
  else
    match color with
    | Some (Palette n) => COLOR_PALETTE_START + band n 255
    | Some (Hex s) =>
        match matchHexColor s with
        | None => COLOR_NONE
        | Some rgb =>
            let r := band (shr rgb 16) 255 in
            let g := band (shr rgb 8) 255 in
            let b := band rgb 255 in
            packRgbColor r g b
        end
    | None => COLOR_NONE
    end.

Definition decodeColor (encoded : Z) : option Color :=
  if encoded =? COLOR_NONE then None
  else if encoded <=? COLOR_PALETTE_START + 255
  then Some (Palette (encoded - COLOR_PALETTE_START))
  else
    let '(r, g, b) := unpackRgbColor encoded in
    let hex := padStart0 6 (toString16 (bor (bor (shl r 16) (shl g 8)) b)) in
    Some (Hex (35 :: hex)).

(** [char ? char.codePointAt(0) || 0x20 : 0x20]. *)
Definition charCodePoint (char : jsstr) : Z :=
  match codePointAt0 char with
  | Some cp => if cp =? 0 then 32 else cp
  | None => 32
  end.

Definition packCell (char : jsstr) (attr : Z) (fgColor bgColor : option Color)
  : Cell :=
  let codePoint := charCodePoint char in
  let cell1 := bor (shl (band attr 255) ATTR_SHIFT) (band codePoint CHAR_MASK) in
  let fg := encodeColor fgColor in
  let bg := encodeColor bgColor in
  let cell2 := bor (shl fg 16) bg in
  (cell1, cell2).

Definition packCellPart (char : jsstr) (attr : Z) : Z :=
  let codePoint := charCodePoint char in
  bor (shl (band attr 255) ATTR_SHIFT) (band codePoint CHAR_MASK).

Definition emptyCell : Cell := (packCellPart (lit " ") 0, 0).

(** [unpackChar] throws a [RangeError] (here [None]) when the 21 bits hold a
    value above 0x10FFFF. *)
Definition unpackChar (cell : Cell) : option jsstr :=
  fromCodePoint (band (fst cell) CHAR_MASK).

Definition unpackAttr (cell : Cell) : Z :=
  band (ushr (fst cell) ATTR_SHIFT) 255.

Definition unpackFgColor (cell : Cell) : option Color :=
  decodeColor (band (ushr (snd cell) 16) 65535).

Definition unpackBgColor (cell : Cell) : option Color :=
  decodeColor (band (snd cell) 65535).

Definition cellEquals (a b : Cell) : bool :=
  (fst a =? fst b) && (snd a =? snd b).

End Cell.

(** ** ansi.ts: escape sequences *)
Module Ansi.
Import Js Cell.

(** [interface Attributes]; an absent optional boolean is [false]. *)
Record Attributes : Type := mkAttributes {
  bold : bool;
  italic : bool;
  dim : bool;
  underline : bool;
  reverse : bool;
  strikethrough : bool;
  fg : option Color;
  bg : option Color
}.


Definition ESC : jsstr := [27; 91].
Definition ESC_RESET : jsstr := [27; 91; 48; 109].

Definition ATTR_BOLD : Z := 1.
Definition ATTR_DIM : Z := 2.
Definition ATTR_ITALIC : Z := 4.
Definition ATTR_UNDERLINE : Z := 8.
Definition ATTR_REVERSE : Z := 16.
Definition ATTR_STRIKETHROUGH : Z := 32.

(** [if (i & BIT)]. *)
Definition hasBit (i bit : Z) : bool := negb (band i bit =? 0).

(** The body of the loop of [generateAttrLUT]: the [parts] array and the
    entry for index [i]. *)
Definition attrLutParts (i : Z) : list jsstr :=
  [lit "0"]
  ++ (if hasBit i ATTR_BOLD then [lit "1"] else [])
  ++ (if hasBit i ATTR_DIM then [lit "2"] else [])
  ++ (if hasBit i ATTR_ITALIC then [lit "3"] else [])
  ++ (if hasBit i ATTR_UNDERLINE then [lit "4"] else [])
  ++ (if hasBit i ATTR_REVERSE then [lit "7"] else [])
  ++ (if hasBit i ATTR_STRIKETHROUGH then [lit "9"] else []).

Definition attrLutEntry (i : Z) : jsstr :=
  ESC ++ join (lit ";") (attrLutParts i) ++ lit "m".

(** [ATTR_LUT[i]]: the array has 256 entries, an index outside of it reads
    [undefined]. *)
Definition ATTR_LUT (i : Z) : option jsstr :=
  if (0 <=? i) && (i <? 256) then Some (attrLutEntry i) else None.

Definition moveTo (row col : Z) : jsstr :=
  ESC ++ decimal row ++ lit ";" ++ decimal col ++ lit "H".

Definition colorToAnsi (color : Color) (isBg : bool) : jsstr :=
  match color with
  | Palette n =>
      ESC ++ (if isBg then lit "48" else lit "38") ++ lit ";5;" ++ decimal n
          ++ lit "m"
  | Hex s =>
      match matchHexColor s with
      | None => []
      | Some rgb =>
          let r := band (shr rgb 16) 255 in
          let g := band (shr rgb 8) 255 in
          let b := band rgb 255 in
          ESC ++ (if isBg then lit "48" else lit "38") ++ lit ";2;"
              ++ decimal r ++ lit ";" ++ decimal g ++ lit ";" ++ decimal b
              ++ lit "m"
      end
  end.

Definition attributesToByte (attrs : Attributes) : Z :=
  let byte := 0 in
  let byte := if bold attrs then bor byte ATTR_BOLD else byte in
  let byte := if dim attrs then bor byte ATTR_DIM else byte in
  let byte := if italic attrs then bor byte ATTR_ITALIC else byte in
  let byte := if underline attrs then bor byte ATTR_UNDERLINE else byte in
  let byte := if reverse attrs then bor byte ATTR_REVERSE else byte in
  let byte := if strikethrough attrs then bor byte ATTR_STRIKETHROUGH else byte in
  byte.

(** The parts a colour contributes: [if (c) { seq = colorToAnsi(c, isBg);
    if (seq) parts.push(seq.slice(2, -1)) }]. *)
Definition colorParts (c : option Color) (isBg : bool) : list jsstr :=
  match c with
  | Some col =>
      if truthy c then
        match colorToAnsi col isBg with
        | [] => []
        | seq => [slice2m1 seq]
        end
      else []
  | None => []
  end.

(** [parts.length > 0 ? `${ESC}${parts.join(';')}m` : ''], the common end of
    [buildAnsiSequence] and [getCachedColorSequence]. *)
Definition sgrSequence (parts : list jsstr) : jsstr :=
  match parts with
  | [] => []
  | _ => ESC ++ join (lit ";") parts ++ lit "m"
  end.

(** The [parts] array of [buildAnsiSequence]. *)
Definition ansiSequenceParts (attrs : Attributes) : list jsstr :=
  let attrByte := attributesToByte attrs in
  (if 0 <? attrByte
   then [match ATTR_LUT attrByte with
         | Some s => slice2m1 s
         | None => []
         end]
   else [lit "0"])
  ++ colorParts (fg attrs) false
  ++ colorParts (bg attrs) true.

Definition buildAnsiSequence (attrs : Attributes) : jsstr :=
  sgrSequence (ansiSequenceParts attrs).

End Ansi.

(** ** diff.ts: the double-buffered diff engine *)
Module Diff.
Import Js Cell Ansi.

(** How a call ends. [Ok] is a normal return; [Throws] is an uncaught
    [RangeError]; [Diverges] is the [continue] of [computeDiff] that does not
    advance the column; [OutOfFuel] is an artefact of the structural recursion
    of the model and is shown never to occur. *)
Inductive outcome (A : Type) : Type :=
| Ok (a : A)
| Throws
| Diverges
| OutOfFuel.
Arguments Ok {A} a.
Arguments Throws {A}.
Arguments Diverges {A}.
Arguments OutOfFuel {A}.

(** [interface AnsiState]. *)
Record AnsiState : Type := mkAnsiState {
  attr : Z;
  fg : option Color;
  bg : option Color
}.

(** The module-level [colorCache = new Map<string, string>()]: the entries in
    insertion order. *)
Definition ColorCache : Type := list (jsstr * jsstr).

Definition MAX_CACHE_SIZE : Z := 1000.

(** [cache.get(key)]. *)
Fixpoint cacheGet (cache : ColorCache) (key : jsstr) : option jsstr :=
  match cache with
  | [] => None
  | (k, v) :: rest => if bool_decide (k = key) then Some v else cacheGet rest key
  end.

(** [cache.set(key, value)]: an existing key keeps its place. *)
Fixpoint cacheSet (cache : ColorCache) (key value : jsstr) : ColorCache :=
  match cache with
  | [] => [(key, value)]
  | (k, v) :: rest =>
      if bool_decide (k = key) then (k, value) :: rest
      else (k, v) :: cacheSet rest key value
  end.

(** [`${c || ''}`]. *)
Definition colorKey (c : option Color) : jsstr :=
  match c with
  | Some (Palette n) => if truthy c then decimal n else []
  | Some (Hex s) => s
  | None => []
  end.

Definition cacheKey (fg bg : option Color) (needsBgReset : bool) : jsstr :=
  colorKey fg ++ lit "_" ++ colorKey bg ++ lit "_"
    ++ (if needsBgReset then lit "true" else lit "false").

(** The [parts] array [getCachedColorSequence] fills on a cache miss. *)
Definition colorSequenceParts (fg bg : option Color) (needsBgReset : bool)
  : list jsstr :=
  (if needsBgReset && negb (truthy bg) then [lit "49"] else [])
  ++ colorParts fg false
  ++ colorParts bg true.

(** The sequence [getCachedColorSequence] builds on a cache miss. *)
Definition buildColorSequence (fg bg : option Color) (needsBgReset : bool)
  : jsstr :=
  sgrSequence (colorSequenceParts fg bg needsBgReset).

Definition getCachedColorSequence (fg bg : option Color) (needsBgReset : bool)
  (cache : ColorCache) : jsstr * ColorCache :=
  let key := cacheKey fg bg needsBgReset in
  match cacheGet cache key with
  | Some (c :: cached) => (c :: cached, cache)
  | _ =>
      let sequence := buildColorSequence fg bg needsBgReset in
      let cache :=
        if MAX_CACHE_SIZE <=? Z.of_nat (length cache) then
          match cache with
          | (firstKey, _) :: rest =>
              match firstKey with
              | [] => cache
              | _ => rest
              end
          | [] => cache
          end
        else cache in
      (sequence, cacheSet cache key sequence)
  end.

(** [class DiffEngine]. The arrays are lists; a slot is read with
    [readCell] ([undefined] outside of the array). *)
Record DiffEngine : Type := mkDiffEngine {
  rows : Z;
  cols : Z;
  size : Z;
  prev : list Cell;
  curr : list Cell;
  dirty : list Z;
  ansiState : AnsiState;
  hasSetBackground : bool
}.

Definition readCell (buffer : list Cell) (index : Z) : option Cell :=
  if index <? 0 then None else buffer !! Z.to_nat index.

(** [new Array(n)]: a [RangeError] unless [0 <= n < 2^32]; the slots are
    then filled by the loop that follows the allocation. *)
Definition allocCells (n : Z) : option (list Cell) :=
  if (0 <=? n) && (n <? 4294967296)
  then Some (replicate (Z.to_nat n) emptyCell) else None.

(** [new Uint8Array(n)], zero-filled: a [RangeError] for a negative length
    (the largest length an engine allocates is not modelled). *)
Definition allocDirty (n : Z) (v : Z) : option (list Z) :=
  if 0 <=? n then Some (replicate (Z.to_nat n) v) else None.

(** [new DiffEngine(rows, cols)]; [None] when an allocation throws. *)
Definition newDiffEngine (rows cols : Z) : option DiffEngine :=
  let size := rows * cols in
  p ← allocCells size;
  c ← allocCells size;
  d ← allocDirty rows 0;
  Some (mkDiffEngine rows cols size p c d (mkAnsiState 0 None None) false).

Definition setPrev (e : DiffEngine) (p : list Cell) : DiffEngine :=
  mkDiffEngine (rows e) (cols e) (size e) p (curr e) (dirty e)
               (ansiState e) (hasSetBackground e).
Definition setCurr (e : DiffEngine) (c : list Cell) : DiffEngine :=
  mkDiffEngine (rows e) (cols e) (size e) (prev e) c (dirty e)
               (ansiState e) (hasSetBackground e).
Definition setDirty (e : DiffEngine) (d : list Z) : DiffEngine :=
  mkDiffEngine (rows e) (cols e) (size e) (prev e) (curr e) d
               (ansiState e) (hasSetBackground e).
Definition setAnsi (e : DiffEngine) (a : AnsiState) (h : bool) : DiffEngine :=
  mkDiffEngine (rows e) (cols e) (size e) (prev e) (curr e) (dirty e) a h.

Definition markDirty (e : DiffEngine) (row : Z) : DiffEngine :=
  if (0 <=? row) && (row <? rows e)
  then setDirty e (<[Z.to_nat row := 1]> (dirty e))
  else e.

(** [this.dirty.fill(1)]. *)
Definition markAllDirty (e : DiffEngine) : DiffEngine :=
  setDirty e (replicate (length (dirty e)) 1).

Definition outOfRange (e : DiffEngine) (row col : Z) : bool :=
  (row <? 0) || (rows e <=? row) || (col <? 0) || (cols e <=? col).

(** The common tail of [setCellWithAttrs] and [setCell]. The index is inside
    the array (see [wf_index_in_range]), where the list update and the
    JavaScript assignment agree. *)
Definition storeCell (e : DiffEngine) (row col : Z) (newCell : Cell)
  : DiffEngine :=
  let index := row * cols e + col in
  let same :=
    match readCell (curr e) index with
    | Some currentCell => cellEquals currentCell newCell
    | None => false
    end in
  if same then e
  else markDirty (setCurr e (<[Z.to_nat index := newCell]> (curr e))) row.

Definition setCellWithAttrs (e : DiffEngine) (row col : Z) (char : jsstr)
  (attrs : option Attributes) : DiffEngine :=
  if outOfRange e row col then e
  else
    let attrByte :=
      match attrs with Some a => attributesToByte a | None => 0 end in
    let newCell :=
      packCell char attrByte
        (match attrs with Some a => Ansi.fg a | None => None end)
        (match attrs with Some a => Ansi.bg a | None => None end) in
    storeCell e row col newCell.

Definition setCell (e : DiffEngine) (row col : Z) (cell : Cell) : DiffEngine :=
  if outOfRange e row col then e else storeCell e row col cell.

Definition getCell (e : DiffEngine) (row col : Z) : Cell :=
  if outOfRange e row col then emptyCell
  else
    match readCell (curr e) (row * cols e + col) with
    | Some c => c
    | None => emptyCell
    end.

(** [for (i = 0; i < n; i++) buffer[i] = x]: the first [n] slots are
    overwritten (and created, should the array be shorter). *)
Definition fillFirst (n : Z) (x : Cell) (buffer : list Cell) : list Cell :=
  replicate (Z.to_nat n) x ++ drop (Z.to_nat n) buffer.

Definition clear (e : DiffEngine) : DiffEngine :=
  markAllDirty (setCurr e (fillFirst (size e) emptyCell (curr e))).

(** The [attrs] object the "full change" branch of [generateStateChange]
    fills from the attribute byte and the colours. *)
Definition attributesOfState (newAttr : Z) (newFg newBg : option Color)
  : Attributes :=
  mkAttributes
    (hasBit newAttr 1) (hasBit newAttr 4) (hasBit newAttr 2)
    (hasBit newAttr 8) (hasBit newAttr 16) (hasBit newAttr 32)
    (if truthy newFg then newFg else None)
    (if truthy newBg then newBg else None).

(** [generateStateChange]: the sequence, and the tracker and cache after the
    call. *)
Definition generateStateChange (e : DiffEngine) (cache : ColorCache)
  (newAttr : Z) (newFg newBg : option Color)
  : jsstr * DiffEngine * ColorCache :=
  let st := ansiState e in
  let attrChanged := negb (attr st =? newAttr) in
  let fgChanged := negb (bool_decide (fg st = newFg)) in
  let bgChanged := negb (bool_decide (bg st = newBg)) in
  let needsBgReset :=
    (negb (bool_decide (bg st = None)) && bool_decide (newBg = None))
    || (hasSetBackground e && bool_decide (newBg = None)
        && bool_decide (bg st = None)) in
  if negb (attrChanged || fgChanged || bgChanged || needsBgReset)
  then ([], e, cache)
  else
    let '(output, cache) :=
      if attrChanged && negb fgChanged && negb bgChanged then
        (match ATTR_LUT newAttr with Some s => s | None => [] end, cache)
      else if negb attrChanged && (fgChanged || bgChanged || needsBgReset) then
        getCachedColorSequence
          (if fgChanged then newFg else fg st)
          (if bgChanged || needsBgReset then newBg else bg st)
          needsBgReset cache
      else
        (buildAnsiSequence (attributesOfState newAttr newFg newBg), cache) in
    let h :=
      if negb (bool_decide (newBg = None)) then true else hasSetBackground e in
    (output, setAnsi e (mkAnsiState newAttr newFg newBg) h, cache).

(** The [while] loop of [findRunEnd]; every iteration advances [runEnd] by
    one, so [cols - startCol] iterations reach the end of the row. *)
Fixpoint findRunEnd_loop (fuel : nat) (e : DiffEngine) (offset runEnd : Z)
  (runAttr : Z) (runFg runBg : option Color) : Z :=
  match fuel with
  | O => runEnd
  | S fuel' =>
      if runEnd <? cols e then
        match readCell (curr e) (offset + runEnd) with
        | None => runEnd
        | Some currCell =>
            if negb (unpackAttr currCell =? runAttr)
               || negb (bool_decide (unpackFgColor currCell = runFg))
               || negb (bool_decide (unpackBgColor currCell = runBg))
            then runEnd
            else findRunEnd_loop fuel' e offset (runEnd + 1) runAttr runFg runBg
        end
      else runEnd
  end.

Definition findRunEnd (e : DiffEngine) (row startCol : Z)
  (runAttr : Z) (runFg runBg : option Color) : Z :=
  findRunEnd_loop (Z.to_nat (cols e - startCol)) e (row * cols e) startCol
                  runAttr runFg runBg.

(** The column indexes [startCol, ..., endCol - 1]. *)
Definition colRange (startCol endCol : Z) : list Z :=
  map (fun i => startCol + Z.of_nat i) (seq 0 (Z.to_nat (endCol - startCol))).

Definition runHasChanges (e : DiffEngine) (row startCol endCol : Z) : bool :=
  let offset := row * cols e in
  existsb
    (fun col =>
       match readCell (prev e) (offset + col), readCell (curr e) (offset + col) with
       | Some prevCell, Some currCell => negb (cellEquals prevCell currCell)
       | _, _ => true
       end)
    (colRange startCol endCol).

(** The first loop of [outputRun]: the characters of the run, [None] when
    [unpackChar] throws. *)
Fixpoint runChars (buffer : list Cell) (offset : Z) (columns : list Z)
  : option jsstr :=
  match columns with
  | [] => Some []
  | i :: rest =>
      match readCell buffer (offset + i) with
      | Some cell =>
          ch ← unpackChar cell;
          tl ← runChars buffer offset rest;
          Some (ch ++ tl)
      | None => runChars buffer offset rest
      end
  end.

(** The second loop of [outputRun]: copy the run into the previous buffer. *)
Fixpoint copyRun (currBuf prevBuf : list Cell) (offset : Z) (columns : list Z)
  : list Cell :=
  match columns with
  | [] => prevBuf
  | i :: rest =>
      match readCell currBuf (offset + i) with
      | Some currCell =>
          copyRun currBuf (<[Z.to_nat (offset + i) := currCell]> prevBuf)
                  offset rest
      | None => copyRun currBuf prevBuf offset rest
      end
  end.

Definition outputRun (e : DiffEngine) (cache : ColorCache)
  (row startCol endCol : Z) (runAttr : Z) (runFg runBg : option Color)
  : option jsstr * DiffEngine * ColorCache :=
  let offset := row * cols e in
  let '(stateChange, e, cache) := generateStateChange e cache runAttr runFg runBg in
  match runChars (curr e) offset (colRange startCol endCol) with
  | None => (None, e, cache)
  | Some chars =>
      (Some (stateChange ++ chars),
       setPrev e (copyRun (curr e) (prev e) offset (colRange startCol endCol)),
       cache)
  end.

(** The local variables of [computeDiff]. *)
Record Frame : Type := mkFrame {
  output : jsstr;
  lastRow : Z;
  lastCol : Z
}.

(** The inner [while (col < this.cols)] loop of [computeDiff]. *)
Fixpoint rowLoop (fuel : nat) (e : DiffEngine) (cache : ColorCache)
  (f : Frame) (row col : Z) : outcome Frame * DiffEngine * ColorCache :=
  if col <? cols e then
    match fuel with
    | O => (OutOfFuel, e, cache)
    | S fuel' =>
        let index := row * cols e + col in
        let startCol := col in
        match readCell (curr e) index with
        | None => (Diverges, e, cache)
        | Some startCell =>
            let runAttr := unpackAttr startCell in
            let runFg := unpackFgColor startCell in
            let runBg := unpackBgColor startCell in
            let runEnd := findRunEnd e row startCol runAttr runFg runBg in
            if runHasChanges e row startCol runEnd then
              let f :=
                if negb (lastRow f =? row) || negb (lastCol f =? startCol)
                then mkFrame (output f ++ moveTo (row + 1) (startCol + 1))
                             row startCol
                else f in
              match outputRun e cache row startCol runEnd runAttr runFg runBg with
              | (None, e, cache) => (Throws, e, cache)
              | (Some run, e, cache) =>
                  rowLoop fuel' e cache
                          (mkFrame (output f ++ run) (lastRow f) runEnd)
                          row runEnd
              end
            else rowLoop fuel' e cache f row runEnd
        end
    end
  else (Ok f, e, cache).

Definition isDirty (e : DiffEngine) (row : Z) : bool :=
  match (if row <? 0 then None else dirty e !! Z.to_nat row) with
  | Some d => d =? 1
  | None => false
  end.

(** The outer [for (row = 0; row < this.rows; row++)] loop. *)
Fixpoint rowsLoop (rowList : list Z) (e : DiffEngine) (cache : ColorCache)
  (f : Frame) : outcome Frame * DiffEngine * ColorCache :=
  match rowList with
  | [] => (Ok f, e, cache)
  | row :: rest =>
      if negb (isDirty e row) then rowsLoop rest e cache f
      else
        match rowLoop (Z.to_nat (cols e)) e cache f row 0 with
        | (Ok f, e, cache) =>
            rowsLoop rest (setDirty e (<[Z.to_nat row := 0]> (dirty e))) cache f
        | other => other
        end
  end.

(** [if (output && (attr !== 0 || fg || bg))]. *)
Definition needsFinalReset (out : jsstr) (st : AnsiState) : bool :=
  match out with
  | [] => false
  | _ => negb (attr st =? 0) || truthy (fg st) || truthy (bg st)
  end.

Definition computeDiff (e : DiffEngine) (cache : ColorCache)
  : outcome jsstr * DiffEngine * ColorCache :=
  let e := setAnsi e (mkAnsiState 0 None None) false in
  match rowsLoop (colRange 0 (rows e)) e cache (mkFrame [] (-1) (-1)) with
  | (Ok f, e, cache) =>
      let out := output f in
      (Ok (if needsFinalReset out (ansiState e) then out ++ ESC_RESET else out),
       e, cache)
  | (Throws, e, cache) => (Throws, e, cache)
  | (Diverges, e, cache) => (Diverges, e, cache)
  | (OutOfFuel, e, cache) => (OutOfFuel, e, cache)
  end.

(** [resize]: [None] when an allocation throws (the engine is then left as
    it was). *)
Definition resize (e : DiffEngine) (rows cols : Z) : option DiffEngine :=
  if (rows =? Diff.rows e) && (cols =? Diff.cols e) then Some e
  else
    let newSize := rows * cols in
    newPrev ← allocCells newSize;
    newCurr ← allocCells newSize;
    newDirty ← allocDirty rows 1;
    Some (mkDiffEngine rows cols newSize newPrev newCurr newDirty
                       (ansiState e) (hasSetBackground e)).

End Diff.

(** ** input/features.ts: features, terminal types, support levels *)
Module Features.

Inductive InputFeature : Type :=
| MouseTracking
| KittyKeyboard
| BracketedPaste
| FocusEvents
| Clipboard.

Inductive TerminalType : Type :=
| Kitty
| Ghostty
| ITerm
| Tmux
| SSH
| Unknown.

Inductive SupportLevel : Type :=
| Full
| Partial
| NoSupport.

#[global] Instance InputFeature_eq_dec : EqDecision InputFeature.
Proof. solve_decision. Defined.
#[global] Instance TerminalType_eq_dec : EqDecision TerminalType.
Proof. solve_decision. Defined.
#[global] Instance SupportLevel_eq_dec : EqDecision SupportLevel.
Proof. solve_decision. Defined.

(** [TERMINAL_FEATURE_SUPPORT]. *)
Definition TERMINAL_FEATURE_SUPPORT (t : TerminalType) (f : InputFeature)
  : SupportLevel :=
  match t, f with
  | Kitty, _ => Full
  | Ghostty, _ => Full
  | ITerm, MouseTracking => Partial
  | ITerm, KittyKeyboard => NoSupport
  | ITerm, BracketedPaste => Full
  | ITerm, FocusEvents => Full
  | ITerm, Clipboard => Full
  | Tmux, MouseTracking => Partial
  | Tmux, KittyKeyboard => NoSupport
  | Tmux, BracketedPaste => Full
  | Tmux, FocusEvents => NoSupport
  | Tmux, Clipboard => Partial
  | SSH, MouseTracking => Partial
  | SSH, KittyKeyboard => NoSupport
  | SSH, BracketedPaste => Partial
  | SSH, FocusEvents => NoSupport
  | SSH, Clipboard => NoSupport
  | Unknown, _ => NoSupport
  end.

End Features.

(** ** input/types.ts: the events *)
Module Events.
Import Js.

(** The string literals of [KeyCode]. *)
Inductive NamedKey : Type :=
| KeyUp | KeyDown | KeyLeft | KeyRight | KeyHome | KeyEnd
| KeyPageUp | KeyPageDown
| KeyBackspace | KeyDelete | KeyInsert | KeyEnter | KeyTab | KeyEscape
| KeyF1 | KeyF2 | KeyF3 | KeyF4 | KeyF5 | KeyF6
| KeyF7 | KeyF8 | KeyF9 | KeyF10 | KeyF11 | KeyF12
| KeyPrintScreen | KeyPause | KeyMenu
| KeyShift | KeyControl | KeyAlt | KeyMeta
| KeyCapsLock | KeyNumLock | KeyScrollLock.

(** [type KeyCode = 'Up' | ... | { char: string }]. *)
Inductive KeyCode : Type :=
| Named (k : NamedKey)
| Char (char : jsstr).

(** [interface KeyModifiers]; a [Partial<KeyModifiers>] is modelled by the
    same record, an absent field being [false] (every reader of such a field
    converts it with [Boolean] or tests its truthiness). *)
Record KeyModifiers : Type := mkMods {
  ctrl : bool;
  alt : bool;
  shift : bool;
  meta : bool
}.

Definition noMods : KeyModifiers := mkMods false false false false.

Inductive KeyEventKind : Type := press | repeat | release.

Inductive MouseButton : Type :=
| Button (n : Z)
| WheelUp
| WheelDown
| WheelLeft
| WheelRight.

Inductive MouseEventKind : Type := down | up | drag | move | scroll.

(** The events the decoder produces. *)
Inductive InputEvent : Type :=
| KeyEvent (code : KeyCode) (modifiers : KeyModifiers) (isRepeat : bool)
           (kind : option KeyEventKind) (raw : jsstr)
| MouseEvent (mkind : MouseEventKind) (button : option MouseButton) (x y : Z)
             (modifiers : KeyModifiers) (raw : jsstr)
| PasteEvent (content : jsstr)
| ClipboardEvent (content : jsstr).

#[global] Instance NamedKey_eq_dec : EqDecision NamedKey.
Proof. solve_decision. Defined.
#[global] Instance KeyEventKind_eq_dec : EqDecision KeyEventKind.
Proof. solve_decision. Defined.

End Events.

(** ** input/protocols.ts: tables and limits *)
Module Protocols.
Import Js Events.

Definition MAX_CSI_PARAM : Z := 16777215.
Definition MAX_CSI_PARAMS : Z := 16.
Definition SEQUENCE_BUFFER_SIZE : Z := 256.

(** [CTRL_CHARS[byte]]. *)
Definition CTRL_CHARS (byte : Z) : option KeyCode :=
  if byte =? 0 then Some (Char [0])
  else if byte =? 9 then Some (Named KeyTab)
  else if byte =? 13 then Some (Named KeyEnter)
  else if byte =? 27 then Some (Named KeyEscape)
  else if byte =? 127 then Some (Named KeyBackspace)
  else if (1 <=? byte) && (byte <=? 26) then Some (Char [96 + byte])
  else None.

(** [CSI_KEY_MAP]. *)
Definition CSI_KEY_MAP_entries : list (jsstr * NamedKey) :=
  [ (lit "A", KeyUp); (lit "B", KeyDown); (lit "C", KeyRight);
    (lit "D", KeyLeft); (lit "H", KeyHome); (lit "F", KeyEnd);
    (lit "1~", KeyHome); (lit "2~", KeyInsert); (lit "3~", KeyDelete);
    (lit "4~", KeyEnd); (lit "5~", KeyPageUp); (lit "6~", KeyPageDown);
    (lit "7~", KeyHome); (lit "8~", KeyEnd);
    (lit "11~", KeyF1); (lit "12~", KeyF2); (lit "13~", KeyF3);
    (lit "14~", KeyF4); (lit "15~", KeyF5); (lit "17~", KeyF6);
    (lit "18~", KeyF7); (lit "19~", KeyF8); (lit "20~", KeyF9);
    (lit "21~", KeyF10); (lit "23~", KeyF11); (lit "24~", KeyF12);
    (lit "1;2P", KeyF1); (lit "1;2Q", KeyF2); (lit "1;2R", KeyF3);
    (lit "1;2S", KeyF4) ].

(** A property read [table[key]] on one of the key tables. *)
Fixpoint lookupKey (table : list (jsstr * NamedKey)) (key : jsstr)
  : option NamedKey :=
  match table with
  | [] => None
  | (k, v) :: rest => if bool_decide (k = key) then Some v else lookupKey rest key
  end.

Definition CSI_KEY_MAP (key : jsstr) : option NamedKey :=
  lookupKey CSI_KEY_MAP_entries key.

(** [SS3_KEY_MAP]. *)
Definition SS3_KEY_MAP (key : jsstr) : option NamedKey :=
  lookupKey
    [ (lit "P", KeyF1); (lit "Q", KeyF2); (lit "R", KeyF3); (lit "S", KeyF4);
      (lit "A", KeyUp); (lit "B", KeyDown); (lit "C", KeyRight);
      (lit "D", KeyLeft); (lit "H", KeyHome); (lit "F", KeyEnd) ]
    key.

(** [SGR_BUTTON_MAP[code]], [None] when [!(code in SGR_BUTTON_MAP)]. *)
Definition SGR_BUTTON_MAP (code : Z) : option MouseButton :=
  if code =? 0 then Some (Button 1)
  else if code =? 1 then Some (Button 3)
  else if code =? 2 then Some (Button 2)
  else if code =? 64 then Some WheelUp
  else if code =? 65 then Some WheelDown
  else if code =? 66 then Some WheelLeft
  else if code =? 67 then Some WheelRight
  else None.

Definition MOUSE_SHIFT : Z := 4.
Definition MOUSE_ALT : Z := 8.
Definition MOUSE_CTRL : Z := 16.
Definition MOUSE_META : Z := 32.

End Protocols.

(** ** input/terminal-quirks.ts *)
Module Quirks.
Import Js Events Features.

Definition shouldApplyQuirks (type : TerminalType) : bool :=
  match type with
  | Kitty | Ghostty => false
  | _ => true
  end.

(** [TERMINAL_KEY_REMAP[type][unicode]]. *)
Definition TERMINAL_KEY_REMAP (type : TerminalType) (unicode : Z)
  : option NamedKey :=
  match type with
  | ITerm =>
      if unicode =? 57442 then Some KeyControl
      else if unicode =? 57443 then Some KeyAlt
      else if unicode =? 57444 then Some KeyMeta
      else if unicode =? 57447 then Some KeyShift
      else if unicode =? 57449 then Some KeyAlt
      else if unicode =? 57450 then Some KeyMeta
      else None
  | Unknown =>
      if unicode =? 57442 then Some KeyControl
      else if unicode =? 57443 then Some KeyAlt
      else if unicode =? 57444 then Some KeyMeta
      else None
  | Tmux | SSH | Kitty | Ghostty => None
  end.

(** [remapKeyCode(unicode, originalKey)]; [type] is what [getTerminalType()]
    returns. *)
Definition remapKeyCode (type : TerminalType) (unicode : Z)
  (originalKey : NamedKey) : NamedKey :=
  if negb (shouldApplyQuirks type) then originalKey
  else
    match TERMINAL_KEY_REMAP type unicode with
    | Some k => k
    | None => originalKey
    end.

(** [remapControlChar(byte)]: only byte 21 is in [META_CONTROL_CHAR_REMAP]. *)
Definition remapControlChar (type : TerminalType) (byte : Z)
  : option (KeyCode * KeyModifiers) :=
  if bool_decide (type = ITerm) && (byte =? 21)
  then Some (Named KeyBackspace, mkMods false false false true)
  else None.

(** [remapAltEscapeChar(char)]. *)
Definition remapAltEscapeChar (type : TerminalType) (char : jsstr)
  : option NamedKey :=
  if shouldApplyQuirks type then
    if bool_decide (char = lit "b") then Some KeyLeft
    else if bool_decide (char = lit "f") then Some KeyRight
    else None
  else None.

End Quirks.

(** ** input/decoder.ts: the input state machine *)
Module Decoder.
Import Js Events Protocols Features Quirks.

Inductive ParserState : Type :=
| idle | escape | csi | csi_param | csi_intermediate | ss3 | osc | dcs | paste.

#[global] Instance ParserState_eq_dec : EqDecision ParserState.
Proof. solve_decision. Defined.

(** The fields of [class InputDecoder]. [buffer] is the [Uint8Array] of
    [SEQUENCE_BUFFER_SIZE] bytes. *)
Record Decoder : Type := mkDecoder {
  state : ParserState;
  buffer : list Z;
  bufferPos : Z;
  params : list Z;
  intermediates : jsstr;
  final : jsstr;
  events : list InputEvent;
  lastMouseButton : option MouseButton;
  pasteBuffer : jsstr;
  inPaste : bool;
  oscBuffer : jsstr;
  oscParam : jsstr;
  kittyEnabled : bool;
  quirksEnabled : bool;
  physicalModifierState : KeyModifiers
}.

(** Field assignments [this.f = v]. *)
Definition setState (d : Decoder) (v : ParserState) : Decoder :=
  mkDecoder v (buffer d) (bufferPos d) (params d) (intermediates d) (final d)
    (events d) (lastMouseButton d) (pasteBuffer d) (inPaste d) (oscBuffer d)
    (oscParam d) (kittyEnabled d) (quirksEnabled d)
    (physicalModifierState d).
Definition setBuffer (d : Decoder) (v : list Z) : Decoder :=
  mkDecoder (state d) v (bufferPos d) (params d) (intermediates d) (final d)
    (events d) (lastMouseButton d) (pasteBuffer d) (inPaste d) (oscBuffer d)
    (oscParam d) (kittyEnabled d) (quirksEnabled d)
    (physicalModifierState d).
Definition setBufferPos (d : Decoder) (v : Z) : Decoder :=
  mkDecoder (state d) (buffer d) v (params d) (intermediates d) (final d)
    (events d) (lastMouseButton d) (pasteBuffer d) (inPaste d) (oscBuffer d)
    (oscParam d) (kittyEnabled d) (quirksEnabled d)
    (physicalModifierState d).
Definition setParams (d : Decoder) (v : list Z) : Decoder :=
  mkDecoder (state d) (buffer d) (bufferPos d) v (intermediates d) (final d)
    (events d) (lastMouseButton d) (pasteBuffer d) (inPaste d) (oscBuffer d)
    (oscParam d) (kittyEnabled d) (quirksEnabled d)
    (physicalModifierState d).
Definition setIntermediates (d : Decoder) (v : jsstr) : Decoder :=
  mkDecoder (state d) (buffer d) (bufferPos d) (params d) v (final d)
    (events d) (lastMouseButton d) (pasteBuffer d) (inPaste d) (oscBuffer d)
    (oscParam d) (kittyEnabled d) (quirksEnabled d)
    (physicalModifierState d).
Definition setFinal (d : Decoder) (v : jsstr) : Decoder :=
  mkDecoder (state d) (buffer d) (bufferPos d) (params d) (intermediates d) v
    (events d) (lastMouseButton d) (pasteBuffer d) (inPaste d) (oscBuffer d)
    (oscParam d) (kittyEnabled d) (quirksEnabled d)
    (physicalModifierState d).
Definition setEvents (d : Decoder) (v : list InputEvent) : Decoder :=
  mkDecoder (state d) (buffer d) (bufferPos d) (params d) (intermediates d)
    (final d) v (lastMouseButton d) (pasteBuffer d) (inPaste d) (oscBuffer d)
    (oscParam d) (kittyEnabled d) (quirksEnabled d)
    (physicalModifierState d).
Definition setLastMouseButton (d : Decoder) (v : option MouseButton) : Decoder :=
  mkDecoder (state d) (buffer d) (bufferPos d) (params d) (intermediates d)
    (final d) (events d) v (pasteBuffer d) (inPaste d) (oscBuffer d)
    (oscParam d) (kittyEnabled d) (quirksEnabled d)
    (physicalModifierState d).
Definition setPasteBuffer (d : Decoder) (v : jsstr) : Decoder :=
  mkDecoder (state d) (buffer d) (bufferPos d) (params d) (intermediates d)
    (final d) (events d) (lastMouseButton d) v (inPaste d) (oscBuffer d)
    (oscParam d) (kittyEnabled d) (quirksEnabled d)
    (physicalModifierState d).
Definition setInPaste (d : Decoder) (v : bool) : Decoder :=
  mkDecoder (state d) (buffer d) (bufferPos d) (params d) (intermediates d)
    (final d) (events d) (lastMouseButton d) (pasteBuffer d) v (oscBuffer d)
    (oscParam d) (kittyEnabled d) (quirksEnabled d)
    (physicalModifierState d).
Definition setOscBuffer (d : Decoder) (v : jsstr) : Decoder :=
  mkDecoder (state d) (buffer d) (bufferPos d) (params d) (intermediates d)
    (final d) (events d) (lastMouseButton d) (pasteBuffer d) (inPaste d) v
    (oscParam d) (kittyEnabled d) (quirksEnabled d)
    (physicalModifierState d).
Definition setOscParam (d : Decoder) (v : jsstr) : Decoder :=
  mkDecoder (state d) (buffer d) (bufferPos d) (params d) (intermediates d)
    (final d) (events d) (lastMouseButton d) (pasteBuffer d) (inPaste d)
    (oscBuffer d) v (kittyEnabled d) (quirksEnabled d)
    (physicalModifierState d).
Definition setPhysicalModifierState (d : Decoder) (v : KeyModifiers) : Decoder :=
  mkDecoder (state d) (buffer d) (bufferPos d) (params d) (intermediates d)
    (final d) (events d) (lastMouseButton d) (pasteBuffer d) (inPaste d)
    (oscBuffer d) (oscParam d) (kittyEnabled d) (quirksEnabled d) v.

(** The completion of a method: a normal return, or an exception that leaves
    the method at once (the fields keep what was assigned before). *)
Inductive Completion : Type :=
| Normal (d : Decoder)
| Abrupt (d : Decoder).

Definition decoderOf (c : Completion) : Decoder :=
  match c with Normal d | Abrupt d => d end.

(** [String.fromCharCode(c)]. *)
Definition fromCharCode (c : Z) : jsstr := [c mod 65536].

(** A write into a [Uint8Array]. *)
Definition toUint8 (b : Z) : Z := b mod 256.

(** [s.indexOf(String.fromCharCode(c))], [None] for -1. *)
Fixpoint indexOf (c : Z) (s : jsstr) : option nat :=
  match s with
  | [] => None
  | x :: s' => if x =? c then Some O else S <$> indexOf c s'
  end.

(** [s.split(String.fromCharCode(c))]. *)
Fixpoint split (c : Z) (s : jsstr) : list jsstr :=
  match s with
  | [] => [[]]
  | x :: s' =>
      if x =? c then [] :: split c s'
      else
        match split c s' with
        | h :: t => (x :: h) :: t
        | [] => [[x]]
        end
  end.

(** [s.slice(0, -n)]. *)
Definition dropLast (n : nat) (s : jsstr) : jsstr :=
  take (length s - n) s.

(** [xs.at(-n)] for [n >= 1]. *)
Definition atEnd (n : nat) (xs : list Z) : option Z :=
  if (length xs <? n)%nat then None else xs !! (length xs - n)%nat.

(** [v || dflt] on a number that may be [undefined]. *)
Definition orDefault (v : option Z) (dflt : Z) : Z :=
  match v with
  | Some x => if x =? 0 then dflt else x
  | None => dflt
  end.

Section Machine.

(** What the runtime provides: [new TextDecoder().decode(bytes)],
    [Buffer.from(s, 'base64').toString('utf8')] (neither throws), and the
    terminal type that [getTerminalType()] of terminal-quirks.ts has cached
    from the environment. *)
Variable textDecode : list Z -> jsstr.
Variable base64ToUtf8 : jsstr -> jsstr.
Variable terminalType : TerminalType.

Definition reset (d : Decoder) : Decoder :=
  setOscParam
    (setOscBuffer
       (setFinal
          (setIntermediates
             (setParams (setBufferPos (setState d idle) 0) []) []) []) []) [].

(** [new InputDecoder(options)]; an absent option is [None]. *)
Definition newInputDecoder (kittyKeyboard quirks : option bool) : Decoder :=
  reset
    (mkDecoder idle (replicate (Z.to_nat SEQUENCE_BUFFER_SIZE) 0) 0 [] [] []
       [] None [] false [] []
       (default false kittyKeyboard) (default true quirks)
       (mkMods false false false false)).

Definition getRawSequence (d : Decoder) : jsstr :=
  textDecode (take (Z.to_nat (bufferPos d)) (buffer d)).

Definition pushEvent (d : Decoder) (e : InputEvent) : Decoder :=
  setEvents d (events d ++ [e]).

Definition emitKey (d : Decoder) (code : KeyCode) (isCtrl : bool)
  (additionalMods : KeyModifiers) (kind : option KeyEventKind) : Decoder :=
  let modifiers :=
    mkMods (isCtrl || ctrl additionalMods) (alt additionalMods)
      (shift additionalMods) (meta additionalMods) in
  let event :=
    KeyEvent code modifiers (bool_decide (kind = Some repeat)) kind
      (getRawSequence d) in
  reset (pushEvent d event).

Definition emitMouse (d : Decoder) (button x y : Z) (sgr : bool) : Decoder :=
  let modifiers :=
    mkMods (negb (band button MOUSE_CTRL =? 0))
      (negb (band button MOUSE_ALT =? 0))
      (negb (band button MOUSE_SHIFT =? 0))
      (negb (band button MOUSE_META =? 0)) in
  let buttonCode :=
    if sgr then
      if (64 <=? button) && (button <=? 67) then button else band button 3
    else band button 67 in
  let isRelease := sgr && bool_decide (final d = lit "m") in
  let isMotion := negb (band button 32 =? 0) in
  let dragOrMove :=
    match lastMouseButton d with Some _ => drag | None => move end in
  let '(mappedButton, kind, d1) :=
    match SGR_BUTTON_MAP buttonCode with
    | Some b =>
        match b with
        | WheelUp | WheelDown | WheelLeft | WheelRight => (Some b, scroll, d)
        | Button _ =>
            if isRelease then (Some b, up, setLastMouseButton d None)
            else if isMotion then (Some b, dragOrMove, d)
            else (Some b, down, setLastMouseButton d (Some b))
        end
    | None =>
        if isMotion then (lastMouseButton d, dragOrMove, d)
        else (None, down, d)
    end in
  pushEvent d1
    (MouseEvent kind mappedButton x y modifiers (getRawSequence d1)).

Definition modifiersOfBits (modParam : Z) : KeyModifiers :=
  mkMods (negb (band modParam 4 =? 0)) (negb (band modParam 2 =? 0))
    (negb (band modParam 1 =? 0)) (negb (band modParam 8 =? 0)).

Definition extractModifiers (d : Decoder) : KeyModifiers :=
  if (length (params d) <? 2)%nat then noMods
  else
    match params d !! 1%nat with
    | None => noMods
    | Some secondParam => modifiersOfBits (secondParam - 1)
    end.

Definition extractModifiersFromParam (param : Z) : KeyModifiers :=
  if (param =? 0) || (param =? 1) then noMods
  else modifiersOfBits (param - 1).

Definition extractKittyModifiers (modifiers : Z) : KeyModifiers :=
  if (modifiers =? 0) || (modifiers =? 1) then noMods
  else modifiersOfBits (modifiers - 1).

Definition handleX10Mouse (d : Decoder) : Decoder :=
  if bufferPos d <? 6 then d
  else
    match buffer d !! 3%nat, buffer d !! 4%nat, buffer d !! 5%nat with
    | Some buttonByte, Some xByte, Some yByte =>
        emitMouse d (buttonByte - 32) (xByte - 32) (yByte - 32) false
    | _, _, _ => d
    end.

Definition handleSGRMouseComplete (d : Decoder) : Decoder :=
  if (length (params d) <? 3)%nat then d
  else
    emitMouse d (orDefault (params d !! 0%nat) 0)
      (orDefault (params d !! 1%nat) 1) (orDefault (params d !! 2%nat) 1)
      true.

Definition mapUnicodeToKeyCode (unicode : Z) : option NamedKey :=
  if unicode =? 13 then Some KeyEnter
  else if unicode =? 27 then Some KeyEscape
  else if unicode =? 9 then Some KeyTab
  else if unicode =? 127 then Some KeyBackspace
  else if unicode =? 1792833 then Some KeyUp
  else if unicode =? 1792834 then Some KeyDown
  else if unicode =? 1792835 then Some KeyRight
  else if unicode =? 1792836 then Some KeyLeft
  else if unicode =? 1789776 then Some KeyF1
  else if unicode =? 1789777 then Some KeyF2
  else if unicode =? 1789778 then Some KeyF3
  else if unicode =? 1789779 then Some KeyF4
  else if unicode =? 57441 then Some KeyShift
  else if unicode =? 57442 then Some KeyShift
  else if unicode =? 57443 then Some KeyControl
  else if unicode =? 57444 then Some KeyControl
  else if unicode =? 57445 then Some KeyAlt
  else if unicode =? 57446 then Some KeyAlt
  else if unicode =? 57447 then Some KeyMeta
  else if unicode =? 57448 then Some KeyMeta
  else if unicode =? 57449 then Some KeyCapsLock
  else if unicode =? 57450 then Some KeyNumLock
  else if unicode =? 57451 then Some KeyScrollLock
  else if unicode =? 1792819 then Some KeyDelete
  else if unicode =? 2221 then Some KeyDelete
  else if unicode =? 2 then Some KeyInsert
  else if unicode =? 5 then Some KeyPageUp
  else if unicode =? 6 then Some KeyPageDown
  else if unicode =? 1 then Some KeyHome
  else if unicode =? 4 then Some KeyEnd
  else None.

(** The workaround of [handleKittyKeyboard]: a modifier the tracked physical
    state knows as released is cleared. *)
Definition adjustModifiers (d : Decoder) (kittyModifiers : KeyModifiers)
  : KeyModifiers :=
  if quirksEnabled d then
    let phys := physicalModifierState d in
    mkMods
      (if negb (ctrl phys) && ctrl kittyModifiers then false
       else ctrl kittyModifiers)
      (if negb (alt phys) && alt kittyModifiers then false
       else alt kittyModifiers)
      (if negb (shift phys) && shift kittyModifiers then false
       else shift kittyModifiers)
      (if negb (meta phys) && meta kittyModifiers then false
       else meta kittyModifiers)
  else kittyModifiers.

(** [this.physicalModifierState[stateKey] = v] for the modifier key. *)
Definition setPhysical (phys : KeyModifiers) (key : NamedKey) (v : bool)
  : KeyModifiers :=
  match key with
  | KeyControl => mkMods v (alt phys) (shift phys) (meta phys)
  | KeyAlt => mkMods (ctrl phys) v (shift phys) (meta phys)
  | KeyShift => mkMods (ctrl phys) (alt phys) v (meta phys)
  | KeyMeta => mkMods (ctrl phys) (alt phys) (shift phys) v
  | _ => phys
  end.

(** The modifier a modifier key stands for is removed from its own event. *)
Definition clearSelf (m : KeyModifiers) (key : NamedKey) : KeyModifiers :=
  setPhysical m key false.

Definition isModifierKey (key : NamedKey) : bool :=
  match key with
  | KeyShift | KeyControl | KeyAlt | KeyMeta => true
  | _ => false
  end.

Definition handleKittyKeyboard (d : Decoder) : Completion :=
  match params d with
  | [] => Normal d
  | unicode :: _ =>
      let modifiers :=
        match params d with
        | _ :: m :: _ => m
        | _ => 1
        end in
      let eventType :=
        match params d with
        | _ :: _ :: t :: _ => t
        | _ => 1
        end in
      let kind :=
        if eventType =? 1 then press
        else if eventType =? 2 then repeat
        else if eventType =? 3 then release
        else press in
      if unicode =? 0 then Normal d
      else
        let kittyModifiers := extractKittyModifiers modifiers in
        if (unicode =? 27) && bool_decide (kind = release)
           && (ctrl kittyModifiers || meta kittyModifiers)
        then Normal (emitKey d (Named KeyEscape) false kittyModifiers None)
        else
          match mapUnicodeToKeyCode unicode with
          | Some keyCode =>
              let actualKeyCode :=
                if quirksEnabled d
                then remapKeyCode terminalType unicode keyCode
                else keyCode in
              if isModifierKey actualKeyCode then
                let phys := physicalModifierState d in
                let d1 :=
                  match kind with
                  | release =>
                      setPhysicalModifierState d
                        (setPhysical phys actualKeyCode false)
                  | press =>
                      setPhysicalModifierState d
                        (setPhysical phys actualKeyCode true)
                  | repeat => d
                  end in
                let adjustedModifiers :=
                  clearSelf (adjustModifiers d1 kittyModifiers)
                    actualKeyCode in
                Normal
                  (emitKey d1 (Named actualKeyCode) false adjustedModifiers
                     (Some kind))
              else
                Normal
                  (emitKey d (Named keyCode) false
                     (adjustModifiers d kittyModifiers) (Some kind))
          | None =>
              if 32 <=? unicode then
                match fromCodePoint unicode with
                | Some char =>
                    Normal
                      (emitKey d (Char char) false
                         (adjustModifiers d kittyModifiers) (Some kind))
                | None => Abrupt d
                end
              else Normal d
          end
  end.

(** The event type a trailing parameter stands for. *)
Definition kindOfEventType (eventType : option Z) : option KeyEventKind :=
  match eventType with
  | Some t =>
      if t =? 1 then Some press
      else if t =? 2 then Some repeat
      else if t =? 3 then Some release
      else None
  | None => None
  end.

Definition lookupCSIKey (d : Decoder) : option NamedKey :=
  let lookupKey0 :=
    if (0 <? length (params d))%nat
    then join (lit ";") (map decimal (params d))
    else [] in
  let lookupKey := lookupKey0 ++ intermediates d ++ final d in
  match CSI_KEY_MAP lookupKey with
  | Some k => Some k
  | None => CSI_KEY_MAP (final d)
  end.

(** The tail of [handleCSISequence]: "Handle keyboard sequences". *)
Definition handleCSIKeyboard (d : Decoder) : Decoder :=
  let modifiers := extractModifiers d in
  let kind := if kittyEnabled d then Some press else None in
  match lookupCSIKey d with
  | Some key => emitKey d (Named key) false modifiers kind
  | None => emitKey d (Char (lit "Unknown:" ++ final d)) false modifiers kind
  end.

(** The keys with an event type: [ESC [ 1 ; mod : type X]. *)
Definition emitWithEventType (d : Decoder) (key : NamedKey) : Decoder :=
  let eventType := atEnd 1 (params d) in
  let modParam := orDefault (params d !! 1%nat) 1 in
  let modifiers := if 1 <? modParam then extractModifiers d else noMods in
  emitKey d (Named key) false modifiers (kindOfEventType eventType).

Definition arrowKeyMap (f : jsstr) : option NamedKey :=
  lookupKey
    [ (lit "A", KeyUp); (lit "B", KeyDown); (lit "C", KeyRight);
      (lit "D", KeyLeft); (lit "H", KeyHome); (lit "F", KeyEnd) ] f.

Definition functionKeyMap (f : jsstr) : option NamedKey :=
  lookupKey
    [ (lit "P", KeyF1); (lit "Q", KeyF2); (lit "R", KeyF3);
      (lit "S", KeyF4) ] f.

Definition finalIs (d : Decoder) (s : string) : bool :=
  bool_decide (final d = lit s).

(** The [~] keys with modifiers and event types. [None]: no branch returned,
    the sequence goes on to the keyboard lookup. *)
Definition handleTilde (d : Decoder) : option Decoder :=
  let lastParam := atEnd 1 (params d) in
  let secondLastParam := atEnd 2 (params d) in
  let key :=
    match params d !! 0%nat with
    | Some keyCode => CSI_KEY_MAP (decimal keyCode ++ lit "~")
    | None => None
    end in
  let case1 :=
    match lastParam with
    | Some l => (1 <=? l) && (l <=? 3) && bool_decide (secondLastParam = Some 1)
    | None => false
    end in
  match key with
  | Some k =>
      if case1 then
        Some (emitKey d (Named k) false noMods (kindOfEventType lastParam))
      else
        let modParam := default 0 (params d !! 1%nat) in
        let modifiers :=
          if 1 <? modParam then extractModifiersFromParam modParam
          else noMods in
        let kind :=
          if (length (params d) =? 2)%nat
          then (if kittyEnabled d then Some press else None)
          else if (3 <=? length (params d))%nat
          then kindOfEventType (atEnd 1 (params d))
          else None in
        Some (emitKey d (Named k) false modifiers kind)
  | None => None
  end.

Definition handleCSISequence (d : Decoder) : Completion :=
  if finalIs d "~" && bool_decide (params d !! 0%nat = Some 200) then
    Normal
      (setBufferPos
         (setPasteBuffer (setInPaste (setState d paste) true) []) 0)
  else if finalIs d "u" && bool_decide (intermediates d = []) then
    handleKittyKeyboard d
  else if bool_decide (intermediates d = lit "<")
          && (finalIs d "M" || finalIs d "m") then
    Normal (handleSGRMouseComplete d)
  else if finalIs d "M" then Normal (handleX10Mouse d)
  else
    let arrows :=
      (finalIs d "A" || finalIs d "B" || finalIs d "C" || finalIs d "D"
       || finalIs d "H" || finalIs d "F")
      && (2 <=? length (params d))%nat in
    let fkeys :=
      (finalIs d "P" || finalIs d "Q" || finalIs d "R" || finalIs d "S")
      && (2 <=? length (params d))%nat in
    match (if arrows then arrowKeyMap (final d) else None) with
    | Some key => Normal (emitWithEventType d key)
    | None =>
        match (if fkeys then functionKeyMap (final d) else None) with
        | Some key => Normal (emitWithEventType d key)
        | None =>
            match
              (if finalIs d "~" && (2 <=? length (params d))%nat
               then handleTilde d else None)
            with
            | Some d' => Normal d'
            | None => Normal (handleCSIKeyboard d)
            end
        end
    end.

Definition handleControlChar (d : Decoder) (byte : Z) : Decoder :=
  match (if quirksEnabled d then remapControlChar terminalType byte
         else None) with
  | Some (key, modifiers) => emitKey d key false modifiers None
  | None =>
      match CTRL_CHARS byte with
      | Some code =>
          let isCtrlChar :=
            (byte <? 32) && negb (byte =? 9) && negb (byte =? 10)
            && negb (byte =? 13) && negb (byte =? 27) in
          emitKey d code isCtrlChar noMods None
      | None => d
      end
  end.

Definition altOnly : KeyModifiers := mkMods false true false false.

Definition handleEscapeChar (d : Decoder) (byte : Z) : Decoder :=
  if (32 <=? byte) && (byte <? 127) then
    let char := fromCharCode byte in
    match (if quirksEnabled d then remapAltEscapeChar terminalType char
           else None) with
    | Some remappedKey => emitKey d (Named remappedKey) false altOnly None
    | None => emitKey d (Char char) false altOnly None
    end
  else
    emitKey d (Char (lit "Unknown:ESC+" ++ fromCharCode byte)) false noMods
      None.

Definition handleOSCSequence (d : Decoder) : Decoder :=
  let d1 :=
    if bool_decide (oscParam d = lit "52") then
      match split 59 (oscBuffer d) with
      | p0 :: base64Data :: _ =>
          if bool_decide (p0 = lit "c")
          then pushEvent d (ClipboardEvent (base64ToUtf8 base64Data))
          else d
      | _ => d
      end
    else d in
  setOscParam (setOscBuffer d1 []) [].

Definition processIdle (d : Decoder) (byte : Z) : Decoder :=
  if byte =? 27 then
    setBuffer (setBufferPos (setState d escape) 1)
      (<[0%nat := toUint8 byte]> (buffer d))
  else if (byte <? 32) || (byte =? 127) then
    if kittyEnabled d then
      match (if quirksEnabled d then remapControlChar terminalType byte
             else None) with
      | Some _ => handleControlChar d byte
      | None => d
      end
    else handleControlChar d byte
  else
    let char := fromCharCode byte in
    if negb (kittyEnabled d) then emitKey d (Char char) false noMods None
    else d.

Definition processEscape (d : Decoder) (byte : Z) : Decoder :=
  if byte =? 91 then setIntermediates (setParams (setState d csi) []) []
  else if byte =? 79 then setState d ss3
  else if byte =? 80 then setState d dcs
  else if byte =? 93 then setOscParam (setOscBuffer (setState d osc) []) []
  else reset (handleEscapeChar d byte).

(** The final byte of a CSI sequence, shared by the three CSI states. *)
Definition processCSIFinal (d : Decoder) (byte : Z) : Completion :=
  match handleCSISequence (setFinal d (fromCharCode byte)) with
  | Normal d1 =>
      Normal (if bool_decide (state d1 = paste) then d1 else reset d1)
  | Abrupt d1 => Abrupt d1
  end.

Definition processCSI (d : Decoder) (byte : Z) : Completion :=
  if (48 <=? byte) && (byte <=? 57) then
    Normal (setParams (setState d csi_param) (params d ++ [byte - 48]))
  else if (byte =? 59) || (byte =? 58) then
    Normal (setState (setParams d (params d ++ [0])) csi_param)
  else if byte =? 60 then
    Normal (setState (setIntermediates d (lit "<")) csi_param)
  else if (32 <=? byte) && (byte <=? 47) then
    Normal (setState (setIntermediates d (fromCharCode byte)) csi_intermediate)
  else if (64 <=? byte) && (byte <=? 126) then processCSIFinal d byte
  else Normal (reset d).

Definition processCSIParam (d : Decoder) (byte : Z) : Completion :=
  if (48 <=? byte) && (byte <=? 57) then
    if (length (params d) =? 0)%nat then
      Normal (setParams d (params d ++ [byte - 48]))
    else
      let lastParam := (length (params d) - 1)%nat in
      match params d !! lastParam with
      | Some currentValue =>
          if currentValue <? MAX_CSI_PARAM then
            Normal
              (setParams d
                 (<[lastParam := currentValue * 10 + (byte - 48)]> (params d)))
          else Normal d
      | None => Normal d
      end
  else if (byte =? 59) || (byte =? 58) then
    if Z.of_nat (length (params d)) <? MAX_CSI_PARAMS
    then Normal (setParams d (params d ++ [0]))
    else Normal d
  else if (32 <=? byte) && (byte <=? 47) then
    Normal
      (setState (setIntermediates d (intermediates d ++ fromCharCode byte))
         csi_intermediate)
  else if (64 <=? byte) && (byte <=? 126) then processCSIFinal d byte
  else Normal (reset d).

Definition processCSIIntermediate (d : Decoder) (byte : Z) : Completion :=
  if (48 <=? byte) && (byte <=? 57) then
    Normal (setParams (setState d csi_param) (params d ++ [byte - 48]))
  else if (32 <=? byte) && (byte <=? 47) then
    Normal (setIntermediates d (intermediates d ++ fromCharCode byte))
  else if (64 <=? byte) && (byte <=? 126) then processCSIFinal d byte
  else Normal (reset d).

Definition processSS3 (d : Decoder) (byte : Z) : Decoder :=
  match SS3_KEY_MAP (fromCharCode byte) with
  | Some key => reset (emitKey d (Named key) false noMods None)
  | None =>
      reset
        (emitKey d (Char (lit "Unknown:SS3+" ++ fromCharCode byte)) false
           noMods None)
  end.

Definition PASTE_END : jsstr := 27 :: lit "[201~".

Definition processPaste (d : Decoder) (byte : Z) : Decoder :=
  let d1 := setPasteBuffer d (pasteBuffer d ++ fromCharCode byte) in
  if (6 <=? length (pasteBuffer d1))%nat && endsWith (pasteBuffer d1) PASTE_END
  then
    let content := dropLast 6 (pasteBuffer d1) in
    reset
      (setInPaste
         (setPasteBuffer (pushEvent d1 (PasteEvent content)) []) false)
  else d1.

Definition processOSC (d : Decoder) (byte : Z) : Decoder :=
  if byte =? 27 then setOscBuffer d (oscBuffer d ++ [27])
  else if (byte =? 92) && endsWith (oscBuffer d) [27] then
    reset (handleOSCSequence (setOscBuffer d (dropLast 1 (oscBuffer d))))
  else if byte =? 7 then reset (handleOSCSequence d)
  else
    let d1 := setOscBuffer d (oscBuffer d ++ fromCharCode byte) in
    if 10000 <? Z.of_nat (length (oscBuffer d1)) then reset d1
    else if bool_decide (oscParam d1 = []) && includes (oscBuffer d1) [59]
    then
      match indexOf 59 (oscBuffer d1) with
      | Some firstSemiIndex =>
          setOscBuffer
            (setOscParam d1 (take firstSemiIndex (oscBuffer d1)))
            (drop (S firstSemiIndex) (oscBuffer d1))
      | None => d1
      end
    else d1.

Definition processByte (d : Decoder) (byte : Z) : Completion :=
  let d1 :=
    if bufferPos d <? SEQUENCE_BUFFER_SIZE then
      setBufferPos
        (setBuffer d (<[Z.to_nat (bufferPos d) := toUint8 byte]> (buffer d)))
        (bufferPos d + 1)
    else d in
  match state d1 with
  | idle => Normal (processIdle d1 byte)
  | escape => Normal (processEscape d1 byte)
  | csi => processCSI d1 byte
  | csi_param => processCSIParam d1 byte
  | csi_intermediate => processCSIIntermediate d1 byte
  | ss3 => Normal (processSS3 d1 byte)
  | paste => Normal (processPaste d1 byte)
  | osc => Normal (processOSC d1 byte)
  | dcs =>
      if byte =? 27 then Normal (setState d1 escape)
      else if byte =? 7 then Normal (reset d1)
      else Normal d1
  end.

(** [feed(data)]: the loop stops at the first exception. *)
Fixpoint feed (d : Decoder) (data : list Z) : Completion :=
  match data with
  | [] => Normal d
  | byte :: rest =>
      match processByte d byte with
      | Normal d1 => feed d1 rest
      | Abrupt d1 => Abrupt d1
      end
  end.

(** [next()]. *)
Definition next (d : Decoder) : option InputEvent * Decoder :=
  match events d with
  | [] => (None, d)
  | e :: rest => (Some e, setEvents d rest)
  end.

Definition hasEvents (d : Decoder) : bool :=
  (0 <? length (events d))%nat.

Definition clear (d : Decoder) : Decoder := setEvents d [].

End Machine.

End Decoder.

(** ** terminal.ts / buffer.ts: the buffered terminal output *)
Module Terminal.
Import Js.

(** [OutputBuffer] behind [Terminal.write] and [Terminal.flush]: [pending]
    is the string not yet flushed, [sent] what went to the writer. *)
Record Terminal : Type := mkTerminal {
  pending : jsstr;
  highWaterMark : Z;
  sent : jsstr
}.

Definition flush (t : Terminal) : Terminal :=
  if (length (pending t) =? 0)%nat then t
  else mkTerminal [] (highWaterMark t) (sent t ++ pending t).

Definition write (t : Terminal) (data : jsstr) : Terminal :=
  let t1 :=
    if highWaterMark t <? Z.of_nat (length (pending t) + length data)
    then flush t else t in
  mkTerminal (pending t1 ++ data) (highWaterMark t1) (sent t1).

End Terminal.

(** ** input/detection.ts *)
Module Detection.
Import Js Features.

(** The environment variables [detectTerminalType] reads; [None] is an
    unset variable. *)
Record Env : Type := mkEnv {
  TERM : option jsstr;
  TERM_PROGRAM : option jsstr;
  TERM_PROGRAM_VERSION : option jsstr;
  SSH_CONNECTION : option jsstr;
  TMUX : option jsstr
}.

(** [process.env.X || '']. *)
Definition orEmpty (v : option jsstr) : jsstr := default [] v.

(** What [detectTerminalType] returns. *)
Record TerminalInfo : Type := mkTerminalInfo {
  type : TerminalType;
  programVersion : option jsstr;
  ssh : bool;
  tmux : bool
}.

Record DetectedCapabilities : Type := mkCapabilities {
  terminalType : TerminalType;
  features : InputFeature -> SupportLevel;
  version : option jsstr;
  isSSH : bool;
  isTmux : bool
}.

Section Detect.

(** [String.prototype.toLowerCase], the Unicode lower-casing of the
    runtime. *)
Variable toLowerCase : jsstr -> jsstr.

Definition detectTerminalType (env : Env) : TerminalInfo :=
  let term := orEmpty (TERM env) in
  let termProgram := orEmpty (TERM_PROGRAM env) in
  let termProgramVersion := orEmpty (TERM_PROGRAM_VERSION env) in
  let sshConnection := orEmpty (SSH_CONNECTION env) in
  let tmux := orEmpty (TMUX env) in
  let isSSH := (0 <? length sshConnection)%nat in
  let isTmux := (0 <? length tmux)%nat in
  let recognised t := mkTerminalInfo t (Some termProgramVersion) isSSH isTmux in
  let fallback :=
    if isTmux then mkTerminalInfo Tmux None isSSH isTmux
    else if isSSH then mkTerminalInfo SSH None isSSH isTmux
    else mkTerminalInfo Unknown None isSSH isTmux in
  if bool_decide (toLowerCase termProgram = lit "kitty") then recognised Kitty
  else if bool_decide (toLowerCase termProgram = lit "ghostty")
  then recognised Ghostty
  else if bool_decide (toLowerCase termProgram = lit "iterm.app")
  then recognised ITerm
  else if includes (toLowerCase termProgram) (lit "zed")
          || includes term (lit "alacritty")
  then recognised ITerm
  else if bool_decide (termProgram = []) then
    if includes term (lit "kitty") then recognised Kitty
    else if includes term (lit "ghostty") then recognised Ghostty
    else fallback
  else fallback.

(** [support[feature] = level] on the copied row of the matrix. *)
Definition setLevel (support : InputFeature -> SupportLevel)
  (feature : InputFeature) (level : SupportLevel)
  : InputFeature -> SupportLevel :=
  fun f => if bool_decide (f = feature) then level else support f.

(** [if (support[feature] === SupportLevel.Full) support[feature] = level]. *)
Definition demote (support : InputFeature -> SupportLevel)
  (feature : InputFeature) (level : SupportLevel)
  : InputFeature -> SupportLevel :=
  if bool_decide (support feature = Full) then setLevel support feature level
  else support.

Definition getBaseFeatureSupport (terminalType : TerminalType)
  (isSSH isTmux : bool) : InputFeature -> SupportLevel :=
  let support := TERMINAL_FEATURE_SUPPORT terminalType in
  let support1 :=
    if isSSH && negb (bool_decide (terminalType = SSH))
    then demote (demote support Clipboard Partial) FocusEvents NoSupport
    else support in
  if isTmux && negb (bool_decide (terminalType = Tmux))
  then demote (demote support1 KittyKeyboard NoSupport) FocusEvents NoSupport
  else support1.

(** The outcome of [queryFeature(term, KittyKeyboard)]: [stty raw -echo]
    failed, or the query was written and the pattern matched the response
    in time, or not. *)
Inductive QueryOutcome : Type :=
| NotRaw
| Answered
| Silent.

Definition FEATURE_QUERY_KITTY : jsstr := 27 :: lit "[?u".

Definition queryFeature (term : Terminal.Terminal) (q : QueryOutcome)
  : bool * Terminal.Terminal :=
  match q with
  | NotRaw => (false, term)
  | Answered =>
      (true, Terminal.flush (Terminal.write term FEATURE_QUERY_KITTY))
  | Silent =>
      (false, Terminal.flush (Terminal.write term FEATURE_QUERY_KITTY))
  end.

(** [detectCapabilities(term, { force, performQueries })] over the module's
    cache; returns the capabilities, the cache and the terminal. *)
Definition detectCapabilities (cached : option DetectedCapabilities)
  (term : Terminal.Terminal) (force performQueries : bool)
  (q : QueryOutcome) (env : Env)
  : DetectedCapabilities * option DetectedCapabilities * Terminal.Terminal :=
  match cached, force with
  | Some c, false => (c, cached, term)
  | _, _ =>
      let info := detectTerminalType env in
      let features0 := getBaseFeatureSupport (type info) (ssh info) (tmux info) in
      let '(features1, term1) :=
        if performQueries && bool_decide (type info = Unknown) then
          let '(hasKittyKeyboard, term1) := queryFeature term q in
          (if hasKittyKeyboard then setLevel features0 KittyKeyboard Full
           else features0, term1)
        else (features0, term) in
      let capabilities :=
        mkCapabilities (type info) features1 (programVersion info)
          (ssh info) (tmux info) in
      (capabilities, Some capabilities, term1)
  end.

End Detect.

(** [isFeatureSupported(capabilities, feature, minLevel)] on the level
    [capabilities.features[feature]], [None] for a key the record lacks. *)
Definition levelSupported (level : option SupportLevel)
  (minLevel : SupportLevel) : bool :=
  match minLevel with
  | NoSupport => true
  | Partial =>
      bool_decide (level = Some Partial) || bool_decide (level = Some Full)
  | Full => bool_decide (level = Some Full)
  end.

Definition isFeatureSupported (capabilities : DetectedCapabilities)
  (feature : InputFeature) (minLevel : SupportLevel) : bool :=
  levelSupported (Some (features capabilities feature)) minLevel.

End Detection.

(** ** input/enable.ts: the capability controller *)
Module Enable.
Import Js Features Detection.

Inductive MouseProtocol : Type := x10 | sgr.

#[global] Instance MouseProtocol_eq_dec : EqDecision MouseProtocol.
Proof. solve_decision. Defined.

(** [interface TerminalModeState]; the two records are keyed by the feature
    names. *)
Record TerminalModeState : Type := mkTerminalModeState {
  rawMode : bool;
  mouseTracking : bool;
  mouseProtocol : option MouseProtocol;
  kittyKeyboard : bool;
  bracketedPaste : bool;
  focusEvents : bool;
  enabledFeatures : gmap jsstr bool;
  supportedFeatures : gmap jsstr jsstr
}.

Definition initialTerminalState : TerminalModeState :=
  mkTerminalModeState false false None false false false ∅ ∅.

(** The string values of the enumerations of features.ts. *)
Definition featureName (f : InputFeature) : jsstr :=
  match f with
  | MouseTracking => lit "mouseTracking"
  | KittyKeyboard => lit "kittyKeyboard"
  | BracketedPaste => lit "bracketedPaste"
  | FocusEvents => lit "focusEvents"
  | Clipboard => lit "clipboard"
  end.

Definition allFeatures : list InputFeature :=
  [MouseTracking; KittyKeyboard; BracketedPaste; FocusEvents; Clipboard].

Definition featureOfName (name : jsstr) : option InputFeature :=
  List.find (fun f => bool_decide (featureName f = name)) allFeatures.

Definition levelName (l : SupportLevel) : jsstr :=
  match l with
  | Full => lit "full"
  | Partial => lit "partial"
  | NoSupport => lit "none"
  end.

Definition terminalTypeName (t : TerminalType) : jsstr :=
  match t with
  | Kitty => lit "kitty"
  | Ghostty => lit "ghostty"
  | ITerm => lit "iterm"
  | Tmux => lit "tmux"
  | SSH => lit "ssh"
  | Unknown => lit "unknown"
  end.

(** The configuration as [initializeInput] reads it: [options] with the
    keys the controller looks at, an absent key being [None]; an absent
    [enabled] or [required] is [false]. [configFeatures] is
    [Object.entries(config.features)], in the order of the object's keys. *)
Record FeatureOptions : Type := mkFeatureOptions {
  minLevel : option SupportLevel;
  protocol : option MouseProtocol;
  allMotion : option bool;
  flags : option Z
}.

Record FeatureConfig : Type := mkFeatureConfig {
  enabled : bool;
  required : bool;
  options : option FeatureOptions
}.

Record InputConfig : Type := mkInputConfig {
  configFeatures : list (jsstr * FeatureConfig);
  detectedCapabilities : option DetectedCapabilities;
  overrides : option (list (jsstr * bool));
  quirks : option bool
}.

(** The escape sequences of protocols.ts. *)
Definition CSI_PRIVATE (body : string) : jsstr := 27 :: lit "[?" ++ lit body.
Definition ENABLE_MOUSE_TRACKING : jsstr := CSI_PRIVATE "1000h".
Definition DISABLE_MOUSE_TRACKING : jsstr := CSI_PRIVATE "1000l".
Definition ENABLE_MOUSE_BUTTONS : jsstr := CSI_PRIVATE "1002h".
Definition DISABLE_MOUSE_BUTTONS : jsstr := CSI_PRIVATE "1002l".
Definition ENABLE_MOUSE_ALL : jsstr := CSI_PRIVATE "1003h".
Definition DISABLE_MOUSE_ALL : jsstr := CSI_PRIVATE "1003l".
Definition ENABLE_SGR_MOUSE : jsstr := CSI_PRIVATE "1006h".
Definition DISABLE_SGR_MOUSE : jsstr := CSI_PRIVATE "1006l".
Definition ENABLE_BRACKETED_PASTE : jsstr := CSI_PRIVATE "2004h".
Definition ENABLE_FOCUS_EVENTS : jsstr := CSI_PRIVATE "1004h".
Definition PUSH_KITTY_KEYBOARD (flags : Z) : jsstr :=
  27 :: lit "[>" ++ decimal flags ++ lit "u".
Definition DEFAULT_KITTY_FLAGS : Z := bor (bor 1 2) 8.

(** The module's state and the terminal it drives: [terminalState], the
    terminal, the capability cache of detection.ts and the options
    ([kittyKeyboard], [quirks]) of the shared decoder of reader.ts, once
    [configureDecoder] has built it. *)
Record World : Type := mkWorld {
  terminalState : TerminalModeState;
  term : Terminal.Terminal;
  cachedCapabilities : option DetectedCapabilities;
  sharedDecoder : option (option bool * option bool)
}.

Definition setState (w : World) (s : TerminalModeState) : World :=
  mkWorld s (term w) (cachedCapabilities w) (sharedDecoder w).
Definition setTerm (w : World) (t : Terminal.Terminal) : World :=
  mkWorld (terminalState w) t (cachedCapabilities w) (sharedDecoder w).
Definition termWrite (w : World) (data : jsstr) : World :=
  setTerm w (Terminal.write (term w) data).
Definition termFlush (w : World) : World :=
  setTerm w (Terminal.flush (term w)).

Definition setMouse (s : TerminalModeState) (on : bool)
  (p : option MouseProtocol) : TerminalModeState :=
  mkTerminalModeState (rawMode s) on p (kittyKeyboard s) (bracketedPaste s)
    (focusEvents s) (enabledFeatures s) (supportedFeatures s).
Definition setRawMode (s : TerminalModeState) (on : bool)
  : TerminalModeState :=
  mkTerminalModeState on (mouseTracking s) (mouseProtocol s)
    (kittyKeyboard s) (bracketedPaste s) (focusEvents s) (enabledFeatures s)
    (supportedFeatures s).
Definition setKittyKeyboard (s : TerminalModeState) (on : bool)
  : TerminalModeState :=
  mkTerminalModeState (rawMode s) (mouseTracking s) (mouseProtocol s) on
    (bracketedPaste s) (focusEvents s) (enabledFeatures s)
    (supportedFeatures s).
Definition setBracketedPaste (s : TerminalModeState) (on : bool)
  : TerminalModeState :=
  mkTerminalModeState (rawMode s) (mouseTracking s) (mouseProtocol s)
    (kittyKeyboard s) on (focusEvents s) (enabledFeatures s)
    (supportedFeatures s).
Definition setFocusEvents (s : TerminalModeState) (on : bool)
  : TerminalModeState :=
  mkTerminalModeState (rawMode s) (mouseTracking s) (mouseProtocol s)
    (kittyKeyboard s) (bracketedPaste s) on (enabledFeatures s)
    (supportedFeatures s).
Definition setEnabledFeatures (s : TerminalModeState)
  (m : gmap jsstr bool) : TerminalModeState :=
  mkTerminalModeState (rawMode s) (mouseTracking s) (mouseProtocol s)
    (kittyKeyboard s) (bracketedPaste s) (focusEvents s) m
    (supportedFeatures s).
Definition setSupportedFeatures (s : TerminalModeState)
  (m : gmap jsstr jsstr) : TerminalModeState :=
  mkTerminalModeState (rawMode s) (mouseTracking s) (mouseProtocol s)
    (kittyKeyboard s) (bracketedPaste s) (focusEvents s)
    (enabledFeatures s) m.

Definition disableMouse (w : World) : World :=
  if negb (mouseTracking (terminalState w)) then w
  else
    let w1 := termWrite w DISABLE_MOUSE_ALL in
    let w2 := termWrite w1 DISABLE_MOUSE_BUTTONS in
    let w3 := termWrite w2 DISABLE_MOUSE_TRACKING in
    let w4 :=
      if bool_decide (mouseProtocol (terminalState w3) = Some sgr)
      then termWrite w3 DISABLE_SGR_MOUSE else w3 in
    let w5 := termFlush w4 in
    setState w5 (setMouse (terminalState w5) false None).

Definition enableMouse (w : World) (protocol : MouseProtocol)
  (allMotion : bool) : World :=
  let w0 := if mouseTracking (terminalState w) then disableMouse w else w in
  let w1 := termWrite w0 ENABLE_MOUSE_TRACKING in
  let w2 := termWrite w1 ENABLE_MOUSE_BUTTONS in
  let w3 := if allMotion then termWrite w2 ENABLE_MOUSE_ALL else w2 in
  let w4 :=
    if bool_decide (protocol = sgr) then termWrite w3 ENABLE_SGR_MOUSE
    else w3 in
  let w5 := termFlush w4 in
  setState w5 (setMouse (terminalState w5) true (Some protocol)).

Definition pushKittyKeyboard (w : World) (flags : option Z) : World :=
  let w1 :=
    termFlush
      (termWrite w (PUSH_KITTY_KEYBOARD (default DEFAULT_KITTY_FLAGS flags))) in
  setState w1 (setKittyKeyboard (terminalState w1) true).

Definition enableBracketedPaste (w : World) : World :=
  if bracketedPaste (terminalState w) then w
  else
    let w1 := termFlush (termWrite w ENABLE_BRACKETED_PASTE) in
    setState w1 (setBracketedPaste (terminalState w1) true).

Definition enableFocusEvents (w : World) : World :=
  if focusEvents (terminalState w) then w
  else
    let w1 := termFlush (termWrite w ENABLE_FOCUS_EVENTS) in
    setState w1 (setFocusEvents (terminalState w1) true).

(** [enableFeature(term, feature, options)]; [None] is the exception
    [Unknown feature] of the [default] case. *)
Definition enableFeature (w : World) (feature : jsstr)
  (options : option FeatureOptions) : option World :=
  match featureOfName feature with
  | Some MouseTracking =>
      Some
        (enableMouse w (default sgr (options ≫= protocol))
           (negb (bool_decide (options ≫= allMotion = Some false))))
  | Some KittyKeyboard => Some (pushKittyKeyboard w (options ≫= flags))
  | Some BracketedPaste => Some (enableBracketedPaste w)
  | Some FocusEvents => Some (enableFocusEvents w)
  | Some Clipboard => Some w
  | None => None
  end.

(** [interface InputMode], as [getInputStatus] fills it. *)
Module InputMode.
Record t : Type := mk {
  raw : bool;
  echo : bool;
  mouse : bool;
  mouseProtocol : option MouseProtocol;
  kittyKeyboard : bool;
  bracketedPaste : bool;
  focusEvents : bool;
  enabledFeatures : gmap jsstr bool;
  supportedFeatures : gmap jsstr jsstr
}.
End InputMode.

Definition getInputStatus (s : TerminalModeState) : InputMode.t :=
  InputMode.mk (rawMode s) (negb (rawMode s)) (mouseTracking s)
    (mouseProtocol s) (kittyKeyboard s) (bracketedPaste s) (focusEvents s)
    (enabledFeatures s) (supportedFeatures s).

(** [enableRawMode(term)]; [exitCode] is the exit code of
    [stty raw -echo], [None] the exception. *)
Definition enableRawMode (w : World) (exitCode : Z) : option World :=
  if rawMode (terminalState w) then Some w
  else if negb (exitCode =? 0) then None
  else Some (setState w (setRawMode (terminalState w) true)).

(** The promise [initializeInput] returns: resolved with the input mode, or
    rejected with an [Error] of the given message. *)
Inductive InitResult : Type :=
| Resolved (mode : InputMode.t)
| Rejected (message : jsstr).

Definition notSupportedMessage (feature : jsstr) (t : TerminalType) : jsstr :=
  lit "Required feature '" ++ feature
  ++ lit "' is not supported by terminal '" ++ terminalTypeName t ++ lit "'".

Definition enableFailedMessage (feature : jsstr) : jsstr :=
  lit "Failed to enable required feature '" ++ feature
  ++ lit "': Error: Unknown feature: " ++ feature.

Definition RAW_MODE_MESSAGE : jsstr := lit "Failed to enable raw mode".

Definition failureMessage (errors : list jsstr) : jsstr :=
  lit "Input initialization failed:" ++ [10] ++ join [10] errors.

(** [isFeatureSupported(capabilities, feature, minLevel)] for the key
    [feature] of the configuration. *)
Definition isSupported (capabilities : DetectedCapabilities)
  (feature : jsstr) (featureConfig : FeatureConfig) : bool :=
  levelSupported (features capabilities <$> featureOfName feature)
    (default Partial (options featureConfig ≫= minLevel)).

(** One turn of the loop over [Object.entries(config.features)]. *)
Definition processFeature (capabilities : DetectedCapabilities)
  (acc : World * list jsstr) (entry : jsstr * FeatureConfig)
  : World * list jsstr :=
  let '(w, errors) := acc in
  let '(feature, featureConfig) := entry in
  if negb (enabled featureConfig) then acc
  else if negb (isSupported capabilities feature featureConfig) then
    if required featureConfig
    then
      (w, errors
          ++ [notSupportedMessage feature (terminalType capabilities)])
    else acc
  else
    match enableFeature w feature (options featureConfig) with
    | Some w1 =>
        let s := terminalState w1 in
        (setState w1
           (setEnabledFeatures s (<[feature := true]> (enabledFeatures s))),
         errors)
    | None =>
        if required featureConfig
        then (w, errors ++ [enableFailedMessage feature])
        else acc
    end.

(** What does not come from the program: the environment, the outcome of
    the keyboard query and the exit code of [stty raw -echo]. *)
Record Oracle : Type := mkOracle {
  env : Env;
  query : QueryOutcome;
  sttyRawExit : Z
}.

Section Initialize.

Variable toLowerCase : jsstr -> jsstr.

(** The capabilities [initializeInput] works with, the cache and the
    terminal after the detection. *)
Definition obtainCapabilities (w : World) (config : InputConfig)
  (o : Oracle)
  : DetectedCapabilities * option DetectedCapabilities * Terminal.Terminal :=
  match detectedCapabilities config with
  | Some c => (c, cachedCapabilities w, term w)
  | None =>
      detectCapabilities toLowerCase (cachedCapabilities w) (term w) false
        true (query o) (env o)
  end.

Definition storeSupported (capabilities : DetectedCapabilities)
  (config : InputConfig) (m : gmap jsstr jsstr) : gmap jsstr jsstr :=
  let m1 :=
    foldl
      (fun m f => <[featureName f := levelName (features capabilities f)]> m)
      m allFeatures in
  match overrides config with
  | Some l =>
      foldl
        (fun m (e : jsstr * bool) =>
           <[e.1 := levelName (if e.2 then Full else NoSupport)]> m)
        m1 l
  | None => m1
  end.

Definition configureDecoder (w : World) (config : InputConfig) : World :=
  let kittyKeyboard :=
    enabledFeatures (terminalState w) !! featureName KittyKeyboard in
  let quirks := negb (bool_decide (quirks config = Some false)) in
  mkWorld (terminalState w) (term w) (cachedCapabilities w)
    (Some (kittyKeyboard, Some quirks)).

Definition initializeInput (w : World) (config : InputConfig) (o : Oracle)
  : InitResult * World :=
  let '(capabilities, cache1, term1) := obtainCapabilities w config o in
  let w1 := mkWorld (terminalState w) term1 cache1 (sharedDecoder w) in
  let s1 := terminalState w1 in
  let w2 :=
    setState w1
      (setSupportedFeatures s1
         (storeSupported capabilities config (supportedFeatures s1))) in
  match enableRawMode w2 (sttyRawExit o) with
  | None => (Rejected RAW_MODE_MESSAGE, w2)
  | Some w3 =>
      let '(w4, errors) :=
        foldl (processFeature capabilities) (w3, []) (configFeatures config)
      in
      if (0 <? length errors)%nat then (Rejected (failureMessage errors), w4)
      else
        let w5 := configureDecoder w4 config in
        (Resolved (getInputStatus (terminalState w5)), w5)
  end.

End Initialize.

End Enable.

(** ** terminal.ts: the [Terminal] class *)
Module TerminalClass.
Import Js Cell Ansi Diff.

Definition ESC_HIDE_CURSOR : jsstr := 27 :: lit "[?25l".
Definition ESC_SHOW_CURSOR : jsstr := 27 :: lit "[?25h".
Definition ESC_CLEAR_SCREEN : jsstr := 27 :: lit "[2J".
Definition ESC_HOME : jsstr := 27 :: lit "[H".
Definition ESC_BEGIN_SYNC : jsstr := 27 :: lit "[?2026h".
Definition ESC_END_SYNC : jsstr := 27 :: lit "[?2026l".

(** [interface TerminalOptions]. *)
Record TerminalOptions : Type := mkTerminalOptions {
  optHighWaterMark : option Z;
  optSyncUpdate : option bool
}.

(** The [columns] and [rows] of a stream ([undefined] when the stream is
    not a terminal). *)
Record Stdout : Type := mkStdout {
  columns : option Z;
  stdoutRows : option Z
}.

(** [globalThis.Bun?.stdout] and [process.stdout] when the size is read. *)
Record Dimensions : Type := mkDimensions {
  bunStdout : option Stdout;
  processStdout : Stdout
}.

(** The truthiness of a [number | undefined] and [n || fallback]. *)
Definition numTruthy (n : option Z) : bool :=
  match n with
  | Some v => negb (v =? 0)
  | None => false
  end.

Definition orElse (n : option Z) (fallback : Z) : Z :=
  match n with
  | Some v => if v =? 0 then fallback else v
  | None => fallback
  end.

(** The fields of the class the methods below use; [buffer] is the
    [OutputBuffer]. *)
Record Terminal : Type := mkTerminal {
  buffer : Terminal.Terminal;
  diffEngine : DiffEngine;
  _rows : Z;
  _cols : Z;
  syncUpdate : bool
}.

Definition setBuffer (t : Terminal) (b : Terminal.Terminal)
  : Terminal :=
  mkTerminal b (diffEngine t) (_rows t) (_cols t) (syncUpdate t).
Definition setDiffEngine (t : Terminal) (e : DiffEngine) : Terminal :=
  mkTerminal (buffer t) e (_rows t) (_cols t) (syncUpdate t).

(** [updateDimensions]: the new [_rows] and [_cols]. *)
Definition updateDimensions (d : Dimensions) : Z * Z :=
  match bunStdout d with
  | Some b =>
      if numTruthy (columns b) && numTruthy (stdoutRows b)
      then (orElse (stdoutRows b) 24, orElse (columns b) 80)
      else (orElse (stdoutRows (processStdout d)) 24,
            orElse (columns (processStdout d)) 80)
  | None =>
      (orElse (stdoutRows (processStdout d)) 24,
       orElse (columns (processStdout d)) 80)
  end.

(** The constructor; [None] when the allocation of the engine throws. *)
Definition newTerminal (options : TerminalOptions) (d : Dimensions)
  : option Terminal :=
  let highWaterMark :=
    match optHighWaterMark options with Some h => h | None => 64 * 1024 end in
  let sync :=
    match optSyncUpdate options with Some s => s | None => true end in
  let '(r, c) := updateDimensions d in
  e ← newDiffEngine r c;
  Some (mkTerminal (Terminal.mkTerminal [] highWaterMark [])
                   e r c sync).

Definition write (t : Terminal) (data : jsstr) : Terminal :=
  setBuffer t (Terminal.write (buffer t) data).

Definition flush (t : Terminal) : Terminal :=
  setBuffer t (Terminal.flush (buffer t)).

Definition hideCursor (t : Terminal) : Terminal := write t ESC_HIDE_CURSOR.
Definition showCursor (t : Terminal) : Terminal := write t ESC_SHOW_CURSOR.

Definition moveTo (t : Terminal) (row col : Z) : Terminal :=
  write t (Ansi.moveTo (row + 1) (col + 1)).

Definition putChar (t : Terminal) (row col : Z) (char : jsstr)
  (attrs : option Attributes) : Terminal :=
  setDiffEngine t (setCellWithAttrs (diffEngine t) row col char attrs).

(** [for (const char of text)]: the string iterator yields code points, a
    surrogate pair as one string of two units. *)
Fixpoint stringChars (s : jsstr) : list jsstr :=
  match s with
  | [] => []
  | h :: t =>
      match t with
      | l :: t' =>
          if ((55296 <=? h) && (h <=? 56319)) && ((56320 <=? l) && (l <=? 57343))
          then [h; l] :: stringChars t'
          else [h] :: stringChars t
      | [] => [[h]]
      end
  end.

(** The loop of [putText]. *)
Fixpoint putText_loop (chars : list jsstr) (t : Terminal) (row currentCol : Z)
  (attrs : option Attributes) : Terminal :=
  match chars with
  | [] => t
  | char :: rest =>
      if (currentCol <? 0) || (_cols t <=? currentCol)
         || (row <? 0) || (_rows t <=? row)
      then putText_loop rest t row (currentCol + 1) attrs
      else
        putText_loop rest
          (setDiffEngine t
             (setCellWithAttrs (diffEngine t) row currentCol char attrs))
          row (currentCol + 1) attrs
  end.

Definition putText (t : Terminal) (row col : Z) (text : jsstr)
  (attrs : option Attributes) : Terminal :=
  putText_loop (stringChars text) t row col attrs.

Definition clear (t : Terminal) : Terminal :=
  setDiffEngine t (markAllDirty (Diff.clear (diffEngine t))).

Definition clearScreen (t : Terminal) : Terminal :=
  flush (write t (ESC_CLEAR_SCREEN ++ ESC_HOME)).

(** [render]: how the call ends, the terminal and the colour cache after
    it. An exception of [computeDiff] leaves the method before anything is
    written. *)
Definition render (t : Terminal) (cache : ColorCache)
  : outcome unit * Terminal * ColorCache :=
  let begin := if syncUpdate t then ESC_BEGIN_SYNC else [] in
  match computeDiff (diffEngine t) cache with
  | (Ok diff, e, cache) =>
      let output :=
        (begin ++ diff) ++ (if syncUpdate t then ESC_END_SYNC else []) in
      let t := setDiffEngine t e in
      (Ok tt,
       match output with
       | [] => t
       | _ => flush (write t output)
       end,
       cache)
  | (Throws, e, cache) => (Throws, setDiffEngine t e, cache)
  | (Diverges, e, cache) => (Diverges, setDiffEngine t e, cache)
  | (OutOfFuel, e, cache) => (OutOfFuel, setDiffEngine t e, cache)
  end.

(** [interface ResizeEvent]. *)
Record ResizeEvent : Type := mkResizeEvent {
  eventRows : Z;
  eventCols : Z
}.

(** [handleResize]: the terminal after the call and the event emitted, if
    any; [None] when [resize] throws (the clearing sequences are then
    written, the dimensions updated, the engine left as it was). *)
Definition handleResize (t : Terminal) (d : Dimensions)
  : Terminal * option (option ResizeEvent) :=
  let '(r, c) := updateDimensions d in
  let t1 := mkTerminal (buffer t) (diffEngine t) r c (syncUpdate t) in
  if negb (_rows t =? r) || negb (_cols t =? c) then
    let t2 :=
      flush (write (write (write t1 ESC_CLEAR_SCREEN) ESC_HOME)
                   (27 :: lit "[J")) in
    match resize (diffEngine t2) r c with
    | Some e => (setDiffEngine t2 e, Some (Some (mkResizeEvent r c)))
    | None => (t2, None)
    end
  else (t1, Some None).

End TerminalClass.

(** ** input/enable.ts: switching the modes off *)
Module Disable.
Import Js Features Detection Enable.

Definition DISABLE_BRACKETED_PASTE : jsstr := CSI_PRIVATE "2004l".
Definition DISABLE_FOCUS_EVENTS : jsstr := CSI_PRIVATE "1004l".
Definition POP_KITTY_KEYBOARD : jsstr := 27 :: lit "[<u".
Definition ESC_SHOW_CURSOR : jsstr := 27 :: lit "[?25h".

Definition popKittyKeyboard (w : World) : World :=
  if negb (kittyKeyboard (terminalState w)) then w
  else
    let w1 := termFlush (termWrite w POP_KITTY_KEYBOARD) in
    setState w1 (setKittyKeyboard (terminalState w1) false).

Definition disableBracketedPaste (w : World) : World :=
  if negb (bracketedPaste (terminalState w)) then w
  else
    let w1 := termFlush (termWrite w DISABLE_BRACKETED_PASTE) in
    setState w1 (setBracketedPaste (terminalState w1) false).

Definition disableFocusEvents (w : World) : World :=
  if negb (focusEvents (terminalState w)) then w
  else
    let w1 := termFlush (termWrite w DISABLE_FOCUS_EVENTS) in
    setState w1 (setFocusEvents (terminalState w1) false).

(** [disableRawMode(term)]; [exitCode] is the exit code of
    [stty sane echo icanon iexten], [None] the exception. *)
Definition disableRawMode (w : World) (exitCode : Z) : option World :=
  if negb (rawMode (terminalState w)) then Some w
  else if negb (exitCode =? 0) then None
  else Some (setState w (setRawMode (terminalState w) false)).

(** [resetTerminal(term)]: whether the promise is resolved ([true]) or
    rejected by [disableRawMode], and the world after the call. *)
Definition resetTerminal (w : World) (sttySaneExit : Z) : bool * World :=
  let w1 := disableFocusEvents w in
  let w2 := disableBracketedPaste w1 in
  let w3 := popKittyKeyboard w2 in
  let w4 := disableMouse w3 in
  let w5 :=
    setState w4
      (setSupportedFeatures (setEnabledFeatures (terminalState w4) ∅) ∅) in
  match disableRawMode w5 sttySaneExit with
  | None => (false, w5)
  | Some w6 => (true, termFlush (termWrite w6 ESC_SHOW_CURSOR))
  end.

(** [interface InputOptions] of the legacy API; an absent boolean is
    [false]. *)
Record InputOptions : Type := mkInputOptions {
  optMouse : bool;
  optMouseProtocol : option MouseProtocol;
  optKittyKeyboard : bool;
  optBracketedPaste : bool;
  optFocusEvents : bool
}.

(** The [InputConfig] the legacy branch of [configureInput] builds. *)
Definition legacyConfig (options : InputOptions) : InputConfig :=
  mkInputConfig
    ((if optMouse options
      then [(featureName MouseTracking,
             mkFeatureConfig true false
               (Some (mkFeatureOptions None
                        (Some (default sgr (optMouseProtocol options)))
                        (Some true) None)))]
      else [])
     ++ (if optKittyKeyboard options
         then [(featureName KittyKeyboard, mkFeatureConfig true false None)]
         else [])
     ++ (if optBracketedPaste options
         then [(featureName BracketedPaste, mkFeatureConfig true false None)]
         else [])
     ++ (if optFocusEvents options
         then [(featureName FocusEvents, mkFeatureConfig true false None)]
         else []))
    None None (Some true).

Section Configure.

Variable toLowerCase : jsstr -> jsstr.

(** [configureInput(term, options)]: with an [InputConfig] the result of
    [initializeInput]; with the legacy options the promise is resolved with
    [undefined] ([None]) once [initializeInput] has resolved. *)
Inductive ConfigureResult : Type :=
| Configured (mode : option InputMode.t)
| Failed (message : jsstr).

Definition configureInput (w : World) (options : InputOptions + InputConfig)
  (o : Oracle) : ConfigureResult * World :=
  match options with
  | inr config =>
      match initializeInput toLowerCase w config o with
      | (Resolved mode, w1) => (Configured (Some mode), w1)
      | (Rejected message, w1) => (Failed message, w1)
      end
  | inl legacy =>
      match initializeInput toLowerCase w (legacyConfig legacy) o with
      | (Resolved _, w1) => (Configured None, w1)
      | (Rejected message, w1) => (Failed message, w1)
      end
  end.

End Configure.

End Disable.

(** ** input/key-utils.ts: shifted characters and the comparison of keys *)
Module KeyUtils.
Import Js Events.

(** [SHIFTED_CHARS] (US layout), by code unit: the symbols above the
    digits 1 to 0, then underscore, plus, the braces, the bar, the colon,
    the double quote, the angle brackets, the question mark and the tilde,
    each with the character of the same key without shift. *)
Definition SHIFTED_CHARS : list (Z * Z) :=
  [(33, 49); (64, 50); (35, 51); (36, 52); (37, 53); (94, 54); (38, 55);
   (42, 56); (40, 57); (41, 48); (95, 45); (43, 61); (123, 91); (125, 93);
   (124, 92); (58, 59); (34, 39); (60, 44); (62, 46); (63, 47); (126, 96)].

(** [SHIFTED_CHARS[char]] for a string of one code unit. *)
Fixpoint lookupShifted (table : list (Z * Z)) (c : Z) : option Z :=
  match table with
  | [] => None
  | (k, v) :: rest => if k =? c then Some v else lookupShifted rest c
  end.

Definition isShiftedChar (char : jsstr) : bool :=
  match char with
  | [c] =>
      if (65 <=? c) && (c <=? 90) then true
      else if bool_decide (is_Some (lookupShifted SHIFTED_CHARS c)) then true
      else false
  | _ => false
  end.

(** [getUnshiftedChar]; [None] is [null]. *)
Definition getUnshiftedChar (char : jsstr) : option jsstr :=
  match char with
  | [c] =>
      if (65 <=? c) && (c <=? 90) then Some [c + 32]
      else
        match lookupShifted SHIFTED_CHARS c with
        | Some v => Some [v]
        | None => None
        end
  | _ => None
  end.

Definition withShift (m : KeyModifiers) : KeyModifiers :=
  mkMods (ctrl m) (alt m) true (meta m).

Definition normalizeShiftModifier (event : InputEvent) : InputEvent :=
  match event with
  | KeyEvent (Char char) modifiers isRepeat kind raw =>
      if shift modifiers || bool_decide (char = []) then event
      else if isShiftedChar char
      then KeyEvent (Char char) (withShift modifiers) isRepeat kind raw
      else event
  | _ => event
  end.

Definition normalizeToBaseKey (event : InputEvent) : InputEvent :=
  match event with
  | KeyEvent (Char char) modifiers isRepeat kind raw =>
      if bool_decide (char = []) then event
      else
        match getUnshiftedChar char with
        | Some (u :: unshifted) =>
            if negb (shift modifiers)
            then KeyEvent (Char (u :: unshifted)) (withShift modifiers)
                          isRepeat kind raw
            else event
        | _ => event
        end
  | _ => event
  end.

(** The string literals of [KeyCode]. *)
Definition keyName (k : NamedKey) : jsstr :=
  match k with
  | KeyUp => lit "Up" | KeyDown => lit "Down" | KeyLeft => lit "Left"
  | KeyRight => lit "Right" | KeyHome => lit "Home" | KeyEnd => lit "End"
  | KeyPageUp => lit "PageUp" | KeyPageDown => lit "PageDown"
  | KeyBackspace => lit "Backspace" | KeyDelete => lit "Delete"
  | KeyInsert => lit "Insert" | KeyEnter => lit "Enter" | KeyTab => lit "Tab"
  | KeyEscape => lit "Escape"
  | KeyF1 => lit "F1" | KeyF2 => lit "F2" | KeyF3 => lit "F3"
  | KeyF4 => lit "F4" | KeyF5 => lit "F5" | KeyF6 => lit "F6"
  | KeyF7 => lit "F7" | KeyF8 => lit "F8" | KeyF9 => lit "F9"
  | KeyF10 => lit "F10" | KeyF11 => lit "F11" | KeyF12 => lit "F12"
  | KeyPrintScreen => lit "PrintScreen" | KeyPause => lit "Pause"
  | KeyMenu => lit "Menu"
  | KeyShift => lit "Shift" | KeyControl => lit "Control"
  | KeyAlt => lit "Alt" | KeyMeta => lit "Meta"
  | KeyCapsLock => lit "CapsLock" | KeyNumLock => lit "NumLock"
  | KeyScrollLock => lit "ScrollLock"
  end.

(** [typeof code === 'object' ? code.char : code]. *)
Definition codeString (code : KeyCode) : jsstr :=
  match code with
  | Named k => keyName k
  | Char char => char
  end.

(** [areKeysEqual(a, b)] on two key events; [None] for an argument that is
    no key event, which the type of the function excludes. *)
Definition areKeysEqual (a b : InputEvent) : option bool :=
  match normalizeShiftModifier a, normalizeShiftModifier b with
  | KeyEvent codeA modsA _ _ _, KeyEvent codeB modsB _ _ _ =>
      if negb (bool_decide (codeString codeA = codeString codeB))
      then Some false
      else
        Some (eqb (ctrl modsA) (ctrl modsB) && eqb (alt modsA) (alt modsB)
              && eqb (shift modsA) (shift modsB)
              && eqb (meta modsA) (meta modsB))
  | _, _ => None
  end.

End KeyUtils.

(* ===================================================================== *)
(** * Part II: the properties                                             *)
(* ===================================================================== *)

Import Js Cell.

(** ** Finite checks by evaluation *)

Definition Zrange (lo : Z) (n : nat) : list Z :=
  map (fun i => lo + Z.of_nat i) (seq 0 n).

Lemma forallb_Zrange (P : Z -> bool) (lo : Z) (n : nat) :
  forallb P (Zrange lo n) = true ->
  forall z, lo <= z < lo + Z.of_nat n -> P z = true.
Proof.
  intros H z Hz. rewrite forallb_forall in H. apply H.
  unfold Zrange. apply in_map_iff. exists (Z.to_nat (z - lo)). split.
  - lia.
  - apply in_seq. lia.
Qed.

(** ** The colour codec (cell.ts) *)
Section ColourCodec.

(** The three 8-bit channels of a 24-bit value, as [encodeColor] and
    [colorToAnsi] extract them. *)
Definition channels (rgb : Z) : Z * Z * Z :=
  (band (shr rgb 16) 255, band (shr rgb 8) 255, band rgb 255).

(** Bit replication of a 5-bit and of a 6-bit channel. *)
Definition rep5 (x : Z) : Z := 8 * x + x / 4.
Definition rep6 (x : Z) : Z := 4 * x + x / 16.

(** The channels of the colour string that [decodeColor] returns. *)
Definition decodedChannels (encoded : Z) : option (Z * Z * Z) :=
  match decodeColor encoded with
  | Some (Hex s) => channels <$> matchHexColor s
  | _ => None
  end.

(** The round trip of one truecolor string: the decoded colour is again a
    string the expression accepts, and every channel is within the given
    tolerance of the original. *)
Definition roundtrip_within (tr tg tb : Z) (s : jsstr) : Prop :=
  exists rgb r g b r' g' b',
    matchHexColor s = Some rgb /\
    channels rgb = (r, g, b) /\
    decodedChannels (encodeColor (Some (Hex s))) = Some (r', g', b') /\
    Z.abs (r - r') <= tr /\ Z.abs (g - g') <= tg /\ Z.abs (b - b') <= tb.

Lemma band_255_range (x : Z) : 0 <= band x 255 < 256.
Proof.
  unfold band. change (toInt32 255) with (Z.ones 8).
  rewrite Z.land_ones by lia. apply Z.mod_pos_bound. lia.
Qed.

Lemma channels_range rgb r g b :
  channels rgb = (r, g, b) ->
  0 <= r < 256 /\ 0 <= g < 256 /\ 0 <= b < 256.
Proof.
  unfold channels. intros [= <- <- <-].
  repeat split; apply band_255_range.
Qed.

Lemma pack_red (r : Z) :
  0 <= r < 256 -> shl (band (shr r 3) 31) 11 = 2048 * (r / 8).
Proof.
  intros H.
  assert (C : forallb (fun r => shl (band (shr r 3) 31) 11 =? 2048 * (r / 8))
                (Zrange 0 256) = true) by (vm_compute; reflexivity).
  apply Z.eqb_eq, (forallb_Zrange _ _ _ C). lia.
Qed.

Lemma pack_green (g : Z) :
  0 <= g < 256 -> shl (band (shr g 2) 63) 5 = 32 * (g / 4).
Proof.
  intros H.
  assert (C : forallb (fun g => shl (band (shr g 2) 63) 5 =? 32 * (g / 4))
                (Zrange 0 256) = true) by (vm_compute; reflexivity).
  apply Z.eqb_eq, (forallb_Zrange _ _ _ C). lia.
Qed.

Lemma pack_blue (b : Z) :
  0 <= b < 256 -> band (shr b 3) 31 = b / 8.
Proof.
  intros H.
  assert (C : forallb (fun b => band (shr b 3) 31 =? b / 8)
                (Zrange 0 256) = true) by (vm_compute; reflexivity).
  apply Z.eqb_eq, (forallb_Zrange _ _ _ C). lia.
Qed.

Lemma packRgbColor_565 (r g b : Z) :
  0 <= r < 256 -> 0 <= g < 256 -> 0 <= b < 256 ->
  packRgbColor r g b = 257 + 2048 * (r / 8) + 32 * (g / 4) + b / 8.
Proof.
  intros Hr Hg Hb. unfold packRgbColor, COLOR_RGB_START.
  rewrite pack_red, pack_green, pack_blue by assumption. reflexivity.
Qed.

(** Every 5-6-5 value decodes to the string of its bit-replicated channels
    (65536 cases, by evaluation). *)
Definition decode565_ok (r5 g6 b5 : Z) : bool :=
  bool_decide (decodedChannels (257 + 2048 * r5 + 32 * g6 + b5)
               = Some (rep5 r5, rep6 g6, rep5 b5)).

Lemma decode565_all :
  forallb (fun r5 =>
    forallb (fun g6 =>
      forallb (fun b5 => decode565_ok r5 g6 b5) (Zrange 0 32))
      (Zrange 0 64))
    (Zrange 0 32) = true.
Proof. vm_compute. reflexivity. Qed.

Lemma decode565 (r5 g6 b5 : Z) :
  0 <= r5 < 32 -> 0 <= g6 < 64 -> 0 <= b5 < 32 ->
  decodedChannels (257 + 2048 * r5 + 32 * g6 + b5)
  = Some (rep5 r5, rep6 g6, rep5 b5).
Proof.
  intros Hr Hg Hb.
  pose proof (forallb_Zrange _ _ _ decode565_all r5 ltac:(lia)) as H1.
  cbv beta in H1.
  pose proof (forallb_Zrange _ _ _ H1 g6 ltac:(lia)) as H2.
  cbv beta in H2.
  pose proof (forallb_Zrange _ _ _ H2 b5 ltac:(lia)) as H3.
  cbv beta in H3. unfold decode565_ok in H3.
  apply bool_decide_eq_true in H3. exact H3.
Qed.

Lemma matchHexColor_truthy s rgb :
  matchHexColor s = Some rgb -> truthy (Some (Hex s)) = true.
Proof. destruct s; [discriminate | reflexivity]. Qed.

Lemma encodeColor_hex s rgb r g b :
  matchHexColor s = Some rgb -> channels rgb = (r, g, b) ->
  encodeColor (Some (Hex s)) = 257 + 2048 * (r / 8) + 32 * (g / 4) + b / 8.
Proof.
  intros Hm Hc. unfold encodeColor.
  rewrite (matchHexColor_truthy _ _ Hm), Hm. cbn [negb].
  pose proof (channels_range _ _ _ _ Hc) as (Hr & Hg & Hb).
  unfold channels in Hc. injection Hc as <- <- <-.
  apply packRgbColor_565; assumption.
Qed.

Lemma rep5_close (r : Z) : 0 <= r < 256 -> Z.abs (r - rep5 (r / 8)) <= 7.
Proof. intros H. unfold rep5. Z.div_mod_to_equations. lia. Qed.

Lemma rep6_close (g : Z) : 0 <= g < 256 -> Z.abs (g - rep6 (g / 4)) <= 3.
Proof. intros H. unfold rep6. Z.div_mod_to_equations. lia. Qed.

Lemma palette_roundtrip_all :
  forallb (fun p => bool_decide
             (decodeColor (encodeColor (Some (Palette p))) = Some (Palette p)))
          (Zrange 1 255) = true.
Proof. vm_compute. reflexivity. Qed.

(** C4, as the code has it. A truecolor string [#RRGGBB] decodes, after
    encoding, to a colour string whose red and blue channels are within 7 and
    whose green channel is within 3 of the original (5-6-5 quantisation with
    bit replication); [#ffffff] and [#000000] come back exactly; the palette
    indices 1..255 and the default colour come back exactly. *)
Theorem colour_roundtrip (s : jsstr) (rgb p : Z) :
  matchHexColor s = Some rgb ->
  1 <= p <= 255 ->
  roundtrip_within 7 3 7 s /\
  decodeColor (encodeColor (Some (Hex (lit "#ffffff")))) = Some (Hex (lit "#ffffff")) /\
  decodeColor (encodeColor (Some (Hex (lit "#000000")))) = Some (Hex (lit "#000000")) /\
  decodeColor (encodeColor (Some (Palette p))) = Some (Palette p) /\
  decodeColor (encodeColor None) = None.
Proof.
  intros Hm Hp. split; [| split; [| split; [| split]]].
  - destruct (channels rgb) as [[r g] b] eqn:Hc.
    pose proof (channels_range _ _ _ _ Hc) as (Hr & Hg & Hb).
    exists rgb, r, g, b, (rep5 (r / 8)), (rep6 (g / 4)), (rep5 (b / 8)).
    split; [exact Hm |]. split; [exact Hc |]. split.
    + rewrite (encodeColor_hex _ _ _ _ _ Hm Hc).
      apply decode565; Z.div_mod_to_equations; lia.
    + auto using rep5_close, rep6_close.
  - vm_compute. reflexivity.
  - vm_compute. reflexivity.
  - pose proof (forallb_Zrange _ _ _ palette_roundtrip_all p ltac:(lia)) as H.
    cbv beta in H. apply bool_decide_eq_true in H. exact H.
  - reflexivity.
Qed.

Lemma colour_roundtrip_witness :
  roundtrip_within 7 3 7 (lit "#12c4f7") /\
  decodeColor (encodeColor (Some (Palette 200))) = Some (Palette 200).
Proof.
  pose proof (colour_roundtrip (lit "#12c4f7") 1230071 200
                ltac:(vm_compute; reflexivity) ltac:(lia)) as H.
  split; [apply H | apply H].
Defined.

(** C4 as stated fails: the red channel of [#070000] comes back as 0, which
    is 7 away from the original, not within 4. *)
Lemma colour_roundtrip_counterexample :
  ~ roundtrip_within 4 4 4 (lit "#070000").
Proof.
  intros (rgb & r & g & b & r' & g' & b' & Hm & Hc & Hd & Hr & _).
  vm_compute in Hm. injection Hm as <-.
  vm_compute in Hc. injection Hc as <- <- <-.
  vm_compute in Hd. injection Hd as <- <- <-.
  lia.
Qed.

(** Palette index 0 is falsy for [encodeColor] and is stored as the default
    colour. *)
Example palette_zero_is_default :
  encodeColor (Some (Palette 0)) = 0 /\
  decodeColor (encodeColor (Some (Palette 0))) = None.
Proof. split; reflexivity. Qed.

End ColourCodec.

(** ** The diff engine (diff.ts) *)
Import Ansi Diff.

(** *** The colours a cell can hold *)
Section CellColours.






End CellColours.

(** *** Decimal strings *)
Section Decimal.








End Decimal.

(** *** The colour-sequence cache is transparent *)
Section ColorCacheFacts.

(** A colour as the truthiness tests see it. *)
Definition norm (c : option Color) : option Color :=
  if truthy c then c else None.


Lemma colorParts_norm c b : colorParts (norm c) b = colorParts c b.
Proof.
  unfold norm. destruct (truthy c) eqn:E; [reflexivity |].
  destruct c as [col |]; [| reflexivity]. unfold colorParts. rewrite E.
  reflexivity.
Qed.
















End ColorCacheFacts.

Section CacheTransparency.


(** The state change with an empty cache: the sequence that is built. *)
Definition stateChange (e : DiffEngine) (a : Z) (f b : option Color) : jsstr :=
  (generateStateChange e [] a f b).1.1.






End CacheTransparency.

(** *** Background reset (C2) *)
Section BackgroundReset.






End BackgroundReset.

(** *** Front and back buffer after a frame (C1) *)
Section Reconcile.

(** The shape every engine has: the buffers hold [rows * cols] cells, there
    is one dirty flag per row. *)
Definition wf (e : DiffEngine) : Prop :=
  0 <= rows e /\ size e = rows e * cols e /\ 0 <= size e /\
  length (prev e) = Z.to_nat (size e) /\
  length (curr e) = Z.to_nat (size e) /\
  length (dirty e) = Z.to_nat (rows e).

(** Row [row] of the front buffer equals row [row] of the back buffer. *)
Definition synced (e : DiffEngine) (row : Z) : Prop :=
  forall col, 0 <= col < cols e ->
    readCell (prev e) (row * cols e + col) = readCell (curr e) (row * cols e + col).

(** The invariant of the engine: a row that is not flagged dirty is in sync. *)
Definition inv (e : DiffEngine) : Prop :=
  wf e /\
  forall row, 0 <= row < rows e -> isDirty e row = false -> synced e row.

(** Every cell of the back buffer holds a code point that
    [String.fromCodePoint] accepts. *)
Definition validChars (e : DiffEngine) : Prop :=
  Forall (fun c => is_Some (unpackChar c)) (curr e).

Lemma readCell_Some l i c :
  readCell l i = Some c <-> 0 <= i /\ l !! Z.to_nat i = Some c.
Proof.
  unfold readCell. destruct (i <? 0) eqn:E.
  - apply Z.ltb_lt in E. split; [discriminate | lia].
  - apply Z.ltb_ge in E. tauto.
Qed.

Lemma readCell_in_range (l : list Cell) i :
  0 <= i < Z.of_nat (length l) -> is_Some (readCell l i).
Proof.
  intros H. unfold readCell.
  destruct (i <? 0) eqn:E; [apply Z.ltb_lt in E; lia |].
  apply lookup_lt_is_Some. lia.
Qed.

Lemma readCell_insert (l : list Cell) i j x :
  0 <= j ->
  readCell (<[Z.to_nat j := x]> l) i
  = if bool_decide (i = j /\ j < Z.of_nat (length l)) then Some x
    else readCell l i.
Proof.
  intros Hj. unfold readCell. destruct (i <? 0) eqn:E.
  - apply Z.ltb_lt in E. rewrite bool_decide_eq_false_2 by lia. reflexivity.
  - apply Z.ltb_ge in E. case_bool_decide as D.
    + destruct D as [-> D]. apply list_lookup_insert_eq. lia.
    + destruct (decide (i = j)) as [-> | Hne].
      * rewrite list_insert_ge by lia. reflexivity.
      * apply list_lookup_insert_ne. lia.
Qed.

Lemma index_in_range e row col :
  wf e -> 0 <= row < rows e -> 0 <= col < cols e ->
  0 <= row * cols e + col < size e.
Proof. intros (_ & -> & _) Hr Hc. nia. Qed.

Lemma index_in_row cols0 row col :
  0 <= col < cols0 ->
  row * cols0 <= row * cols0 + col < row * cols0 + cols0.
Proof. lia. Qed.

Lemma index_other_row cols0 row row' col :
  0 <= col < cols0 -> row <> row' ->
  ~ (row * cols0 <= row' * cols0 + col < row * cols0 + cols0).
Proof. intros Hc Hne. nia. Qed.

Lemma cellEquals_eq (a b : Cell) : cellEquals a b = true <-> a = b.
Proof.
  unfold cellEquals. destruct a as [a0 a1], b as [b0 b1]. cbn.
  rewrite andb_true_iff, !Z.eqb_eq. split; [intros [-> ->]; reflexivity |].
  intros [= -> ->]. tauto.
Qed.

(** **** The run finder *)

Lemma findRunEnd_loop_bounds fuel : forall e offset runEnd a f b,
  runEnd <= findRunEnd_loop fuel e offset runEnd a f b /\
  (findRunEnd_loop fuel e offset runEnd a f b <= cols e
   \/ findRunEnd_loop fuel e offset runEnd a f b = runEnd).
Proof.
  induction fuel as [| fuel IH]; intros e offset runEnd a f b; cbn.
  - lia.
  - destruct (runEnd <? cols e) eqn:E; [| lia].
    apply Z.ltb_lt in E.
    destruct (readCell _ _) as [c |]; [| lia].
    destruct (_ || _); [lia |].
    specialize (IH e offset (runEnd + 1) a f b). lia.
Qed.

Lemma findRunEnd_bounds e row startCol startCell :
  0 <= startCol < cols e ->
  readCell (curr e) (row * cols e + startCol) = Some startCell ->
  startCol <
    findRunEnd e row startCol (unpackAttr startCell) (unpackFgColor startCell)
               (unpackBgColor startCell) <= cols e.
Proof.
  intros Hc Hcell. unfold findRunEnd.
  destruct (Z.to_nat (cols e - startCol)) as [| fuel] eqn:F; [lia |].
  cbn [findRunEnd_loop].
  rewrite (proj2 (Z.ltb_lt _ _)) by lia. rewrite Hcell.
  rewrite Z.eqb_refl, !bool_decide_eq_true_2 by reflexivity.
  cbn [negb orb].
  pose proof (findRunEnd_loop_bounds fuel e (row * cols e) (startCol + 1)
                (unpackAttr startCell) (unpackFgColor startCell)
                (unpackBgColor startCell)).
  lia.
Qed.

(** **** The loops of [outputRun] *)

Lemma colRange_In startCol endCol c :
  In c (colRange startCol endCol) <-> startCol <= c < endCol.
Proof.
  unfold colRange. rewrite in_map_iff. split.
  - intros (i & <- & Hi). apply in_seq in Hi. lia.
  - intros H. exists (Z.to_nat (c - startCol)). split; [lia |].
    apply in_seq. lia.
Qed.

Lemma copyRun_length currBuf columns : forall prevBuf offset,
  length (copyRun currBuf prevBuf offset columns) = length prevBuf.
Proof.
  induction columns as [| i rest IH]; intros prevBuf offset; cbn;
    [reflexivity |].
  destruct (readCell currBuf (offset + i)); rewrite IH;
    [apply length_insert | reflexivity].
Qed.

Lemma copyRun_outside currBuf columns : forall prevBuf offset j,
  (forall i, In i columns -> offset + i <> j) ->
  readCell (copyRun currBuf prevBuf offset columns) j = readCell prevBuf j.
Proof.
  induction columns as [| i rest IH]; intros prevBuf offset j H; cbn;
    [reflexivity |].
  destruct (readCell currBuf (offset + i)) as [c |] eqn:E.
  - rewrite IH by (intros; apply H; right; assumption).
    apply readCell_Some in E as [E0 _].
    rewrite readCell_insert by exact E0.
    rewrite bool_decide_eq_false_2; [reflexivity |].
    intros [-> _]. apply (H i); [left |]; reflexivity.
  - apply IH. intros; apply H; right; assumption.
Qed.

Lemma copyRun_inside currBuf columns : forall prevBuf offset i,
  length prevBuf = length currBuf ->
  In i columns ->
  readCell (copyRun currBuf prevBuf offset columns) (offset + i)
  = readCell currBuf (offset + i).
Proof.
  induction columns as [| k rest IH]; intros prevBuf offset i L Hin;
    [destruct Hin |].
  cbn [copyRun].
  destruct (in_dec Z.eq_dec i rest) as [Hr | Hr].
  - destruct (readCell currBuf (offset + k));
      apply IH; try assumption. rewrite length_insert. exact L.
  - destruct Hin as [-> | Hin]; [| contradiction].
    destruct (readCell currBuf (offset + i)) as [c |] eqn:E.
    + rewrite copyRun_outside
        by (intros i' Hi' ?; assert (i' = i) as -> by lia; contradiction).
      pose proof E as E'. apply readCell_Some in E' as [E0 E1].
      rewrite readCell_insert by exact E0.
      rewrite bool_decide_eq_true_2; [reflexivity |].
      split; [reflexivity |]. apply lookup_lt_Some in E1. lia.
    + rewrite copyRun_outside
        by (intros i' Hi' ?; assert (i' = i) as -> by lia; contradiction).
      unfold readCell in *. destruct (offset + i <? 0); [reflexivity |].
      apply lookup_ge_None. apply lookup_ge_None in E. lia.
Qed.

Lemma runChars_None buffer offset columns :
  runChars buffer offset columns = None ->
  exists cell, In cell buffer /\ unpackChar cell = None.
Proof.
  induction columns as [| i rest IH]; cbn; [discriminate |].
  destruct (readCell buffer (offset + i)) as [cell |] eqn:E; [| exact IH].
  destruct (unpackChar cell) as [ch |] eqn:U.
  - cbn. destruct (runChars buffer offset rest); [discriminate |].
    intros _. apply IH. reflexivity.
  - intros _. exists cell. split; [| exact U].
    apply readCell_Some in E as [_ E].
    apply list_elem_of_In, list_elem_of_lookup. eauto.
Qed.

Lemma runHasChanges_false e row startCol endCol :
  runHasChanges e row startCol endCol = false ->
  forall c, startCol <= c < endCol ->
    readCell (prev e) (row * cols e + c) = readCell (curr e) (row * cols e + c).
Proof.
  unfold runHasChanges. cbv zeta. intros H c Hc.
  assert (In c (colRange startCol endCol)) as Hin by (apply colRange_In; lia).
  apply not_true_iff_false in H.
  destruct (readCell (prev e) _) as [p |] eqn:P;
    destruct (readCell (curr e) _) as [q |] eqn:Q.
  2-4: exfalso; apply H; apply existsb_exists; exists c; split;
         [exact Hin | cbv beta; rewrite P, ?Q; reflexivity].
  destruct (cellEquals p q) eqn:CE.
  - apply cellEquals_eq in CE. congruence.
  - exfalso; apply H; apply existsb_exists; exists c; split;
      [exact Hin | cbv beta; rewrite P, Q, CE; reflexivity].
Qed.

(** **** One row *)

(** What [rowLoop] may change: the tracker, and the front buffer inside the
    row it works on. *)
Definition frameStep (e e' : DiffEngine) (row : Z) : Prop :=
  rows e' = rows e /\ cols e' = cols e /\ size e' = size e /\
  curr e' = curr e /\ dirty e' = dirty e /\
  length (prev e') = length (prev e) /\
  forall i, ~ (row * cols e <= i < row * cols e + cols e) ->
    readCell (prev e') i = readCell (prev e) i.

Lemma frameStep_refl e row : frameStep e e row.
Proof. repeat split; reflexivity. Qed.

Lemma frameStep_trans e1 e2 e3 row :
  frameStep e1 e2 row -> frameStep e2 e3 row -> frameStep e1 e3 row.
Proof.
  intros (R1 & C1 & S1 & U1 & D1 & L1 & P1) (R2 & C2 & S2 & U2 & D2 & L2 & P2).
  repeat split; try congruence.
  intros i Hi. rewrite P2, P1; [reflexivity | exact Hi |].
  rewrite C1. exact Hi.
Qed.

Lemma frameStep_wf e e' row : frameStep e e' row -> wf e -> wf e'.
Proof.
  intros (R & C & S & U & D & L & _) (W1 & W2 & W3 & W4 & W5 & W6).
  unfold wf. rewrite R, C, S, U, D, L. repeat split; assumption.
Qed.

Lemma generateStateChange_buffers e cache a f b :
  let e' := (generateStateChange e cache a f b).1.2 in
  rows e' = rows e /\ cols e' = cols e /\ size e' = size e /\
  prev e' = prev e /\ curr e' = curr e /\ dirty e' = dirty e.
Proof.
  unfold generateStateChange.
  destruct (negb _); [cbn; repeat split; reflexivity |].
  destruct (_ && _ && _); [cbn; repeat split; reflexivity |].
  destruct (_ && _); [| cbn; repeat split; reflexivity].
  destruct (getCachedColorSequence _ _ _ _). cbn. repeat split; reflexivity.
Qed.

Definition rowPost (o : outcome Frame) (e e' : DiffEngine) (row : Z) : Prop :=
  match o with
  | Ok _ => synced e' row
  | Throws => ~ validChars e
  | Diverges | OutOfFuel => False
  end.

Lemma rowLoop_spec fuel : forall e cache f row col,
  wf e -> 0 <= row < rows e -> 0 <= col ->
  (Z.to_nat (cols e - col) <= fuel)%nat ->
  (forall c, 0 <= c < col -> c < cols e ->
     readCell (prev e) (row * cols e + c) = readCell (curr e) (row * cols e + c)) ->
  frameStep e (rowLoop fuel e cache f row col).1.2 row /\
  rowPost (rowLoop fuel e cache f row col).1.1 e
          (rowLoop fuel e cache f row col).1.2 row.
Proof.
  induction fuel as [| fuel IH]; intros e cache f row col W Hrow Hcol Hfuel Hs;
    cbn [rowLoop]; destruct (col <? cols e) eqn:E;
    try (apply Z.ltb_lt in E; lia);
    try (apply Z.ltb_ge in E; cbn [fst snd]; split; [apply frameStep_refl |];
         intros c Hc; apply Hs; lia).
  apply Z.ltb_lt in E.
  pose proof (index_in_range e row col W Hrow ltac:(lia)) as Hidx.
  destruct W as (W1 & W2 & W3 & W4 & W5 & W6).
  destruct (readCell_in_range (curr e) (row * cols e + col) ltac:(lia))
    as [startCell Hcell].
  pose proof (conj W1 (conj W2 (conj W3 (conj W4 (conj W5 W6))))) as W.
  rewrite Hcell.
  pose proof (findRunEnd_bounds e row col startCell ltac:(lia) Hcell) as Hrun.
  set (runEnd := findRunEnd _ _ _ _ _ _) in *.
  destruct (runHasChanges e row col runEnd) eqn:HC.
  - unfold outputRun.
    match goal with
    | |- context [generateStateChange e cache ?a ?fg ?bg] =>
        pose proof (generateStateChange_buffers e cache a fg bg) as G;
        destruct (generateStateChange e cache a fg bg) as [[sc e1] c1]
    end.
    cbn [fst snd] in G. destruct G as (G1 & G2 & G3 & G4 & G5 & G6).
    destruct (runChars (curr e1) _ _) as [chars |] eqn:RC.
    + set (e2 := setPrev e1 _).
      assert (F12 : frameStep e e2 row).
      { unfold e2. repeat split; cbn; try assumption.
        - rewrite copyRun_length. congruence.
        - intros i Hi. rewrite copyRun_outside; [congruence |].
          intros c Hc. apply colRange_In in Hc. rewrite ?G2. lia. }
      specialize (IH e2 c1
                    (mkFrame
                       (output
                          (if negb (lastRow f =? row) || negb (lastCol f =? col)
                           then mkFrame (output f ++ moveTo (row + 1) (col + 1))
                                        row col
                           else f) ++ sc ++ chars)
                       (lastRow
                          (if negb (lastRow f =? row) || negb (lastCol f =? col)
                           then mkFrame (output f ++ moveTo (row + 1) (col + 1))
                                        row col
                           else f)) runEnd)
                    row runEnd).
      destruct IH as [IH1 IH2].
      * eapply frameStep_wf; eassumption.
      * unfold e2. cbn. lia.
      * lia.
      * unfold e2. cbn. rewrite ?G2. lia.
      * intros c Hc Hc'. unfold e2. cbn [prev curr cols setPrev].
        rewrite ?G2, ?G5, ?G4.
        destruct (Z_lt_dec c col) as [Hlt | Hge].
        -- rewrite copyRun_outside; [apply Hs; lia |].
           intros i Hi. apply colRange_In in Hi. lia.
        -- apply copyRun_inside; [lia | apply colRange_In; lia].
      * split.
        -- eapply frameStep_trans; eassumption.
        -- destruct (rowLoop fuel e2 c1 _ row runEnd) as [[o e3] c3].
           cbn [fst snd] in *. destruct o; cbn in *; try assumption.
           unfold validChars in *. unfold e2 in IH2. cbn in IH2.
           rewrite G5 in IH2. exact IH2.
    + cbn [fst snd]. split.
      * repeat split; try assumption; try congruence.
      * cbn. intros V. apply runChars_None in RC as (cell & Hin & U).
        unfold validChars in V. rewrite Forall_forall in V.
        rewrite G5 in Hin. apply list_elem_of_In in Hin.
        specialize (V cell Hin). rewrite U in V. destruct V; discriminate.
  - apply IH; try assumption; try lia.
    intros c Hc Hc'. destruct (Z_lt_dec c col) as [Hlt | Hge].
    + apply Hs; lia.
    + eapply runHasChanges_false; [exact HC | lia].
Qed.

(** **** All rows *)

Lemma isDirty_insert e row row' v :
  0 <= row ->
  isDirty (setDirty e (<[Z.to_nat row := v]> (dirty e))) row'
  = if bool_decide (row' = row /\ row < Z.of_nat (length (dirty e)))
    then v =? 1 else isDirty e row'.
Proof.
  intros Hr. unfold isDirty. cbn [dirty setDirty].
  destruct (row' <? 0) eqn:E.
  - apply Z.ltb_lt in E. rewrite bool_decide_eq_false_2 by lia. reflexivity.
  - apply Z.ltb_ge in E. case_bool_decide as D.
    + destruct D as [-> D]. rewrite list_lookup_insert_eq by lia. reflexivity.
    + destruct (decide (row' = row)) as [-> | Hne].
      * rewrite list_insert_ge by lia. reflexivity.
      * rewrite list_lookup_insert_ne by lia. reflexivity.
Qed.

Lemma synced_frame e e' row row' :
  frameStep e e' row -> row' <> row -> synced e row' -> synced e' row'.
Proof.
  intros (R & C & S & U & D & L & P) Hne Hs col Hc.
  rewrite C in *. rewrite U, P; [apply Hs; exact Hc |].
  apply index_other_row; [exact Hc | congruence].
Qed.

Definition rowsPost (o : outcome Frame) (rowList : list Z)
  (e e' : DiffEngine) : Prop :=
  match o with
  | Ok _ =>
      inv e' /\ rows e' = rows e /\ cols e' = cols e /\ curr e' = curr e /\
      (forall row, isDirty e row = false -> isDirty e' row = false) /\
      (forall row, In row rowList -> isDirty e' row = false)
  | Throws => inv e' /\ ~ validChars e
  | Diverges | OutOfFuel => False
  end.

Lemma rowsLoop_spec rowList : forall e cache f,
  inv e -> (forall row, In row rowList -> 0 <= row < rows e) ->
  rowsPost (rowsLoop rowList e cache f).1.1 rowList e
           (rowsLoop rowList e cache f).1.2.
Proof.
  induction rowList as [| row rest IH]; intros e cache f I Hrows;
    cbn [rowsLoop].
  - cbn. repeat split; try apply I; auto. intros row [].
  - assert (Hrow : 0 <= row < rows e) by (apply Hrows; left; reflexivity).
    destruct (isDirty e row) eqn:Drow; cbn [negb].
    + destruct I as [W S].
      pose proof (rowLoop_spec (Z.to_nat (cols e)) e cache f row 0 W Hrow
                    ltac:(lia) ltac:(lia) ltac:(intros; lia)) as [F P].
      destruct (rowLoop _ e cache f row 0) as [[o e1] c1].
      cbn [fst snd] in F, P.
      pose proof F as (R1 & C1 & S1 & U1 & D1 & L1 & P1).
      assert (I1 : inv e1).
      { split; [eapply frameStep_wf; eassumption |].
        intros row' Hr' Hd'. rewrite R1 in Hr'.
        assert (isDirty e row' = false) as Hd
            by (unfold isDirty in *; rewrite <- D1; exact Hd').
        eapply synced_frame; [exact F | congruence | apply S; assumption]. }
      destruct o as [f1 | | |]; cbn [rowPost] in P;
        try contradiction; cbn [fst snd].
      * set (e2 := setDirty e1 _).
        assert (Dlen : row < Z.of_nat (length (dirty e1))).
        { destruct W as (_ & _ & _ & _ & _ & W6). rewrite D1, W6. lia. }
        assert (I2 : inv e2).
        { split; [destruct I1 as [(A1 & A2 & A3 & A4 & A5 & A6) _];
                  unfold e2, wf; cbn; rewrite length_insert;
                  repeat split; assumption |].
          intros row' Hr' Hd'. unfold e2 in Hd'.
          rewrite isDirty_insert in Hd' by lia.
          case_bool_decide as B.
          - destruct B as [-> _]. exact P.
          - apply I1; assumption. }
        specialize (IH e2 c1 f1 I2).
        destruct (rowsLoop rest e2 c1 f1) as [[o' e3] c3]. cbn [fst snd] in *.
        assert (Hrest : forall r, In r rest -> 0 <= r < rows e2).
        { intros r Hr. unfold e2. cbn. rewrite R1. apply Hrows. right. exact Hr. }
        specialize (IH Hrest).
        assert (Dpres : forall r, isDirty e r = false -> isDirty e2 r = false).
        { intros r Hr. unfold e2. rewrite isDirty_insert by lia.
          case_bool_decide; [reflexivity |].
          unfold isDirty in *. rewrite D1. exact Hr. }
        destruct o' as [f' | | |]; cbn [rowsPost] in *; try contradiction.
        -- destruct IH as (J1 & J2 & J3 & J4 & J5 & J6).
           unfold e2 in J2, J3, J4. cbn in J2, J3, J4.
           repeat split; try apply J1; try congruence.
           ++ intros r Hr. apply J5, Dpres, Hr.
           ++ intros r [<- | Hr]; [| apply J6, Hr].
              apply J5. unfold e2. rewrite isDirty_insert by lia.
              rewrite bool_decide_eq_true_2 by (split; [reflexivity | lia]).
              reflexivity.
        -- destruct IH as [J1 J2]. split; [exact J1 |].
           unfold validChars in *. unfold e2 in J2. cbn in J2.
           rewrite U1 in J2. exact J2.
      * split; assumption.
    + specialize (IH e cache f I ltac:(intros; apply Hrows; right; assumption)).
      destruct (rowsLoop rest e cache f) as [[o' e3] c3]. cbn [fst snd] in *.
      destruct o' as [f' | | |]; cbn [rowsPost] in *; try assumption.
      destruct IH as (J1 & J2 & J3 & J4 & J5 & J6).
      repeat split; try apply J1; try assumption.
      intros r [<- | Hr]; [apply J5, Drow | apply J6, Hr].
Qed.

(** **** The whole frame *)

Definition diffPost (o : outcome jsstr) (e e' : DiffEngine) : Prop :=
  match o with
  | Ok _ =>
      inv e' /\ rows e' = rows e /\ cols e' = cols e /\ curr e' = curr e /\
      (forall row, 0 <= row < rows e' -> isDirty e' row = false)
  | Throws => inv e' /\ ~ validChars e
  | Diverges | OutOfFuel => False
  end.

Lemma computeDiff_spec e cache :
  inv e -> diffPost (computeDiff e cache).1.1 e (computeDiff e cache).1.2.
Proof.
  intros I. unfold computeDiff.
  set (e0 := setAnsi e _ _).
  assert (I0 : inv e0) by exact I.
  pose proof (rowsLoop_spec (colRange 0 (rows e0)) e0 cache
                (mkFrame [] (-1) (-1)) I0
                ltac:(intros row Hr; apply colRange_In in Hr; exact Hr)) as P.
  destruct (rowsLoop _ e0 cache _) as [[o e1] c1]. cbn [fst snd] in P.
  destruct o as [f | | |]; cbn [rowsPost] in P; cbn [fst snd diffPost];
    try assumption.
  destruct P as (J1 & J2 & J3 & J4 & J5 & J6).
  repeat split; try apply J1; try assumption.
  intros row Hr. apply J6, colRange_In. rewrite J2 in Hr. exact Hr.
Qed.

Lemma synced_all e :
  wf e -> (forall row, 0 <= row < rows e -> synced e row) -> prev e = curr e.
Proof.
  intros (W1 & W2 & W3 & W4 & W5 & W6) S. apply list_eq. intros i.
  destruct (decide (i < length (prev e))%nat) as [Hi | Hi].
  - assert (0 < cols e) as Hc by nia.
    assert (Hrow : 0 <= Z.of_nat i / cols e < rows e).
    { split; [apply Z.div_pos; lia |].
      apply Z.div_lt_upper_bound; [lia |]. nia. }
    specialize (S _ Hrow (Z.of_nat i mod cols e)
                  (Z.mod_pos_bound _ _ Hc)).
    replace (Z.of_nat i / cols e * cols e + Z.of_nat i mod cols e)
      with (Z.of_nat i) in S
      by (rewrite (Z.div_mod (Z.of_nat i) (cols e)) at 1 by lia; lia).
    unfold readCell in S.
    rewrite (proj2 (Z.ltb_ge _ _)) in S by lia.
    rewrite Nat2Z.id in S. exact S.
  - rewrite !lookup_ge_None_2 by lia. reflexivity.
Qed.

Lemma rowsLoop_clean rowList : forall e cache f,
  (forall row, In row rowList -> isDirty e row = false) ->
  rowsLoop rowList e cache f = (Ok f, e, cache).
Proof.
  induction rowList as [| row rest IH]; intros e cache f H; cbn [rowsLoop];
    [reflexivity |].
  rewrite (H row) by (left; reflexivity). cbn [negb].
  apply IH. intros r Hr. apply H. right. exact Hr.
Qed.

Lemma computeDiff_clean e cache :
  (forall row, 0 <= row < rows e -> isDirty e row = false) ->
  (computeDiff e cache).1.1 = Ok [].
Proof.
  intros H. unfold computeDiff.
  rewrite rowsLoop_clean; [reflexivity |].
  intros row Hr. apply colRange_In in Hr. apply (H row). exact Hr.
Qed.

(** **** The operations keep the invariant *)

Lemma inv_new r c e : newDiffEngine r c = Some e -> inv e.
Proof.
  unfold newDiffEngine, allocCells, allocDirty. intros H.
  destruct ((0 <=? r * c) && (r * c <? 4294967296)) eqn:A; [| discriminate].
  destruct (0 <=? r) eqn:B; [| discriminate].
  cbn in H. injection H as <-.
  apply andb_true_iff in A as [A1 A2].
  apply Z.leb_le in A1, B.
  split.
  - unfold wf. cbn. rewrite !length_replicate. repeat split; lia.
  - intros row Hr _ col Hc. reflexivity.
Qed.

Lemma inv_markDirty e row : inv e -> inv (markDirty e row).
Proof.
  intros [W S]. unfold markDirty.
  destruct ((0 <=? row) && (row <? rows e)) eqn:E; [| split; assumption].
  apply andb_true_iff in E as [E1 E2]. apply Z.leb_le in E1.
  split.
  - destruct W as (W1 & W2 & W3 & W4 & W5 & W6).
    unfold wf. cbn. rewrite length_insert. repeat split; assumption.
  - intros row' Hr' Hd. rewrite isDirty_insert in Hd by exact E1.
    case_bool_decide; [discriminate |]. apply S; assumption.
Qed.

Lemma isDirty_markAllDirty e row :
  0 <= row < Z.of_nat (length (dirty e)) -> isDirty (markAllDirty e) row = true.
Proof.
  intros H. unfold isDirty, markAllDirty. cbn.
  rewrite (proj2 (Z.ltb_ge _ _)) by lia.
  rewrite lookup_replicate_2 by lia. reflexivity.
Qed.

Lemma inv_markAllDirty e : wf e -> inv (markAllDirty e).
Proof.
  intros W. split.
  - destruct W as (W1 & W2 & W3 & W4 & W5 & W6).
    unfold wf. cbn. rewrite length_replicate. repeat split; assumption.
  - intros row Hr Hd. cbn in Hr.
    rewrite isDirty_markAllDirty in Hd; [discriminate |].
    destruct W as (_ & _ & _ & _ & _ & W6). rewrite W6. lia.
Qed.

Lemma inv_storeCell e row col cell :
  inv e -> outOfRange e row col = false -> inv (storeCell e row col cell).
Proof.
  intros I O. unfold storeCell.
  destruct (match readCell _ _ with Some _ => _ | None => _ end);
    [exact I |].
  unfold outOfRange in O. apply orb_false_iff in O as [O O4].
  apply orb_false_iff in O as [O O3]. apply orb_false_iff in O as [O1 O2].
  apply Z.ltb_ge in O1, O3. apply Z.leb_gt in O2, O4.
  destruct I as [W S].
  unfold markDirty. cbn [rows setCurr].
  rewrite (proj2 (andb_true_iff _ _))
    by (split; [apply Z.leb_le | apply Z.ltb_lt]; lia).
  split.
  - destruct W as (W1 & W2 & W3 & W4 & W5 & W6).
    unfold wf. cbn. rewrite !length_insert. repeat split; assumption.
  - intros row' Hr' Hd. cbn [rows setDirty setCurr] in Hr'.
    change (isDirty (setDirty (setCurr e (<[Z.to_nat (row * cols e + col):=cell]> (curr e)))
                       (<[Z.to_nat row:=1]> (dirty e))) row')
      with (isDirty (setDirty e (<[Z.to_nat row:=1]> (dirty e))) row') in Hd.
    rewrite isDirty_insert in Hd by lia.
    case_bool_decide as B; [discriminate |].
    assert (row' <> row) as Hne.
    { intros ->. apply B. split; [reflexivity |].
      destruct W as (_ & _ & _ & _ & _ & W6). cbn [dirty setCurr].
      rewrite W6. lia. }
    intros c Hc. cbn [prev curr cols setDirty setCurr] in *.
    rewrite readCell_insert by nia.
    rewrite bool_decide_eq_false_2 by (intros [? _]; nia).
    apply S; assumption.
Qed.

Lemma inv_setCellWithAttrs e row col char attrs :
  inv e -> inv (setCellWithAttrs e row col char attrs).
Proof.
  intros I. unfold setCellWithAttrs.
  destruct (outOfRange e row col) eqn:O; [exact I |].
  apply inv_storeCell; assumption.
Qed.

Lemma inv_setCell e row col cell : inv e -> inv (setCell e row col cell).
Proof.
  intros I. unfold setCell.
  destruct (outOfRange e row col) eqn:O; [exact I |].
  apply inv_storeCell; assumption.
Qed.

Lemma inv_clear e : inv e -> inv (clear e).
Proof.
  intros [W _]. unfold clear. apply inv_markAllDirty.
  destruct W as (W1 & W2 & W3 & W4 & W5 & W6).
  unfold wf, fillFirst. cbn.
  rewrite length_app, length_replicate, length_drop.
  repeat split; try assumption. lia.
Qed.

Lemma inv_resize e r c e' : inv e -> resize e r c = Some e' -> inv e'.
Proof.
  intros I. unfold resize, allocCells, allocDirty.
  destruct ((r =? rows e) && (c =? cols e)); [intros [= <-]; exact I |].
  destruct ((0 <=? r * c) && (r * c <? 4294967296)) eqn:A; [| discriminate].
  destruct (0 <=? r) eqn:B; [| discriminate].
  cbn. intros [= <-].
  apply andb_true_iff in A as [A1 A2]. apply Z.leb_le in A1, B.
  split.
  - unfold wf. cbn. rewrite !length_replicate. repeat split; lia.
  - intros row Hr _ col Hc. reflexivity.
Qed.

(** The engines a host can hold: built by the constructor and changed by the
    public operations, [computeDiff] included (whether it returned or threw,
    with any colour cache). *)
Inductive reachable : DiffEngine -> Prop :=
| reach_new r c e : newDiffEngine r c = Some e -> reachable e
| reach_setCellWithAttrs e row col char attrs :
    reachable e -> reachable (setCellWithAttrs e row col char attrs)
| reach_setCell e row col cell :
    reachable e -> reachable (setCell e row col cell)
| reach_clear e : reachable e -> reachable (clear e)
| reach_markDirty e row : reachable e -> reachable (markDirty e row)
| reach_markAllDirty e : reachable e -> reachable (markAllDirty e)
| reach_resize e r c e' :
    reachable e -> resize e r c = Some e' -> reachable e'
| reach_computeDiff e cache :
    reachable e ->
    (computeDiff e cache).1.1 <> Diverges ->
    reachable (computeDiff e cache).1.2.

Lemma reachable_inv e : reachable e -> inv e.
Proof.
  induction 1 as [r c e H | e row col char attrs _ IH | e row col cell _ IH
                  | e _ IH | e row _ IH | e _ IH | e r c e' _ IH H
                  | e cache _ IH H].
  - eapply inv_new, H.
  - apply inv_setCellWithAttrs, IH.
  - apply inv_setCell, IH.
  - apply inv_clear, IH.
  - apply inv_markDirty, IH.
  - apply inv_markAllDirty, IH.
  - eapply inv_resize; eassumption.
  - pose proof (computeDiff_spec e cache IH) as P.
    destruct ((computeDiff e cache).1.1); cbn [diffPost] in P;
      try contradiction; apply P.
Qed.

(** C1. For every engine reachable through the public operations,
    [computeDiff] returns unless a back-buffer cell holds a code point above
    0x10FFFF (then [unpackChar] throws); it never hangs. When it returns, the
    front buffer equals the back buffer, the back buffer is untouched, no row
    is flagged dirty, and a second [computeDiff] right after it returns the
    empty string, whatever the colour cache holds. *)
Theorem computeDiff_reconciles (e : DiffEngine) (cache : ColorCache) :
  reachable e ->
  match (computeDiff e cache).1.1 with
  | Ok _ =>
      let e' := (computeDiff e cache).1.2 in
      prev e' = curr e' /\ curr e' = curr e /\
      (forall row, 0 <= row < rows e' -> isDirty e' row = false) /\
      forall cache2, (computeDiff e' cache2).1.1 = Ok []
  | Throws => ~ validChars e
  | Diverges | OutOfFuel => False
  end.
Proof.
  intros R. pose proof (computeDiff_spec e cache (reachable_inv e R)) as P.
  destruct ((computeDiff e cache).1.1) as [out | | |]; cbn [diffPost] in P;
    try contradiction; [| apply P].
  destruct P as (I & _ & _ & C & D). cbv zeta.
  repeat split; try assumption.
  - apply synced_all; [apply I |]. intros row Hr. apply I; [exact Hr |].
    apply D, Hr.
  - intros cache2. apply computeDiff_clean, D.
Qed.

(** A 2-by-2 engine after two writes, one of them in colour. *)
Definition engine2x2 : DiffEngine :=
  setCellWithAttrs
    (setCell (mkDiffEngine 2 2 4 (replicate 4 emptyCell) (replicate 4 emptyCell)
                           [0; 0] (mkAnsiState 0 None None) false)
             0 1 (packCell (lit "a") 1 None None))
    1 0 (lit "b")
    (Some (mkAttributes false false false false false false
                        (Some (Palette 3)) None)).

Lemma computeDiff_reconciles_witness :
  match (computeDiff engine2x2 []).1.1 with
  | Ok _ =>
      let e' := (computeDiff engine2x2 []).1.2 in
      prev e' = curr e' /\ curr e' = curr engine2x2 /\
      (forall row, 0 <= row < rows e' -> isDirty e' row = false) /\
      forall cache2, (computeDiff e' cache2).1.1 = Ok []
  | Throws => ~ validChars engine2x2
  | Diverges | OutOfFuel => False
  end.
Proof.
  apply computeDiff_reconciles.
  apply reach_setCellWithAttrs, reach_setCell, (reach_new 2 2). reflexivity.
Defined.

Example computeDiff_engine2x2 :
  (computeDiff engine2x2 []).1.1
  = Ok (moveTo 1 2 ++ ESC ++ lit "0;1m" ++ lit "a"
          ++ moveTo 2 1 ++ ESC ++ lit "0;38;5;3m" ++ lit "b" ++ ESC_RESET).
Proof. vm_compute. reflexivity. Qed.

End Reconcile.

(** *** The reset at the end of a frame (C3) *)
Section FinalReset.

(** **** Strings *)

Lemma startsWith_spec t : forall s,
  startsWith s t = true <-> exists post, s = t ++ post.
Proof.
  induction t as [| b t IH]; intros [| a s]; cbn [startsWith app].
  - split; [intros _; exists []; reflexivity | reflexivity].
  - split; [intros _; exists (a :: s); reflexivity | reflexivity].
  - split; [discriminate | intros [post H]; discriminate].
  - rewrite andb_true_iff, Z.eqb_eq, IH. split.
    + intros [-> [post ->]]. exists post. reflexivity.
    + intros [post [= -> ->]]. split; [reflexivity | exists post; reflexivity].
Qed.

Lemma endsWith_spec s t :
  endsWith s t = true <-> exists pre, s = pre ++ t.
Proof.
  unfold endsWith. rewrite startsWith_spec. split.
  - intros [post H]. exists (rev post).
    rewrite <- (rev_involutive s), H, rev_app_distr, rev_involutive.
    reflexivity.
  - intros [pre ->]. exists (rev pre). apply rev_app_distr.
Qed.








(** **** The shape of the emitted sequences *)















(** **** The characters of a run *)








(** **** The frame output *)









End FinalReset.

(** *** Palette index 0 (C10) *)
Section PaletteZero.


(** The codes of palette colour 0. *)
Definition fg0 : jsstr := lit "38;5;0".
Definition bg0 : jsstr := lit "48;5;0".

Example colorToAnsi_palette0 :
  colorToAnsi (Palette 0) false = ESC ++ fg0 ++ lit "m" /\
  colorToAnsi (Palette 0) true = ESC ++ bg0 ++ lit "m".
Proof. split; reflexivity. Qed.




Lemma attrLutEntry_sgr a : attrLutEntry a = sgrSequence (attrLutParts a).
Proof. reflexivity. Qed.







End PaletteZero.

(** *** The input decoder on Kitty key reports *)
Section KittyKeys.
Import Events Protocols Features Quirks Decoder.

Variable textDecode : list Z -> jsstr.
Variable base64ToUtf8 : jsstr -> jsstr.
Variable terminalType : TerminalType.

(** [new InputDecoder({ kittyKeyboard: true })]. *)
Definition kittyDecoder : Decoder := newInputDecoder (Some true) None.

(** [a], then [ESC [ 97 ; 1 : type u]. *)
Definition kittyReport (eventType : Z) : list Z :=
  [27; 91; 57; 55; 59; 49; 58; eventType; 117].
Definition keyA_press : list Z := 97 :: kittyReport 49.
Definition keyA_release : list Z := 97 :: kittyReport 51.

Definition run (d : Decoder) (data : list Z) : Completion :=
  feed textDecode base64ToUtf8 terminalType d data.

(** C5. A decoder with the Kitty protocol on suppresses the bare [a] and
    turns the report [ESC [ 97 ; 1 : 1 u] that follows into exactly one key
    event: character [a], kind press, not a repeat, no modifier; with the
    event type 3 the one event has kind release. Both feeds return normally
    and leave the decoder idle, whatever the terminal type. *)
Theorem kitty_press_release :
  events (decoderOf (run kittyDecoder [97])) = []
  /\ (exists d,
        run kittyDecoder keyA_press = Normal d
        /\ state d = idle
        /\ events d =
           [KeyEvent (Char (lit "a")) noMods false (Some press)
              (textDecode (kittyReport 49))])
  /\ (exists d,
        run kittyDecoder keyA_release = Normal d
        /\ state d = idle
        /\ events d =
           [KeyEvent (Char (lit "a")) noMods false (Some release)
              (textDecode (kittyReport 51))]).
Proof.
  split; [reflexivity |].
  split; eexists; (split; [vm_compute; reflexivity |]);
    split; reflexivity.
Qed.

(** *** The bounds on CSI parameters *)

Definition plainDecoder : Decoder := newInputDecoder None None.

(** [ESC [], sixteen separators, a space, the digit 1. *)
Definition seventeenParams : list Z :=
  [27; 91] ++ replicate 16 59 ++ [32; 49].

(** [ESC [ 16777216] and [ESC [ 1677721499]. *)
Definition bigParam : list Z := [27; 91; 49; 54; 55; 55; 55; 50; 49; 54].
Definition biggestParam : list Z :=
  [27; 91; 49; 54; 55; 55; 55; 50; 49; 52; 57; 57].

(** C6. The separator branch of [processCSIParam] stops at
    [MAX_CSI_PARAMS] entries, but a digit that follows an intermediate byte
    is pushed by [processCSIIntermediate] without that test: the list then
    holds 17 entries. A digit is accumulated whenever the current value is
    below [MAX_CSI_PARAM], so the stored value passes it: 16777216 after
    eight digits, 167772149 after nine (a tenth digit is dropped). No feed
    raises. *)
Theorem csi_bounds_exceeded :
  (exists d,
     run plainDecoder seventeenParams = Normal d
     /\ state d = csi_param
     /\ Z.of_nat (length (params d)) = MAX_CSI_PARAMS + 1)
  /\ (exists d,
        run plainDecoder bigParam = Normal d
        /\ params d = [MAX_CSI_PARAM + 1])
  /\ (exists d,
        run plainDecoder biggestParam = Normal d
        /\ params d = [167772149]
        /\ MAX_CSI_PARAM < 167772149).
Proof.
  split; [| split]; eexists; (split; [vm_compute; reflexivity |]).
  - split; reflexivity.
  - reflexivity.
  - split; [reflexivity | reflexivity].
Qed.

End KittyKeys.

(** *** Terminal detection *)
Section TerminalDetection.
Import Features Detection.

Variable toLowerCase : jsstr -> jsstr.

(** The last stage of the detection: the multiplexer, then the remote
    session. *)
Definition sessionType (isSSH isTmux : bool) : TerminalType :=
  if isTmux then Tmux else if isSSH then SSH else Unknown.

(** The level the detection leaves for a feature, given the level the
    matrix has for the terminal type. *)
Definition demoted (t : TerminalType) (isSSH isTmux : bool)
  (f : InputFeature) : SupportLevel :=
  let seed := TERMINAL_FEATURE_SUPPORT t f in
  let overSSH := isSSH && negb (bool_decide (t = SSH)) in
  let overTmux := isTmux && negb (bool_decide (t = Tmux)) in
  match seed, f with
  | Full, Clipboard => if overSSH then Partial else Full
  | Full, FocusEvents => if overSSH || overTmux then NoSupport else Full
  | Full, KittyKeyboard => if overTmux then NoSupport else Full
  | _, _ => seed
  end.

Lemma getBaseFeatureSupport_demoted t isSSH isTmux f :
  getBaseFeatureSupport t isSSH isTmux f = demoted t isSSH isTmux f.
Proof. destruct t, isSSH, isTmux, f; reflexivity. Qed.

(** [toLowerCase] restricted to strings of ASCII code units, where it
    agrees with the runtime's. *)
Definition asciiLower (s : jsstr) : jsstr :=
  map (fun c => if (65 <=? c) && (c <=? 90) then c + 32 else c) s.

(** Modelled from the specification's words: a chain of stages in which the
    first one that recognises the terminal decides, [TERM_PROGRAM] before
    [TERM], then the session. *)
Definition priorityChain (byProgram byTerm : jsstr -> option TerminalType)
  (env : Env) : TerminalType :=
  match byProgram (orEmpty (TERM_PROGRAM env)) with
  | Some t => t
  | None =>
      match byTerm (orEmpty (TERM env)) with
      | Some t => t
      | None =>
          sessionType (negb (bool_decide (orEmpty (SSH_CONNECTION env) = [])))
            (negb (bool_decide (orEmpty (TMUX env) = [])))
      end
  end.

Definition envOf (term program tmux : option string) : Env :=
  mkEnv (lit <$> term) (lit <$> program) None None (lit <$> tmux).

Definition detected (env : Env) : TerminalType :=
  type (detectTerminalType toLowerCase env).

(** The detection as rules. [programName] is the lower-cased [TERM_PROGRAM],
    [termName] is [TERM]; an unset variable counts as the empty string. *)
Definition programName (env : Env) : jsstr :=
  toLowerCase (orEmpty (TERM_PROGRAM env)).
Definition termName (env : Env) : jsstr := orEmpty (TERM env).
Definition inSSH (env : Env) : bool :=
  negb (bool_decide (orEmpty (SSH_CONNECTION env) = [])).
Definition inTmux (env : Env) : bool :=
  negb (bool_decide (orEmpty (TMUX env) = [])).

(** No exact match of [TERM_PROGRAM]. *)
Definition unnamed (env : Env) : Prop :=
  programName env <> lit "kitty" /\ programName env <> lit "ghostty"
  /\ programName env <> lit "iterm.app".

(** Zed's terminal, or an Alacritty [TERM]. *)
Definition alacrittyLike (env : Env) : bool :=
  includes (programName env) (lit "zed") || includes (termName env) (lit "alacritty").

Inductive Detects (env : Env) : TerminalType -> Prop :=
| program_kitty :
    programName env = lit "kitty" -> Detects env Kitty
| program_ghostty :
    programName env <> lit "kitty" -> programName env = lit "ghostty" ->
    Detects env Ghostty
| program_iterm :
    programName env <> lit "kitty" -> programName env <> lit "ghostty" ->
    programName env = lit "iterm.app" -> Detects env ITerm
| program_zed_or_term_alacritty :
    unnamed env -> alacrittyLike env = true -> Detects env ITerm
| term_kitty :
    unnamed env -> alacrittyLike env = false ->
    orEmpty (TERM_PROGRAM env) = [] ->
    includes (termName env) (lit "kitty") = true -> Detects env Kitty
| term_ghostty :
    unnamed env -> alacrittyLike env = false ->
    orEmpty (TERM_PROGRAM env) = [] ->
    includes (termName env) (lit "kitty") = false ->
    includes (termName env) (lit "ghostty") = true -> Detects env Ghostty
| by_session :
    unnamed env -> alacrittyLike env = false ->
    (orEmpty (TERM_PROGRAM env) <> []
     \/ (includes (termName env) (lit "kitty") = false
         /\ includes (termName env) (lit "ghostty") = false)) ->
    Detects env (sessionType (inSSH env) (inTmux env)).

Lemma nonempty_length (s : jsstr) :
  (0 <? length s)%nat = negb (bool_decide (s = [])).
Proof. destruct s; reflexivity. Qed.

Lemma detectTerminalType_session (env : Env) :
  ssh (detectTerminalType toLowerCase env) = inSSH env
  /\ tmux (detectTerminalType toLowerCase env) = inTmux env.
Proof.
  unfold detectTerminalType, inSSH, inTmux.
  rewrite !nonempty_length.
  repeat case_bool_decide; repeat (destruct (_ || _)); 
    repeat (destruct (includes _ _)); 
    repeat (destruct (negb _)); split; reflexivity.
Qed.

Lemma detects_detected (env : Env) : Detects env (detected env).
Proof.
  unfold detected, detectTerminalType.
  rewrite !nonempty_length.
  fold (inSSH env) (inTmux env) (termName env) (programName env).
  destruct (bool_decide (programName env = lit "kitty")) eqn:K;
    [apply bool_decide_eq_true in K; now apply program_kitty |].
  apply bool_decide_eq_false in K.
  destruct (bool_decide (programName env = lit "ghostty")) eqn:G;
    [apply bool_decide_eq_true in G; now apply program_ghostty |].
  apply bool_decide_eq_false in G.
  destruct (bool_decide (programName env = lit "iterm.app")) eqn:I;
    [apply bool_decide_eq_true in I; now apply program_iterm |].
  apply bool_decide_eq_false in I.
  assert (U : unnamed env) by (repeat split; assumption).
  fold (alacrittyLike env).
  destruct (alacrittyLike env) eqn:A;
    [now apply program_zed_or_term_alacritty |].
  assert (S : forall v,
            type (if inTmux env
                  then mkTerminalInfo Tmux None (inSSH env) (inTmux env)
                  else if inSSH env
                       then mkTerminalInfo SSH None (inSSH env) (inTmux env)
                       else mkTerminalInfo Unknown v (inSSH env) (inTmux env))
            = sessionType (inSSH env) (inTmux env)).
  { intros v. unfold sessionType. now destruct (inTmux env), (inSSH env). }
  destruct (bool_decide (orEmpty (TERM_PROGRAM env) = [])) eqn:E.
  - apply bool_decide_eq_true in E.
    destruct (includes (termName env) (lit "kitty")) eqn:TK;
      [now apply term_kitty |].
    destruct (includes (termName env) (lit "ghostty")) eqn:TG;
      [now apply term_ghostty |].
    rewrite S. apply by_session; auto.
  - apply bool_decide_eq_false in E.
    rewrite S. apply by_session; auto.
Qed.

Lemma detects_unique (env : Env) (t1 t2 : TerminalType) :
  Detects env t1 -> Detects env t2 -> t1 = t2.
Proof.
  intros H1 H2; destruct H1; destruct H2; try reflexivity;
    unfold unnamed in *; intuition congruence.
Qed.

Lemma detected_unknown (env : Env) :
  detected env = Unknown -> inSSH env = false /\ inTmux env = false.
Proof.
  intros H. pose proof (detects_detected env) as D. rewrite H in D.
  inversion D as [| | | | | | U A P S]. unfold sessionType in S.
  destruct (inTmux env), (inSSH env); try discriminate; auto.
Qed.

(** The keyboard probe raised the level: it ran and was answered. *)
Definition probed (performQueries : bool) (t : TerminalType)
  (q : QueryOutcome) (f : InputFeature) : bool :=
  performQueries && bool_decide (t = Unknown)
  && match q with Answered => true | _ => false end
  && bool_decide (f = KittyKeyboard).

(** C8. The terminal type follows the rules [Detects], and only them: an
    exact (lower-cased) [TERM_PROGRAM] of kitty, ghostty or iterm.app; then
    iTerm for a [TERM_PROGRAM] containing zed or a [TERM] containing
    alacritty; then, only when [TERM_PROGRAM] is unset or empty, Kitty or
    Ghostty by substring of [TERM]; then Tmux, SSH, Unknown. A fresh
    detection seeds the matrix from the type and demotes levels that are
    Full: over SSH Clipboard to Partial and FocusEvents to none, inside tmux
    KittyKeyboard and FocusEvents to none; so a session over SSH never has
    focus events nor full clipboard, one inside tmux neither the Kitty
    keyboard nor focus events. *)
Theorem terminal_detection (env : Env) (terminal : Terminal.Terminal)
  (force performQueries : bool) (q : QueryOutcome) :
  let caps :=
    (detectCapabilities toLowerCase None terminal force performQueries q
       env).1.1 in
  (forall t, Detects env t <-> terminalType caps = t)
  /\ isSSH caps = inSSH env
  /\ isTmux caps = inTmux env
  /\ (forall f,
        features caps f =
        if probed performQueries (terminalType caps) q f then Full
        else demoted (terminalType caps) (inSSH env) (inTmux env) f)
  /\ (isSSH caps = true ->
      features caps FocusEvents = NoSupport
      /\ features caps Clipboard <> Full)
  /\ (isTmux caps = true ->
      features caps KittyKeyboard = NoSupport
      /\ features caps FocusEvents = NoSupport).
Proof.
  intros caps.
  destruct (detectTerminalType_session env) as [Hs Ht].
  assert (Ty : terminalType caps = detected env).
  { unfold caps, detectCapabilities, detected.
    destruct (performQueries && _); [destruct (queryFeature _ _) |];
      reflexivity. }
  assert (Hssh : isSSH caps = inSSH env).
  { unfold caps, detectCapabilities.
    destruct (performQueries && _); [destruct (queryFeature _ _) |];
      exact Hs. }
  assert (Htmux : isTmux caps = inTmux env).
  { unfold caps, detectCapabilities.
    destruct (performQueries && _); [destruct (queryFeature _ _) |];
      exact Ht. }
  assert (F : forall f,
             features caps f =
             if probed performQueries (terminalType caps) q f then Full
             else demoted (terminalType caps) (inSSH env) (inTmux env) f).
  { intros f. rewrite Ty. unfold caps, detectCapabilities, probed, detected.
    rewrite Hs, Ht.
    destruct performQueries; cbn [andb].
    - case_bool_decide as U; cbn [andb].
      + destruct q; cbn [queryFeature fst snd features andb];
          try apply getBaseFeatureSupport_demoted.
        unfold setLevel. case_bool_decide; [reflexivity |].
        apply getBaseFeatureSupport_demoted.
      + cbn [features]. apply getBaseFeatureSupport_demoted.
    - cbn [features]. apply getBaseFeatureSupport_demoted. }
  split; [| split; [exact Hssh | split; [exact Htmux | split; [exact F |]]]].
  - intros t. rewrite Ty. split.
    + intros D. apply (detects_unique env _ _ (detects_detected env) D).
    + intros <-. apply detects_detected.
  - assert (P : forall f,
               inSSH env = true \/ inTmux env = true ->
               probed performQueries (terminalType caps) q f = false).
    { intros f Hor. unfold probed. rewrite Ty.
      case_bool_decide as U; [| now rewrite andb_false_r].
      apply detected_unknown in U as [U1 U2].
      destruct Hor; congruence. }
    split.
    + rewrite Hssh. intros S. rewrite !F, !P by auto. rewrite S.
      destruct (terminalType caps), (inTmux env); split;
        (reflexivity || discriminate).
    + rewrite Htmux. intros T. rewrite !F, !P by auto. rewrite T.
      destruct (terminalType caps), (inSSH env); split; reflexivity.
Qed.

End TerminalDetection.

Section TerminalDetectionFacts.
Import Features Detection.

(** The detection is no priority chain over [TERM_PROGRAM] and [TERM]:
    [TERM=xterm-kitty] alone gives Kitty, but with [TERM_PROGRAM=vscode] the
    same [TERM] is not looked at (Unknown, or Tmux inside tmux), although
    [vscode] itself decides nothing. *)
Lemma priority_chain_counterexample :
  ~ exists byProgram byTerm,
      Forall
        (fun env => detected asciiLower env = priorityChain byProgram byTerm env)
        [ envOf None None None;
          envOf (Some "xterm-kitty"%string) None None;
          envOf (Some "xterm-kitty"%string) (Some "vscode"%string) None;
          envOf (Some "xterm-kitty"%string) (Some "vscode"%string)
            (Some "/tmp/tmux-1000/default,4242,0"%string) ].
Proof.
  intros (byProgram & byTerm & H).
  apply Forall_cons_1 in H as [H1 H].
  apply Forall_cons_1 in H as [H2 H].
  apply Forall_cons_1 in H as [H3 H].
  apply Forall_cons_1 in H as [H4 _].
  vm_compute in H1, H2, H3, H4.
  destruct (byProgram _) in H3, H4; [congruence |].
  destruct (byProgram _) in H1, H2; [congruence |].
  destruct (byTerm _) in H2, H3; congruence.
Qed.

End TerminalDetectionFacts.

(** *** Initialization of the input *)
Section Initialization.
Import Features Detection Enable.

Variable toLowerCase : jsstr -> jsstr.

Definition usedCapabilities (w : World) (config : InputConfig) (o : Oracle)
  : DetectedCapabilities :=
  (obtainCapabilities toLowerCase w config o).1.1.

(** Raw mode is on already, or [stty raw -echo] succeeds. *)
Definition rawAvailable (w : World) (o : Oracle) : bool :=
  rawMode (terminalState w) || (sttyRawExit o =? 0).

(** The error line a configured feature contributes: none unless it is
    enabled and required; then one if the capabilities do not support it at
    the requested level, or if its name is no feature at all. *)
Definition featureError (caps : DetectedCapabilities)
  (entry : jsstr * FeatureConfig) : list jsstr :=
  let '(name, fc) := entry in
  if enabled fc && required fc then
    if negb (isSupported caps name fc)
    then [notSupportedMessage name (terminalType caps)]
    else
      match featureOfName name with
      | Some _ => []
      | None => [enableFailedMessage name]
      end
  else [].

Definition withFeatures (config : InputConfig)
  (l : list (jsstr * FeatureConfig)) : InputConfig :=
  mkInputConfig l (detectedCapabilities config) (overrides config)
    (quirks config).

Lemma enableFeature_None (w : World) (name : jsstr)
  (opts : option FeatureOptions) :
  enableFeature w name opts = None <-> featureOfName name = None.
Proof.
  unfold enableFeature.
  destruct (featureOfName name) as [[] |]; split; congruence.
Qed.

Lemma processFeature_errors (caps : DetectedCapabilities) (w : World)
  (errs : list jsstr) (e : jsstr * FeatureConfig) :
  (processFeature caps (w, errs) e).2 = errs ++ featureError caps e.
Proof.
  destruct e as [name fc]. unfold processFeature, featureError.
  destruct (enabled fc); cbn [negb andb]; [| now rewrite app_nil_r].
  destruct (isSupported caps name fc); cbn [negb].
  - destruct (enableFeature w name (options fc)) eqn:E.
    + destruct (featureOfName name) eqn:N.
      * cbn [snd]. destruct (required fc); now rewrite app_nil_r.
      * apply (enableFeature_None w name (options fc)) in N. congruence.
    + apply enableFeature_None in E. rewrite E.
      destruct (required fc); cbn [snd]; [reflexivity | now rewrite app_nil_r].
  - destruct (required fc); cbn [snd]; [reflexivity | now rewrite app_nil_r].
Qed.

Lemma processFeatures_errors (caps : DetectedCapabilities)
  (l : list (jsstr * FeatureConfig)) (w : World) (errs : list jsstr) :
  (foldl (processFeature caps) (w, errs) l).2
  = errs ++ flat_map (featureError caps) l.
Proof.
  revert w errs. induction l as [| e l IH]; intros w errs; cbn [foldl flat_map].
  - now rewrite app_nil_r.
  - destruct (processFeature caps (w, errs) e) as [w1 errs1] eqn:P.
    rewrite IH.
    pose proof (processFeature_errors caps w errs e) as Q.
    rewrite P in Q. cbn [snd] in Q. rewrite Q. now rewrite app_assoc.
Qed.

Lemma processFeature_skip (caps : DetectedCapabilities)
  (acc : World * list jsstr) (name : jsstr) (fc : FeatureConfig) :
  required fc = false -> isSupported caps name fc = false ->
  processFeature caps acc (name, fc) = acc.
Proof.
  intros R S. destruct acc as [w errs]. unfold processFeature.
  rewrite R, S. now destruct (enabled fc).
Qed.

(** [initializeInput] in terms of the error lines. *)
Lemma initializeInput_result (w : World) (config : InputConfig) (o : Oracle) :
  (initializeInput toLowerCase w config o).1 =
  if rawAvailable w o then
    match
      flat_map (featureError (usedCapabilities w config o))
        (configFeatures config)
    with
    | [] =>
        Resolved
          (getInputStatus
             (terminalState (initializeInput toLowerCase w config o).2))
    | errors => Rejected (failureMessage errors)
    end
  else Rejected RAW_MODE_MESSAGE.
Proof.
  unfold initializeInput, usedCapabilities, rawAvailable.
  destruct (obtainCapabilities toLowerCase w config o) as [[caps cache1] term1].
  cbn [fst snd].
  unfold enableRawMode. cbn [terminalState setState setSupportedFeatures rawMode].
  destruct (rawMode (terminalState w)); cbn [orb].
  - match goal with
    | |- context [foldl (processFeature caps) (?w0, []) ?l] =>
        pose proof (processFeatures_errors caps l w0 []) as E;
        destruct (foldl (processFeature caps) (w0, []) l) as [w4 errors]
    end.
    cbn [snd app] in E. rewrite <- E.
    destruct errors; reflexivity.
  - destruct (sttyRawExit o =? 0); cbn [negb]; [| reflexivity].
    match goal with
    | |- context [foldl (processFeature caps) (?w0, []) ?l] =>
        pose proof (processFeatures_errors caps l w0 []) as E;
        destruct (foldl (processFeature caps) (w0, []) l) as [w4 errors]
    end.
    cbn [snd app] in E. rewrite <- E.
    destruct errors; reflexivity.
Qed.

Lemma initializeInput_skip (w : World) (config : InputConfig) (o : Oracle)
  (l1 l2 : list (jsstr * FeatureConfig)) (name : jsstr) (fc : FeatureConfig) :
  configFeatures config = l1 ++ (name, fc) :: l2 ->
  required fc = false ->
  isSupported (usedCapabilities w config o) name fc = false ->
  initializeInput toLowerCase w config o
  = initializeInput toLowerCase w (withFeatures config (l1 ++ l2)) o.
Proof.
  intros C R S. unfold initializeInput, usedCapabilities in *.
  change (obtainCapabilities toLowerCase w (withFeatures config (l1 ++ l2)) o)
    with (obtainCapabilities toLowerCase w config o).
  destruct (obtainCapabilities toLowerCase w config o)
    as [[caps cache1] term1].
  cbn [fst snd] in S.
  unfold storeSupported, configureDecoder.
  cbn [withFeatures overrides quirks configFeatures].
  destruct (enableRawMode _ _) as [w3 |]; [| reflexivity].
  rewrite C, !foldl_app. cbn [foldl].
  rewrite (processFeature_skip caps _ name fc R S).
  reflexivity.
Qed.

(** C9. When raw mode cannot be enabled the initialization is rejected with
    that error, whatever the features. Otherwise it is rejected exactly when
    some enabled and required feature contributes an error line, and then
    the message lists these lines: an enabled, required feature that the
    capabilities do not support gives the line that names the feature and
    the terminal type. An enabled feature that is not supported and not
    required is skipped: the initialization behaves as if the feature were
    not configured. *)
Theorem initialization_errors (w : World) (config : InputConfig)
  (o : Oracle) :
  let caps := usedCapabilities w config o in
  let errors := flat_map (featureError caps) (configFeatures config) in
  let result := (initializeInput toLowerCase w config o).1 in
  (rawAvailable w o = false -> result = Rejected RAW_MODE_MESSAGE)
  /\ (rawAvailable w o = true ->
      (errors = [] -> exists mode, result = Resolved mode)
      /\ (errors <> [] -> result = Rejected (failureMessage errors))
      /\ (forall name fc,
            In (name, fc) (configFeatures config) ->
            enabled fc = true -> required fc = true ->
            isSupported caps name fc = false ->
            In (notSupportedMessage name (terminalType caps)) errors
            /\ result = Rejected (failureMessage errors)))
  /\ (forall l1 name fc l2,
        configFeatures config = l1 ++ (name, fc) :: l2 ->
        enabled fc = true -> required fc = false ->
        isSupported caps name fc = false ->
        initializeInput toLowerCase w config o
        = initializeInput toLowerCase w (withFeatures config (l1 ++ l2)) o).
Proof.
  intros caps errors result.
  pose proof (initializeInput_result w config o) as R.
  fold result caps errors in R.
  split; [| split].
  - intros Raw. now rewrite Raw in R.
  - intros Raw. rewrite Raw in R.
    assert (NE : errors <> [] -> result = Rejected (failureMessage errors)).
    { intros N. destruct errors; [congruence | exact R]. }
    split; [| split; [exact NE |]].
    + intros E. rewrite E in R. eauto.
    + intros name fc I En Rq S.
      assert (M : In (notSupportedMessage name (terminalType caps)) errors).
      { apply in_flat_map. exists (name, fc). split; [exact I |].
        unfold featureError. fold caps. rewrite En, Rq, S. now left. }
      split; [exact M |].
      apply NE. intros N. rewrite N in M. destruct M.
  - intros l1 name fc l2 C _ Rq S.
    apply (initializeInput_skip w config o l1 l2 name fc C Rq S).
Qed.

End Initialization.

Section InitializationFacts.
Import Features Detection Enable.

Definition freshWorld : World :=
  mkWorld initialTerminalState (Terminal.mkTerminal [] 65536 []) None None.

Definition noFeatures : InputConfig := mkInputConfig [] None None None.

(** With no feature configured at all, the initialization is still rejected
    when [stty raw -echo] fails. *)
Lemma raw_mode_counterexample :
  (initializeInput asciiLower freshWorld noFeatures
     (mkOracle (envOf None None None) Silent 1)).1
  = Rejected (lit "Failed to enable raw mode").
Proof. reflexivity. Qed.

(** A required Kitty keyboard on an unknown terminal that does not answer
    the probe: the one error names the feature and the terminal. *)
Example required_kitty_on_unknown :
  (initializeInput asciiLower freshWorld
     (mkInputConfig
        [(lit "kittyKeyboard", mkFeatureConfig true true None)] None None
        None)
     (mkOracle (envOf None None None) Silent 0)).1
  = Rejected
      (lit "Input initialization failed:" ++ [10]
       ++ lit "Required feature 'kittyKeyboard' is not supported by terminal 'unknown'").
Proof. vm_compute. reflexivity. Qed.

End InitializationFacts.

(** *** resize *)
Section Resize.

(** What the specification promises of [resize(r, c)]: fresh buffers of
    [r * c] empty cells and [r] dirty flags, all set. *)
Definition resize_clears (e : DiffEngine) (r c : Z) : Prop :=
  exists e',
    resize e r c = Some e' /\
    rows e' = r /\ cols e' = c /\ size e' = r * c /\
    prev e' = replicate (Z.to_nat (r * c)) emptyCell /\
    curr e' = replicate (Z.to_nat (r * c)) emptyCell /\
    dirty e' = replicate (Z.to_nat r) 1.

(** A 1-by-1 engine whose only cell holds an [X]. *)
Definition engineX : option DiffEngine :=
  e ← newDiffEngine 1 1; Some (setCell e 0 0 (packCell (lit "X") 0 None None)).

(** C7 as stated fails: [resize] with the current dimensions returns at once,
    the [X] stays in the back buffer. *)
Lemma resize_same_dims_counterexample :
  exists e, engineX = Some e /\
            resize e 1 1 = Some e /\
            getCell e 0 0 = packCell (lit "X") 0 None None /\
            ~ resize_clears e 1 1.
Proof.
  eexists. split; [reflexivity |]. split; [reflexivity |].
  split; [reflexivity |].
  intros (e' & He & _ & _ & _ & _ & Hc & _).
  vm_compute in He. injection He as <-. vm_compute in Hc. discriminate.
Qed.

(** C7, as the code has it. A [resize] to dimensions that differ from the
    current ones (non-negative, at most 2^32 - 1 cells) replaces both buffers
    by buffers of empty cells and sets every dirty flag; a [resize] to the
    current dimensions changes nothing. *)
Theorem resize_spec (e : DiffEngine) (r c : Z) :
  0 <= r -> 0 <= c -> r * c < 4294967296 ->
  (r <> rows e \/ c <> cols e -> resize_clears e r c) /\
  (r = rows e /\ c = cols e -> resize e r c = Some e).
Proof.
  intros Hr Hc Hsz. split.
  - intros Hne. unfold resize_clears, resize.
    assert ((r =? rows e) && (c =? cols e) = false) as ->.
    { apply andb_false_iff. destruct Hne; [left | right]; lia. }
    unfold allocCells, allocDirty.
    assert ((0 <=? r * c) && (r * c <? 4294967296) = true) as ->.
    { apply andb_true_iff. split; [apply Z.leb_le | apply Z.ltb_lt]; nia. }
    assert ((0 <=? r) = true) as -> by (apply Z.leb_le; lia).
    cbn. eexists. split; [reflexivity |]. cbn. repeat split; reflexivity.
  - intros [-> ->]. unfold resize. rewrite !Z.eqb_refl. reflexivity.
Qed.

Lemma resize_spec_witness :
  exists e, newDiffEngine 2 3 = Some e /\
            resize_clears (setCell e 1 1 (packCell (lit "X") 0 None None)) 3 2.
Proof.
  eexists. split; [reflexivity |].
  apply resize_spec; [lia | lia | lia |]. left. vm_compute. discriminate.
Defined.

End Resize.

(* ===================================================================== *)
(** * Part III: further properties of the code                            *)
(* ===================================================================== *)

(** *** Invariants of the input decoder *)
Section DecoderInvariants.
Import Events Protocols Features Quirks Decoder.

Variable textDecode : list Z -> jsstr.
Variable base64ToUtf8 : jsstr -> jsstr.
Variable terminalType : TerminalType.

(** What a handler may do to the fields the invariants speak of: it keeps
    the raw buffer and the options, keeps or clears the position and the
    parameters, and appends at most [n] events. *)
Record handles (n : nat) (d d' : Decoder) : Prop := mkHandles {
  h_buffer : buffer d' = buffer d;
  h_pos : bufferPos d' = bufferPos d \/ bufferPos d' = 0;
  h_params : params d' = params d \/ params d' = [];
  h_events :
    exists new, events d' = events d ++ new /\ (length new <= n)%nat;
  h_kitty : kittyEnabled d' = kittyEnabled d;
  h_quirks : quirksEnabled d' = quirksEnabled d
}.

Lemma handles_refl (n : nat) (d : Decoder) : handles n d d.
Proof.
  split; auto. exists []. rewrite app_nil_r. split; [reflexivity | cbn; lia].
Qed.

Lemma handles_trans (n m : nat) (d1 d2 d3 : Decoder) :
  handles n d1 d2 -> handles m d2 d3 -> handles (n + m) d1 d3.
Proof.
  intros [B1 P1 Q1 (e1 & E1 & L1) K1 R1] [B2 P2 Q2 (e2 & E2 & L2) K2 R2].
  split; try congruence.
  - destruct P2 as [-> | ->]; auto.
  - destruct Q2 as [-> | ->]; auto.
  - exists (e1 ++ e2). rewrite E2, E1, app_assoc, length_app.
    split; [reflexivity | lia].
Qed.

Lemma handles_weaken (n m : nat) (d d' : Decoder) :
  (n <= m)%nat -> handles n d d' -> handles m d d'.
Proof.
  intros L [B P Q (e & E & Le) K R]. split; auto. exists e. split; [auto | lia].
Qed.

Ltac split_ifs :=
  repeat match goal with
         | |- context [if ?b then _ else _] => destruct b
         end.
Ltac one_event :=
  eexists; split; [reflexivity | cbn; lia].
Ltac no_event :=
  exists []; rewrite app_nil_r; split; [reflexivity | cbn; lia].

Lemma reset_handles (d : Decoder) : handles 0 d (reset d).
Proof. split; cbn; auto. no_event. Qed.

Lemma emitKey_handles (d : Decoder) code isCtrl mods kind :
  handles 1 d (emitKey textDecode d code isCtrl mods kind).
Proof. split; cbn; auto. one_event. Qed.

Lemma emitMouse_handles (d : Decoder) button x y sgr :
  handles 1 d (emitMouse textDecode d button x y sgr).
Proof.
  unfold emitMouse.
  destruct (SGR_BUTTON_MAP _) as [[] |]; split_ifs;
    (split; cbn; auto; one_event).
Qed.

Lemma handleX10Mouse_handles (d : Decoder) :
  handles 1 d (handleX10Mouse textDecode d).
Proof.
  unfold handleX10Mouse.
  destruct (bufferPos d <? 6); [apply handles_weaken with 0%nat, handles_refl; lia |].
  destruct (buffer d !! 3%nat), (buffer d !! 4%nat), (buffer d !! 5%nat);
    first [apply emitMouse_handles
          | apply handles_weaken with 0%nat, handles_refl; lia].
Qed.

Lemma handleSGRMouseComplete_handles (d : Decoder) :
  handles 1 d (handleSGRMouseComplete textDecode d).
Proof.
  unfold handleSGRMouseComplete.
  destruct (_ <? _)%nat;
    first [apply emitMouse_handles
          | apply handles_weaken with 0%nat, handles_refl; lia].
Qed.

Lemma setPhysical_handles (n : nat) (d d' : Decoder) phys :
  handles n (setPhysicalModifierState d phys) d' -> handles n d d'.
Proof. intros [B P Q E K R]. split; assumption. Qed.

Lemma handleKittyKeyboard_handles (d : Decoder) :
  handles 1 d (decoderOf (handleKittyKeyboard textDecode terminalType d)).
Proof.
  unfold handleKittyKeyboard.
  destruct (params d) as [| unicode rest] eqn:P;
    [apply handles_weaken with 0%nat, handles_refl; lia |].
  repeat match goal with
         | |- context [if ?b then _ else _] => destruct b
         | |- context [match mapUnicodeToKeyCode ?u with _ => _ end] =>
             destruct (mapUnicodeToKeyCode u)
         | |- context [match fromCodePoint ?u with _ => _ end] =>
             destruct (fromCodePoint u)
         | |- handles _ _ (decoderOf (Normal _)) => cbn [decoderOf]
         | |- handles _ _ (decoderOf (Abrupt _)) => cbn [decoderOf]
         | |- handles 1 ?d ?d => apply handles_weaken with 0%nat, handles_refl; lia
         | |- handles 1 ?d (emitKey _ ?d _ _ _ _) => apply emitKey_handles
         | |- handles 1 ?d (emitKey _ (match ?k with _ => _ end) _ _ _ _) =>
             destruct k
         | |- handles 1 ?d (emitKey _ (setPhysicalModifierState ?d ?p) _ _ _ _) =>
             apply (setPhysical_handles 1 d _ p), emitKey_handles
         end.
Qed.


Ltac quiet := apply handles_weaken with 0%nat, handles_refl; lia.

Lemma handleCSIKeyboard_handles (d : Decoder) :
  handles 1 d (handleCSIKeyboard textDecode d).
Proof.
  unfold handleCSIKeyboard. destruct (lookupCSIKey d); apply emitKey_handles.
Qed.

Lemma emitWithEventType_handles (d : Decoder) key :
  handles 1 d (emitWithEventType textDecode d key).
Proof. unfold emitWithEventType. cbv zeta. apply emitKey_handles. Qed.

Lemma handleTilde_handles (d d' : Decoder) :
  handleTilde textDecode d = Some d' -> handles 1 d d'.
Proof.
  unfold handleTilde. cbv zeta. intros H.
  destruct (match params d !! 0%nat with
            | Some keyCode => CSI_KEY_MAP (decimal keyCode ++ lit "~")
            | None => None
            end) as [k |]; [| discriminate].
  match type of H with
  | (if ?c then _ else _) = _ => destruct c
  end; inversion_clear H; apply emitKey_handles.
Qed.

Lemma handleCSISequence_handles (d : Decoder) :
  handles 1 d
    (decoderOf (handleCSISequence textDecode terminalType d)).
Proof.
  unfold handleCSISequence.
  destruct (finalIs d "~" && bool_decide (params d !! 0%nat = Some 200)).
  { cbn [decoderOf]. split; cbn; auto. no_event. }
  destruct (finalIs d "u" && bool_decide (intermediates d = []));
    [apply handleKittyKeyboard_handles |].
  destruct (bool_decide (intermediates d = lit "<")
            && (finalIs d "M" || finalIs d "m"));
    [cbn [decoderOf]; apply handleSGRMouseComplete_handles |].
  destruct (finalIs d "M"); [cbn [decoderOf]; apply handleX10Mouse_handles |].
  cbv zeta.
  match goal with
  | |- context [match (if ?c then arrowKeyMap (final d) else None)
                with _ => _ end] =>
      destruct (if c then arrowKeyMap (final d) else None)
  end; [cbn [decoderOf]; apply emitWithEventType_handles |].
  match goal with
  | |- context [match (if ?c then functionKeyMap (final d) else None)
                with _ => _ end] =>
      destruct (if c then functionKeyMap (final d) else None)
  end; [cbn [decoderOf]; apply emitWithEventType_handles |].
  match goal with
  | |- context [match (if ?c then handleTilde textDecode d else None)
                with _ => _ end] =>
      destruct (if c then handleTilde textDecode d else None) eqn:T;
      [destruct c; [| discriminate] |]
  end.
  - cbn [decoderOf]. now apply handleTilde_handles.
  - cbn [decoderOf]. apply handleCSIKeyboard_handles.
Qed.

Lemma handleControlChar_handles (d : Decoder) byte :
  handles 1 d (handleControlChar textDecode terminalType d byte).
Proof.
  unfold handleControlChar.
  destruct (if quirksEnabled d then _ else _) as [[] |];
    [apply emitKey_handles |].
  destruct (CTRL_CHARS byte); [apply emitKey_handles | quiet].
Qed.

Lemma handleEscapeChar_handles (d : Decoder) byte :
  handles 1 d (handleEscapeChar textDecode terminalType d byte).
Proof.
  unfold handleEscapeChar.
  destruct (_ && _); [| apply emitKey_handles].
  destruct (if quirksEnabled d then _ else _); apply emitKey_handles.
Qed.

Lemma handleOSCSequence_handles (d : Decoder) :
  handles 1 d (handleOSCSequence base64ToUtf8 d).
Proof.
  unfold handleOSCSequence.
  destruct (bool_decide _); [| split; cbn; auto; no_event].
  destruct (split 59 (oscBuffer d)) as [| p0 [| b r]];
    try (split; cbn; auto; no_event).
  destruct (bool_decide _); split; cbn; auto; (one_event || no_event).
Qed.

(** A field assignment outside of the fields [handles] speaks of. *)
Definition sameFrame (d d' : Decoder) : Prop :=
  buffer d' = buffer d /\ bufferPos d' = bufferPos d
  /\ params d' = params d /\ events d' = events d
  /\ kittyEnabled d' = kittyEnabled d /\ quirksEnabled d' = quirksEnabled d.

Lemma sameFrame_handles (n : nat) (d d1 d' : Decoder) :
  sameFrame d d1 -> handles n d1 d' -> handles n d d'.
Proof.
  intros (B & P & Q & E & K & R) [B1 P1 Q1 (new & E1 & L1) K1 R1].
  split.
  - congruence.
  - destruct P1 as [P1 | P1]; [left | right]; congruence.
  - destruct Q1 as [Q1 | Q1]; [left | right]; congruence.
  - exists new. split; [congruence | exact L1].
  - congruence.
  - congruence.
Qed.

Lemma processCSIFinal_handles (d : Decoder) byte :
  handles 1 d
    (decoderOf (processCSIFinal textDecode terminalType d byte)).
Proof.
  unfold processCSIFinal.
  pose proof (handleCSISequence_handles (setFinal d (fromCharCode byte))) as H.
  destruct (handleCSISequence _ _ _) as [d1 | d1]; cbn [decoderOf] in *.
  - apply (sameFrame_handles 1 d (setFinal d (fromCharCode byte)));
      [repeat split |].
    destruct (bool_decide _); [exact H |].
    change 1%nat with (1 + 0)%nat.
    eapply handles_trans; [exact H | apply reset_handles].
  - apply (sameFrame_handles 1 d (setFinal d (fromCharCode byte)));
      [repeat split | exact H].
Qed.

(** The largest value [processCSIParam] can store: the last value below
    [MAX_CSI_PARAM], times ten, plus nine. *)
Definition PARAM_CEILING : Z := (MAX_CSI_PARAM - 1) * 10 + 9.

Definition bounded (d : Decoder) : Prop :=
  Forall (fun v => 0 <= v <= PARAM_CEILING) (params d).

(** What one byte may do. *)
Record steps (d d' : Decoder) : Prop := mkSteps {
  s_buffer : length (buffer d') = length (buffer d);
  s_pos :
    0 <= bufferPos d <= SEQUENCE_BUFFER_SIZE ->
    0 <= bufferPos d' <= SEQUENCE_BUFFER_SIZE;
  s_events :
    exists new, events d' = events d ++ new /\ (length new <= 1)%nat;
  s_params : bounded d -> bounded d';
  s_kitty : kittyEnabled d' = kittyEnabled d;
  s_quirks : quirksEnabled d' = quirksEnabled d
}.

(** The first statement of [processByte]: the byte goes into the raw
    buffer, if there is room. *)
Definition storeByte (d : Decoder) (byte : Z) : Decoder :=
  if bufferPos d <? SEQUENCE_BUFFER_SIZE then
    setBufferPos
      (setBuffer d (<[Z.to_nat (bufferPos d) := toUint8 byte]> (buffer d)))
      (bufferPos d + 1)
  else d.

Lemma storeByte_steps (d : Decoder) byte : steps d (storeByte d byte).
Proof.
  unfold storeByte, SEQUENCE_BUFFER_SIZE.
  destruct (bufferPos d <? 256) eqn:L.
  - apply Z.ltb_lt in L. split; cbn; auto.
    + apply length_insert.
    + unfold SEQUENCE_BUFFER_SIZE. lia.
    + no_event.
  - split; auto. no_event.
Qed.

Lemma steps_trans_handles (d d1 d' : Decoder) :
  steps d d1 -> events d1 = events d -> handles 1 d1 d' -> steps d d'.
Proof.
  intros [B P E Q K R] Ev [B1 P1 Q1 (new & E1 & L1) K1 R1].
  split; try congruence.
  - intros H. specialize (P H). unfold SEQUENCE_BUFFER_SIZE in *.
    destruct P1 as [-> | ->]; lia.
  - exists new. split; [congruence | exact L1].
  - intros H. specialize (Q H). unfold bounded in *.
    destruct Q1 as [-> | ->]; [exact Q | apply Forall_nil_2].
Qed.

Lemma storeByte_events (d : Decoder) byte :
  events (storeByte d byte) = events d.
Proof. unfold storeByte. now destruct (_ <? _). Qed.

Lemma storeByte_params (d : Decoder) byte :
  params (storeByte d byte) = params d.
Proof. unfold storeByte. now destruct (_ <? _). Qed.

(** A step that only assigns fields, given what it does to the parameters
    and to the position. *)
Lemma steps_assign (d d1 d' : Decoder) :
  steps d d1 ->
  length (buffer d') = length (buffer d1) ->
  (bufferPos d' = bufferPos d1 \/ bufferPos d' = 0 \/ bufferPos d' = 1) ->
  events d' = events d1 ->
  (bounded d1 -> bounded d') ->
  kittyEnabled d' = kittyEnabled d1 ->
  quirksEnabled d' = quirksEnabled d1 ->
  steps d d'.
Proof.
  intros [B P E Q K R] B1 P1 E1 Q1 K1 R1.
  split; try congruence; auto.
  - intros H. specialize (P H). unfold SEQUENCE_BUFFER_SIZE in *.
    destruct P1 as [-> | [-> | ->]]; lia.
  - rewrite E1. exact E.
Qed.

Lemma bounded_push (d : Decoder) (v : Z) :
  0 <= v <= 9 -> bounded d -> Forall (fun v => 0 <= v <= PARAM_CEILING)
                                (params d ++ [v]).
Proof.
  intros V H. apply Forall_app_2; [exact H |].
  apply Forall_cons_2; [| apply Forall_nil_2].
  unfold PARAM_CEILING, MAX_CSI_PARAM. lia.
Qed.

Lemma digit_range (byte : Z) :
  (48 <=? byte) && (byte <=? 57) = true -> 0 <= byte - 48 <= 9.
Proof. intros H. apply andb_true_iff in H as [H1 H2]. lia. Qed.

Lemma processByte_steps (d : Decoder) (byte : Z) :
  steps d
    (decoderOf (processByte textDecode base64ToUtf8 terminalType d byte)).
Proof.
  unfold processByte. fold (storeByte d byte).
  pose proof (storeByte_steps d byte) as S.
  pose proof (storeByte_events d byte) as E.
  set (d1 := storeByte d byte) in *.
  destruct (state d1).
  - (* idle *)
    cbn [decoderOf]. unfold processIdle.
    destruct (byte =? 27).
    { apply (steps_assign d d1); cbn; auto. apply length_insert. }
    destruct ((byte <? 32) || (byte =? 127)).
    + destruct (kittyEnabled d1).
      * destruct (if quirksEnabled d1 then _ else _).
        -- apply (steps_trans_handles d d1); auto.
           apply handleControlChar_handles.
        -- apply (steps_assign d d1); auto.
      * apply (steps_trans_handles d d1); auto.
        apply handleControlChar_handles.
    + destruct (negb (kittyEnabled d1)).
      * apply (steps_trans_handles d d1); auto. apply emitKey_handles.
      * apply (steps_assign d d1); auto.
  - (* escape *)
    cbn [decoderOf]. unfold processEscape.
    destruct (byte =? 91);
      [apply (steps_assign d d1); cbn; auto; intros _; apply Forall_nil_2 |].
    destruct (byte =? 79); [apply (steps_assign d d1); cbn; auto |].
    destruct (byte =? 80); [apply (steps_assign d d1); cbn; auto |].
    destruct (byte =? 93); [apply (steps_assign d d1); cbn; auto |].
    apply (steps_trans_handles d d1); auto.
    change 1%nat with (1 + 0)%nat.
    eapply handles_trans; [apply handleEscapeChar_handles | apply reset_handles].
  - (* csi *)
    unfold processCSI.
    destruct ((48 <=? byte) && (byte <=? 57)) eqn:D.
    { cbn [decoderOf]. apply (steps_assign d d1); cbn; auto.
      apply bounded_push, digit_range, D. }
    destruct ((byte =? 59) || (byte =? 58)).
    { cbn [decoderOf]. apply (steps_assign d d1); cbn; auto.
      apply bounded_push. lia. }
    destruct (byte =? 60);
      [cbn [decoderOf]; apply (steps_assign d d1); cbn; auto |].
    destruct ((32 <=? byte) && (byte <=? 47));
      [cbn [decoderOf]; apply (steps_assign d d1); cbn; auto |].
    destruct ((64 <=? byte) && (byte <=? 126)).
    + apply (steps_trans_handles d d1); auto. apply processCSIFinal_handles.
    + cbn [decoderOf]. apply (steps_trans_handles d d1); auto.
      apply handles_weaken with 0%nat; [lia | apply reset_handles].
  - (* csi_param *)
    unfold processCSIParam.
    destruct ((48 <=? byte) && (byte <=? 57)) eqn:D.
    { destruct (length (params d1) =? 0)%nat.
      - cbn [decoderOf]. apply (steps_assign d d1); cbn; auto.
        apply bounded_push, digit_range, D.
      - destruct (params d1 !! _) as [currentValue |] eqn:L;
          [| cbn [decoderOf]; apply (steps_assign d d1); auto].
        destruct (currentValue <? MAX_CSI_PARAM) eqn:C;
          [| cbn [decoderOf]; apply (steps_assign d d1); auto].
        cbn [decoderOf]. apply (steps_assign d d1); cbn; auto.
        intros B. unfold bounded in *.
        apply Forall_insert; [exact B |].
        apply Z.ltb_lt in C. apply digit_range in D.
        pose proof (Forall_lookup_1 _ _ _ _ B L) as V. cbn beta in V.
        unfold PARAM_CEILING, MAX_CSI_PARAM in *. lia. }
    destruct ((byte =? 59) || (byte =? 58)).
    { destruct (_ <? MAX_CSI_PARAMS); cbn [decoderOf];
        apply (steps_assign d d1); cbn; auto.
      apply bounded_push. lia. }
    destruct ((32 <=? byte) && (byte <=? 47));
      [cbn [decoderOf]; apply (steps_assign d d1); cbn; auto |].
    destruct ((64 <=? byte) && (byte <=? 126)).
    + apply (steps_trans_handles d d1); auto. apply processCSIFinal_handles.
    + cbn [decoderOf]. apply (steps_trans_handles d d1); auto.
      apply handles_weaken with 0%nat; [lia | apply reset_handles].
  - (* csi_intermediate *)
    unfold processCSIIntermediate.
    destruct ((48 <=? byte) && (byte <=? 57)) eqn:D.
    { cbn [decoderOf]. apply (steps_assign d d1); cbn; auto.
      apply bounded_push, digit_range, D. }
    destruct ((32 <=? byte) && (byte <=? 47));
      [cbn [decoderOf]; apply (steps_assign d d1); cbn; auto |].
    destruct ((64 <=? byte) && (byte <=? 126)).
    + apply (steps_trans_handles d d1); auto. apply processCSIFinal_handles.
    + cbn [decoderOf]. apply (steps_trans_handles d d1); auto.
      apply handles_weaken with 0%nat; [lia | apply reset_handles].
  - (* ss3 *)
    cbn [decoderOf]. unfold processSS3.
    apply (steps_trans_handles d d1); auto.
    change 1%nat with (1 + 0)%nat.
    destruct (SS3_KEY_MAP _);
      (eapply handles_trans; [apply emitKey_handles | apply reset_handles]).
  - (* osc *)
    cbn [decoderOf]. unfold processOSC.
    destruct (byte =? 27); [apply (steps_assign d d1); cbn; auto |].
    destruct ((byte =? 92) && _).
    { apply (steps_trans_handles d d1); auto.
      change 1%nat with (1 + 0)%nat.
      eapply handles_trans; [| apply reset_handles].
      eapply sameFrame_handles; [| apply handleOSCSequence_handles].
      repeat split. }
    destruct (byte =? 7).
    { apply (steps_trans_handles d d1); auto.
      change 1%nat with (1 + 0)%nat.
      eapply handles_trans;
        [apply handleOSCSequence_handles | apply reset_handles]. }
    cbv zeta. destruct (10000 <? _).
    { apply (steps_assign d d1); cbn; auto. intros _. apply Forall_nil_2. }
    destruct (_ && _); [| apply (steps_assign d d1); cbn; auto].
    destruct (indexOf 59 _); apply (steps_assign d d1); cbn; auto.
  - (* dcs *)
    destruct (byte =? 27);
      [cbn [decoderOf]; apply (steps_assign d d1); cbn; auto |].
    destruct (byte =? 7); cbn [decoderOf].
    + apply (steps_assign d d1); cbn; auto. intros _. apply Forall_nil_2.
    + apply (steps_assign d d1); auto.
  - (* paste *)
    cbn [decoderOf]. unfold processPaste. cbv zeta.
    destruct (_ && _).
    + apply (steps_trans_handles d d1); auto.
      change 1%nat with (1 + 0)%nat.
      eapply handles_trans; [| apply reset_handles].
      split; cbn; auto. one_event.
    + apply (steps_assign d d1); cbn; auto.
Qed.

Lemma handleKittyKeyboard_Abrupt (d d' : Decoder) :
  handleKittyKeyboard textDecode terminalType d = Abrupt d' ->
  d' = d /\ exists u, params d !! 0%nat = Some u /\ 1114111 < u.
Proof.
  unfold handleKittyKeyboard.
  destruct (params d) as [| unicode rest]; [discriminate |].
  cbv zeta.
  destruct (unicode =? 0); [discriminate |].
  destruct (_ && _ && _); [discriminate |].
  destruct (mapUnicodeToKeyCode unicode).
  { destruct (isModifierKey _); discriminate. }
  destruct (32 <=? unicode) eqn:L; [| discriminate].
  unfold fromCodePoint.
  destruct ((unicode <? 0) || (1114111 <? unicode)) eqn:R.
  - intros H. inversion H. split; [reflexivity |].
    exists unicode. split; [reflexivity |].
    apply Z.leb_le in L. apply orb_true_iff in R as [R | R]; lia.
  - destruct (unicode <? 65536); discriminate.
Qed.

Lemma handleCSISequence_Abrupt (d d' : Decoder) :
  handleCSISequence textDecode terminalType d = Abrupt d' ->
  d' = d /\ final d = lit "u"
  /\ exists u, params d !! 0%nat = Some u /\ 1114111 < u.
Proof.
  unfold handleCSISequence.
  destruct (finalIs d "~" && bool_decide (params d !! 0%nat = Some 200));
    [discriminate |].
  destruct (finalIs d "u" && bool_decide (intermediates d = [])) eqn:U.
  { intros H. apply handleKittyKeyboard_Abrupt in H as [-> H].
    apply andb_true_iff in U as [U _]. unfold finalIs in U.
    apply bool_decide_eq_true in U. auto. }
  repeat match goal with
         | |- context [if ?c then _ else _] => destruct c
         | |- context [match ?x with _ => _ end] => destruct x
         end; discriminate.
Qed.

Lemma processCSIFinal_Abrupt (d d' : Decoder) (byte : Z) :
  processCSIFinal textDecode terminalType d byte = Abrupt d' ->
  final d' = lit "u" /\ exists u, params d' !! 0%nat = Some u /\ 1114111 < u.
Proof.
  unfold processCSIFinal.
  destruct (handleCSISequence _ _ _) as [d1 | d1] eqn:H; [discriminate |].
  intros E. inversion E. subst d1.
  apply handleCSISequence_Abrupt in H as (-> & F & P). auto.
Qed.

Lemma processByte_Abrupt (d d' : Decoder) (byte : Z) :
  processByte textDecode base64ToUtf8 terminalType d byte = Abrupt d' ->
  byte = 117 /\ final d' = lit "u"
  /\ exists u, params d' !! 0%nat = Some u /\ 1114111 < u.
Proof.
  unfold processByte. fold (storeByte d byte).
  set (d1 := storeByte d byte).
  assert (F : forall d0,
             (64 <=? byte) && (byte <=? 126) = true ->
             processCSIFinal textDecode terminalType d0 byte = Abrupt d' ->
             byte = 117 /\ final d' = lit "u"
             /\ exists u, params d' !! 0%nat = Some u /\ 1114111 < u).
  { intros d0 R H. pose proof H as H'.
    apply processCSIFinal_Abrupt in H as [Fin P].
    split; [| auto].
    unfold processCSIFinal in H'.
    destruct (handleCSISequence _ _ _) as [d2 | d2] eqn:HS; [discriminate |].
    apply handleCSISequence_Abrupt in HS as (-> & Fu & _).
    cbn [final setFinal] in Fu. unfold fromCharCode in Fu.
    apply andb_true_iff in R as [R1 R2].
    assert (byte mod 65536 = byte) by (apply Z.mod_small; lia).
    change (lit "u") with [117] in Fu. injection Fu as Fu. lia. }
  destruct (state d1); try discriminate.
  - unfold processCSI.
    destruct ((48 <=? byte) && (byte <=? 57)); [discriminate |].
    destruct ((byte =? 59) || (byte =? 58)); [discriminate |].
    destruct (byte =? 60); [discriminate |].
    destruct ((32 <=? byte) && (byte <=? 47)); [discriminate |].
    destruct ((64 <=? byte) && (byte <=? 126)) eqn:R; [| discriminate].
    now apply F.
  - unfold processCSIParam.
    destruct ((48 <=? byte) && (byte <=? 57)).
    { destruct (length (params d1) =? 0)%nat; [discriminate |].
      destruct (params d1 !! _); [| discriminate].
      destruct (_ <? MAX_CSI_PARAM); discriminate. }
    destruct ((byte =? 59) || (byte =? 58)).
    { destruct (_ <? MAX_CSI_PARAMS); discriminate. }
    destruct ((32 <=? byte) && (byte <=? 47)); [discriminate |].
    destruct ((64 <=? byte) && (byte <=? 126)) eqn:R; [| discriminate].
    now apply F.
  - unfold processCSIIntermediate.
    destruct ((48 <=? byte) && (byte <=? 57)); [discriminate |].
    destruct ((32 <=? byte) && (byte <=? 47)); [discriminate |].
    destruct ((64 <=? byte) && (byte <=? 126)) eqn:R; [| discriminate].
    now apply F.
  - destruct (byte =? 27); [discriminate |].
    destruct (byte =? 7); discriminate.
Qed.

(** What a whole [feed] may do. *)
Lemma feed_steps (data : list Z) (d : Decoder) :
  let d' := decoderOf (feed textDecode base64ToUtf8 terminalType d data) in
  length (buffer d') = length (buffer d)
  /\ (0 <= bufferPos d <= SEQUENCE_BUFFER_SIZE ->
      0 <= bufferPos d' <= SEQUENCE_BUFFER_SIZE)
  /\ (exists new,
        events d' = events d ++ new /\ (length new <= length data)%nat)
  /\ (bounded d -> bounded d')
  /\ kittyEnabled d' = kittyEnabled d
  /\ quirksEnabled d' = quirksEnabled d.
Proof.
  revert d. induction data as [| byte rest IH]; intros d; cbn [feed].
  - cbn [decoderOf length]. split; [reflexivity |].
    split; [auto |]. split; [no_event |]. split; [auto |]. split; reflexivity.
  - pose proof (processByte_steps d byte) as [B P (n1 & E1 & L1) Q K R].
    destruct (processByte _ _ _ d byte) as [d1 | d1]; cbn [decoderOf] in *.
    + specialize (IH d1). cbv zeta in IH.
      destruct IH as (B2 & P2 & (n2 & E2 & L2) & Q2 & K2 & R2).
      split; [congruence |].
      split; [intros H; apply P2, P, H |].
      split.
      { exists (n1 ++ n2). rewrite E2, E1, app_assoc, length_app.
        split; [reflexivity | cbn [length]; lia]. }
      split; [intros H; apply Q2, Q, H |].
      split; congruence.
    + split; [exact B |].
      split; [exact P |].
      split; [exists n1; split; [exact E1 | cbn [length]; lia] |].
      split; [exact Q |].
      split; assumption.
Qed.

End DecoderInvariants.

(** *** Feeding the decoder: chunks, pastes, plain text *)
Section DecoderFeeds.
Import Events Protocols Features Quirks Decoder.

Variable textDecode : list Z -> jsstr.
Variable base64ToUtf8 : jsstr -> jsstr.
Variable terminalType : TerminalType.

Local Abbreviation feed' := (feed textDecode base64ToUtf8 terminalType).
Local Abbreviation processByte' := (processByte textDecode base64ToUtf8 terminalType).

Lemma feed_app (a b : list Z) (d : Decoder) :
  feed' d (a ++ b) =
  match feed' d a with
  | Normal d1 => feed' d1 b
  | Abrupt d1 => Abrupt d1
  end.
Proof.
  revert d. induction a as [| byte a IH]; intros d; cbn [feed app].
  - reflexivity.
  - destruct (processByte' d byte); [apply IH | reflexivity].
Qed.

Lemma feed_Normal_app (a b : list Z) (d d1 : Decoder) :
  feed' d a = Normal d1 -> feed' d (a ++ b) = feed' d1 b.
Proof. intros H. now rewrite feed_app, H. Qed.

(** A byte is a code unit of its own. *)
Definition isByte (b : Z) : Prop := 0 <= b < 256.

Lemma fromCharCode_byte (b : Z) : isByte b -> fromCharCode b = [b].
Proof.
  intros H. unfold fromCharCode, isByte in *.
  rewrite Z.mod_small by lia. reflexivity.
Qed.

(** The paste buffer cannot end with the end marker while the escape
    character of the marker has not arrived. *)
Lemma no_early_end (c q : jsstr) :
  ~ In 27 c -> (length q < 6)%nat -> endsWith (c ++ q) PASTE_END = false.
Proof.
  intros N L. destruct (endsWith (c ++ q) PASTE_END) eqn:E; [| reflexivity].
  apply endsWith_spec in E as [pre E]. exfalso. apply N.
  assert (Lq : (length pre < length c)%nat).
  { apply (f_equal (@length Z)) in E. rewrite !length_app in E.
    change (length PASTE_END) with 6%nat in E. lia. }
  assert (c !! length pre = Some 27) as H.
  { rewrite <- (lookup_app_l c q) by exact Lq. rewrite E.
    rewrite lookup_app_r by lia. now rewrite Nat.sub_diag. }
  apply list_elem_of_In, list_elem_of_lookup. eauto.
Qed.

(** One byte in the paste state that does not complete the end marker. *)
Lemma processByte_paste (d : Decoder) (byte : Z) :
  state d = paste -> isByte byte ->
  endsWith (pasteBuffer d ++ [byte]) PASTE_END = false ->
  exists d1,
    processByte' d byte = Normal d1 /\ state d1 = paste
    /\ pasteBuffer d1 = pasteBuffer d ++ [byte] /\ events d1 = events d.
Proof.
  intros S B E. unfold processByte. fold (storeByte d byte).
  assert (S1 : state (storeByte d byte) = paste).
  { unfold storeByte. now destruct (_ <? _). }
  assert (P1 : pasteBuffer (storeByte d byte) = pasteBuffer d).
  { unfold storeByte. now destruct (_ <? _). }
  assert (E1 : events (storeByte d byte) = events d).
  { unfold storeByte. now destruct (_ <? _). }
  rewrite S1. unfold processPaste. cbv zeta.
  cbn [pasteBuffer setPasteBuffer]. rewrite P1, fromCharCode_byte by exact B.
  rewrite E, andb_false_r. eexists. split; [reflexivity |].
  cbn. auto.
Qed.

Lemma feed_paste_body (content : list Z) : forall (d : Decoder) (c : jsstr),
  state d = paste -> pasteBuffer d = c -> ~ In 27 (c ++ content) ->
  Forall isByte content ->
  exists d1,
    feed' d content = Normal d1 /\ state d1 = paste
    /\ pasteBuffer d1 = c ++ content /\ events d1 = events d.
Proof.
  induction content as [| b content IH]; intros d c S P N B.
  - exists d. rewrite app_nil_r. auto.
  - apply Forall_cons_1 in B as [Bb B].
    destruct (processByte_paste d b S Bb) as (d1 & H1 & S1 & P1 & E1).
    { rewrite P. rewrite <- (app_nil_r (c ++ [b])). apply no_early_end.
      - intros I. apply N. rewrite in_app_iff in *. cbn in *. tauto.
      - cbn. lia. }
    destruct (IH d1 (c ++ [b]) S1) as (d2 & H2 & S2 & P2 & E2).
    + now rewrite P1, P.
    + now rewrite <- app_assoc.
    + exact B.
    + exists d2. cbn [feed]. rewrite H1, H2.
      split; [reflexivity |]. split; [exact S2 |].
      split; [now rewrite P2, <- app_assoc | congruence].
Qed.

Definition PASTE_START : list Z := 27 :: lit "[200~".

Lemma feed_paste_start (d : Decoder) :
  state d = idle ->
  exists d1,
    feed' d PASTE_START = Normal d1 /\ state d1 = paste
    /\ pasteBuffer d1 = [] /\ events d1 = events d
    /\ kittyEnabled d1 = kittyEnabled d /\ quirksEnabled d1 = quirksEnabled d.
Proof.
  intros S. destruct d. cbn in S. subst.
  change PASTE_START with [27; 91; 50; 48; 48; 126].
  cbn [feed]. unfold processByte at 1. cbn [bufferPos Decoder.state].
  destruct (_ <? SEQUENCE_BUFFER_SIZE);
    (eexists; split; [vm_compute; reflexivity | repeat split]).
Qed.

Lemma feed_paste_end (d : Decoder) (c : jsstr) :
  state d = paste -> pasteBuffer d = c -> ~ In 27 c ->
  exists d1,
    feed' d PASTE_END = Normal d1 /\ state d1 = idle
    /\ events d1 = events d ++ [PasteEvent c]
    /\ kittyEnabled d1 = kittyEnabled d /\ quirksEnabled d1 = quirksEnabled d.
Proof.
  intros S P N.
  change PASTE_END with ([27; 91; 50; 48; 49] ++ [126]).
  assert (B : forall q b,
             (length q < 5)%nat -> isByte b ->
             forall d0, state d0 = paste -> pasteBuffer d0 = c ++ q ->
             exists d1,
               processByte' d0 b = Normal d1 /\ state d1 = paste
               /\ pasteBuffer d1 = c ++ (q ++ [b]) /\ events d1 = events d0
               /\ kittyEnabled d1 = kittyEnabled d0
               /\ quirksEnabled d1 = quirksEnabled d0).
  { intros q b L Bb d0 S0 P0.
    destruct (processByte_paste d0 b S0 Bb) as (d1 & H1 & S1 & P1 & E1).
    - rewrite P0, <- app_assoc. apply no_early_end; [exact N |].
      rewrite length_app. cbn. lia.
    - exists d1. rewrite P1, P0, <- app_assoc.
      pose proof (processByte_steps textDecode base64ToUtf8 terminalType
                    d0 b) as St.
      rewrite H1 in St. cbn [decoderOf] in St.
      destruct St. repeat split; auto. }
  destruct (B [] 27) with (d0 := d) as (d1 & H1 & S1 & P1 & E1 & K1 & Q1);
    [cbn; lia | unfold isByte; lia | exact S | now rewrite app_nil_r |].
  destruct (B [27] 91) with (d0 := d1) as (d2 & H2 & S2 & P2 & E2 & K2 & Q2);
    [cbn; lia | unfold isByte; lia | exact S1 | exact P1 |].
  destruct (B [27; 91] 50) with (d0 := d2)
    as (d3 & H3 & S3 & P3 & E3 & K3 & Q3);
    [cbn; lia | unfold isByte; lia | exact S2 | exact P2 |].
  destruct (B [27; 91; 50] 48) with (d0 := d3)
    as (d4 & H4 & S4 & P4 & E4 & K4 & Q4);
    [cbn; lia | unfold isByte; lia | exact S3 | exact P3 |].
  destruct (B [27; 91; 50; 48] 49) with (d0 := d4)
    as (d5 & H5 & S5 & P5 & E5 & K5 & Q5);
    [cbn; lia | unfold isByte; lia | exact S4 | exact P4 |].
  cbn [app] in P5. cbn [feed app]. rewrite H1, H2, H3, H4, H5.
  unfold processByte. fold (storeByte d5 126).
  assert (S6 : state (storeByte d5 126) = paste).
  { unfold storeByte. now destruct (_ <? _). }
  assert (P6 : pasteBuffer (storeByte d5 126) = pasteBuffer d5).
  { unfold storeByte. now destruct (_ <? _). }
  assert (E6 : events (storeByte d5 126) = events d5).
  { unfold storeByte. now destruct (_ <? _). }
  assert (K6 : kittyEnabled (storeByte d5 126) = kittyEnabled d5).
  { unfold storeByte. now destruct (_ <? _). }
  assert (Q6 : quirksEnabled (storeByte d5 126) = quirksEnabled d5).
  { unfold storeByte. now destruct (_ <? _). }
  rewrite S6. unfold processPaste. cbv zeta.
  cbn [pasteBuffer setPasteBuffer]. rewrite P6, P5.
  change (fromCharCode 126) with [126].
  assert (T : c ++ [27; 91; 50; 48; 49] ++ [126] = c ++ PASTE_END)
    by reflexivity.
  rewrite <- app_assoc. cbn [app] in T |- *. rewrite T.
  assert (En : endsWith (c ++ PASTE_END) PASTE_END = true)
    by (apply endsWith_spec; eauto).
  rewrite En.
  assert (Ln : (6 <=? length (c ++ PASTE_END))%nat = true).
  { apply Nat.leb_le. rewrite length_app. cbn. lia. }
  rewrite Ln. cbn [andb].
  eexists. split; [reflexivity |].
  cbn. rewrite E6, E5, E4, E3, E2, E1, K6, K5, K4, K3, K2, K1,
    Q6, Q5, Q4, Q3, Q2, Q1.
  repeat split.
  unfold dropLast. rewrite length_app.
  change (length PASTE_END) with 6%nat.
  replace (length c + 6 - 6)%nat with (length c) by lia.
  now rewrite take_app_length.
Qed.

(** Bytes of printable ASCII. *)
Definition printable (b : Z) : Prop := 32 <= b <= 126.

Lemma processByte_printable (d : Decoder) (b : Z) :
  state d = idle -> bufferPos d = 0 -> (0 < length (buffer d))%nat ->
  kittyEnabled d = false -> printable b ->
  exists d1,
    processByte' d b = Normal d1 /\ state d1 = idle /\ bufferPos d1 = 0
    /\ length (buffer d1) = length (buffer d)
    /\ kittyEnabled d1 = false
    /\ events d1 =
       events d ++ [KeyEvent (Char [b]) noMods false None (textDecode [b])].
Proof.
  intros S P L K B. unfold printable in B.
  unfold processByte. fold (storeByte d b).
  unfold storeByte. rewrite P. cbn [Z.ltb Z.compare SEQUENCE_BUFFER_SIZE].
  cbn [state setBufferPos setBuffer]. rewrite S.
  unfold processIdle.
  replace (b =? 27) with false by lia.
  replace ((b <? 32) || (b =? 127)) with false by lia.
  cbn [kittyEnabled setBufferPos setBuffer]. rewrite K. cbn [negb].
  eexists. split; [reflexivity |].
  unfold emitKey, getRawSequence, fromCharCode, toUint8.
  cbn [state bufferPos buffer kittyEnabled events reset pushEvent setEvents
       setState setBufferPos setParams setIntermediates setFinal
       setOscBuffer setOscParam setBuffer].
  rewrite !Z.mod_small by lia. rewrite length_insert.
  repeat split; auto.
  destruct (buffer d) as [| x rest]; [cbn in L; lia |].
  reflexivity.
Qed.

Lemma processByte_suppressed (d : Decoder) (b : Z) :
  state d = idle -> kittyEnabled d = true -> printable b ->
  exists d1,
    processByte' d b = Normal d1 /\ state d1 = idle
    /\ kittyEnabled d1 = true /\ events d1 = events d.
Proof.
  intros S K B. unfold printable in B.
  unfold processByte. fold (storeByte d b).
  assert (S1 : state (storeByte d b) = idle).
  { unfold storeByte. now destruct (_ <? _). }
  assert (K1 : kittyEnabled (storeByte d b) = true).
  { unfold storeByte. now destruct (_ <? _). }
  assert (E1 : events (storeByte d b) = events d).
  { unfold storeByte. now destruct (_ <? _). }
  rewrite S1. unfold processIdle.
  replace (b =? 27) with false by lia.
  replace ((b <? 32) || (b =? 127)) with false by lia.
  rewrite K1. cbn [negb]. eauto.
Qed.

(** The value of a run of digit bytes, most significant first. *)
Definition isDigitByte (b : Z) : Prop := 48 <= b <= 57.
Definition digitsValue (acc : Z) (ds : list Z) : Z :=
  fold_left (fun a b => a * 10 + (b - 48)) ds acc.

Lemma digitsValue_mono (ds : list Z) : forall acc,
  0 <= acc -> Forall isDigitByte ds -> acc <= digitsValue acc ds.
Proof.
  unfold digitsValue, isDigitByte.
  induction ds as [| b ds IH]; intros acc A D; cbn [fold_left]; [lia |].
  apply Forall_cons_1 in D as [Db D].
  specialize (IH (acc * 10 + (b - 48)) ltac:(lia) D). lia.
Qed.

(** What the bytes between [ESC [] and the final byte may change. *)
Definition sameKeys (d d1 : Decoder) : Prop :=
  intermediates d1 = intermediates d /\ events d1 = events d
  /\ kittyEnabled d1 = kittyEnabled d /\ quirksEnabled d1 = quirksEnabled d
  /\ physicalModifierState d1 = physicalModifierState d.

Lemma storeByte_sameKeys (d : Decoder) (b : Z) :
  sameKeys d (storeByte d b) /\ state (storeByte d b) = state d
  /\ params (storeByte d b) = params d.
Proof. unfold storeByte, sameKeys. destruct (_ <? _); cbn; auto 10. Qed.

Lemma processByte_digit (d : Decoder) (acc b : Z) :
  state d = csi_param -> params d = [acc] -> acc < MAX_CSI_PARAM ->
  isDigitByte b ->
  exists d1,
    processByte' d b = Normal d1 /\ state d1 = csi_param
    /\ params d1 = [acc * 10 + (b - 48)] /\ sameKeys d d1.
Proof.
  intros S P A B. unfold isDigitByte in B.
  unfold processByte. fold (storeByte d b).
  destruct (storeByte_sameKeys d b) as ((I1 & E1 & K1 & Q1 & M1) & S1 & P1).
  rewrite S1, S. unfold processCSIParam.
  replace ((48 <=? b) && (b <=? 57)) with true by lia.
  rewrite P1, P. cbn [length Nat.eqb Nat.sub lookup list_lookup].
  replace (acc <? MAX_CSI_PARAM) with true by (symmetry; apply Z.ltb_lt, A).
  eexists. split; [reflexivity |].
  unfold sameKeys.
  cbn [state params intermediates events kittyEnabled quirksEnabled
       physicalModifierState setParams].
  cbn [length Nat.sub]. rewrite S1. auto 10.
Qed.

Lemma feed_digits (ds : list Z) : forall (d : Decoder) (acc : Z),
  state d = csi_param -> params d = [acc] -> 0 <= acc ->
  Forall isDigitByte ds -> digitsValue acc ds < MAX_CSI_PARAM ->
  exists d1,
    feed' d ds = Normal d1 /\ state d1 = csi_param
    /\ params d1 = [digitsValue acc ds] /\ sameKeys d d1.
Proof.
  induction ds as [| b ds IH]; intros d acc S P A D V.
  - exists d. unfold sameKeys. cbn. auto 10.
  - pose proof D as D'. apply Forall_cons_1 in D as [Db D].
    assert (A1 : 0 <= acc * 10 + (b - 48)) by (unfold isDigitByte in Db; lia).
    pose proof (digitsValue_mono ds _ A1 D) as M.
    change (digitsValue acc (b :: ds))
      with (digitsValue (acc * 10 + (b - 48)) ds) in *.
    destruct (processByte_digit d acc b S P) as (d1 & H1 & S1 & P1 & F1);
      [unfold isDigitByte in Db; lia | exact Db |].
    destruct (IH d1 _ S1 P1 A1 D V) as (d2 & H2 & S2 & P2 & F2).
    exists d2. cbn [feed]. rewrite H1, H2.
    repeat split; auto; unfold sameKeys in *; intuition congruence.
Qed.

Lemma feed_csi_intro (d : Decoder) :
  state d = idle ->
  exists d1,
    feed' d [27; 91] = Normal d1 /\ state d1 = csi /\ params d1 = []
    /\ intermediates d1 = [] /\ events d1 = events d
    /\ kittyEnabled d1 = kittyEnabled d /\ quirksEnabled d1 = quirksEnabled d
    /\ physicalModifierState d1 = physicalModifierState d.
Proof.
  intros S. destruct d. cbn in S. subst.
  cbn [feed]. unfold processByte at 1. cbn [bufferPos Decoder.state].
  destruct (_ <? SEQUENCE_BUFFER_SIZE);
    (eexists; split; [vm_compute; reflexivity | repeat split]).
Qed.

Lemma feed_csi_number (d : Decoder) (ds : list Z) :
  state d = idle -> ds <> [] -> Forall isDigitByte ds ->
  digitsValue 0 ds < MAX_CSI_PARAM ->
  exists d1,
    feed' d (27 :: 91 :: ds) = Normal d1 /\ state d1 = csi_param
    /\ params d1 = [digitsValue 0 ds] /\ intermediates d1 = []
    /\ events d1 = events d
    /\ kittyEnabled d1 = kittyEnabled d /\ quirksEnabled d1 = quirksEnabled d
    /\ physicalModifierState d1 = physicalModifierState d.
Proof.
  intros S N D V.
  destruct (feed_csi_intro d S) as (d1 & H1 & S1 & P1 & I1 & E1 & K1 & Q1 & M1).
  destruct ds as [| b ds]; [congruence |].
  apply Forall_cons_1 in D as [Db D].
  change (27 :: 91 :: b :: ds) with ([27; 91] ++ b :: ds).
  rewrite (feed_Normal_app _ _ _ _ H1). cbn [feed].
  (* the first digit, in the [csi] state *)
  unfold processByte at 1. fold (storeByte d1 b).
  destruct (storeByte_sameKeys d1 b) as ((I2 & E2 & K2 & Q2 & M2) & S2 & P2).
  rewrite S2, S1. unfold processCSI.
  unfold isDigitByte in Db.
  replace ((48 <=? b) && (b <=? 57)) with true by lia.
  set (d2 := setParams (setState (storeByte d1 b) csi_param)
               (params (storeByte d1 b) ++ [b - 48])).
  assert (P3 : params d2 = [b - 48]).
  { unfold d2. cbn [params setParams]. now rewrite P2, P1. }
  change (digitsValue 0 (b :: ds)) with (digitsValue (0 * 10 + (b - 48)) ds)
    in *.
  rewrite Z.mul_0_l, Z.add_0_l in *.
  destruct (feed_digits ds d2 (b - 48)) as (d3 & H3 & S3 & P4 & F3);
    [reflexivity | exact P3 | lia | exact D | exact V |].
  exists d3. destruct F3 as (I3 & E3 & K3 & Q3 & M3).
  unfold d2 in I3, E3, K3, Q3, M3.
  cbn [intermediates events kittyEnabled quirksEnabled physicalModifierState
       setParams setState] in I3, E3, K3, Q3, M3.
  repeat split; auto; congruence.
Qed.

Lemma adjustModifiers_none (d : Decoder) : adjustModifiers d noMods = noMods.
Proof.
  unfold adjustModifiers, noMods. cbn [ctrl alt shift meta].
  destruct (quirksEnabled d); [| reflexivity].
  now rewrite !andb_false_r.
Qed.

Lemma handleKittyKeyboard_char (d : Decoder) (cp : Z) (char : jsstr) :
  params d = [cp] -> 32 <= cp -> mapUnicodeToKeyCode cp = None ->
  fromCodePoint cp = Some char ->
  handleKittyKeyboard textDecode terminalType d
  = Normal (emitKey textDecode d (Char char) false noMods (Some press)).
Proof.
  intros P L M F. unfold handleKittyKeyboard. rewrite P. cbv zeta.
  change (1 =? 1) with true. cbv iota.
  replace (cp =? 0) with false by lia.
  replace (cp =? 27) with false.
  2:{ symmetry. apply Z.eqb_neq. intros ->. discriminate M. }
  cbn [andb]. rewrite M.
  replace (32 <=? cp) with true by lia.
  rewrite F.
  change (extractKittyModifiers 1) with noMods.
  now rewrite adjustModifiers_none.
Qed.

Lemma processByte_kitty_final (d : Decoder) (cp : Z) (char : jsstr) :
  state d = csi_param -> params d = [cp] -> intermediates d = [] ->
  32 <= cp -> mapUnicodeToKeyCode cp = None -> fromCodePoint cp = Some char ->
  exists d1 raw,
    processByte' d 117 = Normal d1 /\ state d1 = idle /\ bufferPos d1 = 0
    /\ events d1 =
       events d ++ [KeyEvent (Char char) noMods false (Some press) raw].
Proof.
  intros S P I L M F.
  unfold processByte. fold (storeByte d 117).
  destruct (storeByte_sameKeys d 117) as ((I1 & E1 & K1 & Q1 & M1) & S1 & P1).
  set (d0 := storeByte d 117) in *. clearbody d0.
  rewrite S1, S. unfold processCSIParam.
  change ((48 <=? 117) && (117 <=? 57)) with false.
  change ((117 =? 59) || (117 =? 58)) with false.
  change ((32 <=? 117) && (117 <=? 47)) with false.
  change ((64 <=? 117) && (117 <=? 126)) with true. cbv iota.
  unfold processCSIFinal, handleCSISequence.
  change (fromCharCode 117) with (lit "u").
  unfold finalIs. cbn [final setFinal params intermediates].
  change (bool_decide (lit "u" = lit "~")) with false.
  change (bool_decide (lit "u" = lit "u")) with true.
  rewrite I1, I. cbn [andb bool_decide decide_rel].
  rewrite (handleKittyKeyboard_char _ cp char);
    [| cbn [params setFinal]; congruence | assumption ..].
  eexists. eexists. split.
  - unfold emitKey at 1.
    cbn [state reset setState setBufferPos setParams setIntermediates
         setFinal setOscBuffer setOscParam pushEvent setEvents].
    change (bool_decide (idle = paste)) with false. cbv iota.
    change (bool_decide (Some press = Some repeat)) with false.
    reflexivity.
  - cbn [state bufferPos events reset setState setBufferPos setParams
         setIntermediates setFinal setOscBuffer setOscParam pushEvent
         setEvents].
    change (bool_decide (idle = paste)) with false. cbv iota.
    cbn [state bufferPos events reset setState setBufferPos setParams
         setIntermediates setFinal setOscBuffer setOscParam pushEvent
         setEvents].
    rewrite E1. repeat split.
Qed.

(** *** Properties of the decoder *)

(** X1. The fresh decoder's scratch buffer never changes its size, and the
    position in it stays inside: whatever the bytes fed, the buffer keeps
    its [SEQUENCE_BUFFER_SIZE] slots and [0 <= bufferPos <= 256]. The
    options given to the constructor are never changed. *)
Theorem decoder_buffer_in_bounds (kittyKeyboard quirks : option bool)
  (data : list Z) :
  let d := decoderOf (feed' (newInputDecoder kittyKeyboard quirks) data) in
  Z.of_nat (length (buffer d)) = SEQUENCE_BUFFER_SIZE
  /\ 0 <= bufferPos d <= SEQUENCE_BUFFER_SIZE
  /\ kittyEnabled d = default false kittyKeyboard
  /\ quirksEnabled d = default true quirks.
Proof.
  intros d.
  destruct (feed_steps textDecode base64ToUtf8 terminalType data
              (newInputDecoder kittyKeyboard quirks))
    as (B & P & _ & _ & K & Q).
  fold d in B, P, K, Q.
  split; [rewrite B; reflexivity |].
  split; [apply P; cbn; unfold SEQUENCE_BUFFER_SIZE; lia |].
  split; assumption.
Qed.


(** X3. [feed] only appends to the event queue, and at most one event per
    byte. *)
Theorem feed_appends_events (d : Decoder) (data : list Z) :
  exists new,
    events (decoderOf (feed' d data)) = events d ++ new
    /\ (length new <= length data)%nat.
Proof.
  destruct (feed_steps textDecode base64ToUtf8 terminalType data d)
    as (_ & _ & E & _). exact E.
Qed.

(** X4. [feed] raises only in one place: on the final byte [u] of a CSI
    sequence whose first parameter is above 0x10FFFF
    ([String.fromCodePoint] throws); the decoder is then left inside the
    sequence. Input without the byte [u] never raises; [ESC [ 1114112 u]
    does, with the Kitty protocol on or off. *)
Theorem feed_raises_only_on_code_point (d : Decoder) (data : list Z) :
  (forall d',
     feed' d data = Abrupt d' ->
     final d' = lit "u"
     /\ exists u, params d' !! 0%nat = Some u /\ 1114111 < u)
  /\ (Forall (fun b => b <> 117) data -> exists d', feed' d data = Normal d')
  /\ (forall k q,
        exists d',
          feed' (newInputDecoder k q) (27 :: lit "[1114112u") = Abrupt d').
Proof.
  split; [| split].
  - revert d. induction data as [| b data IH]; intros d d'; cbn [feed];
      [discriminate |].
    destruct (processByte' d b) as [d1 | d1] eqn:H.
    + apply IH.
    + intros E. inversion E. subst d1.
      apply processByte_Abrupt in H as (_ & F & P). auto.
  - revert d. induction data as [| b data IH]; intros d N; cbn [feed];
      [eauto |].
    apply Forall_cons_1 in N as [Nb N].
    destruct (processByte' d b) as [d1 | d1] eqn:H; [apply IH, N |].
    apply processByte_Abrupt in H as (B & _). contradiction.
  - intros [[] |] [[] |]; eexists; vm_compute; reflexivity.
Qed.

(** [feed] called on each chunk in turn, up to the first call that
    raises. *)
Fixpoint feedChunks (d : Decoder) (chunks : list (list Z)) : Completion :=
  match chunks with
  | [] => Normal d
  | chunk :: rest =>
      match feed' d chunk with
      | Normal d1 => feedChunks d1 rest
      | Abrupt d1 => Abrupt d1
      end
  end.

(** X5. Splitting the input into chunks does not matter: feeding the chunks one
    after the other is feeding their concatenation, also when a sequence is
    cut in the middle. *)
Theorem feed_chunks (chunks : list (list Z)) (d : Decoder) :
  feedChunks d chunks = feed' d (concat chunks).
Proof.
  revert d. induction chunks as [| chunk rest IH]; intros d;
    cbn [feedChunks concat]; [reflexivity |].
  rewrite feed_app. destruct (feed' d chunk); [apply IH | reflexivity].
Qed.

(** X6. A bracketed paste comes back as one paste event: from the idle state,
    [ESC [ 200 ~], the content and [ESC [ 201 ~] give exactly the event
    [PasteEvent content] (one code unit per byte) and leave the decoder
    idle, when the content holds no escape byte. *)
Theorem paste_round_trip (d : Decoder) (content : list Z) :
  state d = idle -> Forall isByte content -> ~ In 27 content ->
  exists d',
    feed' d (PASTE_START ++ content ++ PASTE_END) = Normal d'
    /\ state d' = idle
    /\ events d' = events d ++ [PasteEvent content].
Proof.
  intros S B N.
  destruct (feed_paste_start d S) as (d1 & H1 & S1 & P1 & E1 & _).
  destruct (feed_paste_body content d1 [] S1 P1 N B)
    as (d2 & H2 & S2 & P2 & E2).
  destruct (feed_paste_end d2 content S2 P2 N) as (d3 & H3 & S3 & E3 & _).
  exists d3. rewrite (feed_Normal_app _ _ _ _ H1), (feed_Normal_app _ _ _ _ H2).
  split; [exact H3 |]. split; [exact S3 |]. congruence.
Qed.

(** X7. Plain typing, without the Kitty protocol: from the idle state with an
    empty raw buffer, every printable ASCII byte becomes one key event, in
    order, with the byte as character, no modifier and the byte alone as raw
    sequence. *)
Theorem plain_text_keys (text : list Z) : forall d : Decoder,
  state d = idle -> bufferPos d = 0 -> (0 < length (buffer d))%nat ->
  kittyEnabled d = false -> Forall printable text ->
  exists d',
    feed' d text = Normal d' /\ state d' = idle
    /\ events d' =
       events d
       ++ map (fun b => KeyEvent (Char [b]) noMods false None (textDecode [b]))
            text.
Proof.
  induction text as [| b text IH]; intros d S P L K T.
  - exists d. rewrite app_nil_r. auto.
  - apply Forall_cons_1 in T as [Tb T].
    destruct (processByte_printable d b S P L K Tb)
      as (d1 & H1 & S1 & P1 & L1 & K1 & E1).
    destruct (IH d1 S1 P1) as (d2 & H2 & S2 & E2);
      [lia | exact K1 | exact T |].
    exists d2. cbn [feed map]. rewrite H1.
    split; [exact H2 |]. split; [exact S2 |].
    rewrite E2, E1, <- app_assoc. reflexivity.
Qed.

(** X8. With the Kitty protocol on, printable ASCII bytes alone produce no
    event at all: the decoder waits for the report of the key. *)
Theorem kitty_suppresses_text (text : list Z) : forall d : Decoder,
  state d = idle -> kittyEnabled d = true -> Forall printable text ->
  exists d',
    feed' d text = Normal d' /\ state d' = idle /\ events d' = events d.
Proof.
  induction text as [| b text IH]; intros d S K T.
  - exists d. auto.
  - apply Forall_cons_1 in T as [Tb T].
    destruct (processByte_suppressed d b S K Tb) as (d1 & H1 & S1 & K1 & E1).
    destruct (IH d1 S1 K1 T) as (d2 & H2 & S2 & E2).
    exists d2. cbn [feed]. rewrite H1.
    split; [exact H2 |]. split; [exact S2 | congruence].
Qed.

(** X9. The report [ESC [ digits u] of a code point that is no special key: the
    digits are read as a decimal number, and the one event is a press of the
    character [String.fromCodePoint] gives, without modifiers. *)
Theorem kitty_character_report (d : Decoder) (ds : list Z) (char : jsstr) :
  state d = idle -> ds <> [] -> Forall isDigitByte ds ->
  32 <= digitsValue 0 ds ->
  mapUnicodeToKeyCode (digitsValue 0 ds) = None ->
  fromCodePoint (digitsValue 0 ds) = Some char ->
  exists d' raw,
    feed' d (27 :: 91 :: ds ++ [117]) = Normal d' /\ state d' = idle
    /\ events d' =
       events d ++ [KeyEvent (Char char) noMods false (Some press) raw].
Proof.
  intros S N D L M F.
  assert (V : digitsValue 0 ds < MAX_CSI_PARAM).
  { unfold fromCodePoint in F. unfold MAX_CSI_PARAM.
    destruct ((digitsValue 0 ds <? 0) || (1114111 <? digitsValue 0 ds)) eqn:R;
      [discriminate |].
    apply orb_false_iff in R as [_ R]. lia. }
  destruct (feed_csi_number d ds S N D V)
    as (d1 & H1 & S1 & P1 & I1 & E1 & _).
  destruct (processByte_kitty_final d1 _ char S1 P1 I1 L M F)
    as (d2 & raw & H2 & S2 & _ & E2).
  exists d2, raw.
  change (27 :: 91 :: ds ++ [117]) with ((27 :: 91 :: ds) ++ [117]).
  rewrite (feed_Normal_app _ _ _ _ H1). cbn [feed]. rewrite H2.
  split; [reflexivity |]. split; [exact S2 | congruence].
Qed.

End DecoderFeeds.

Section DecoderWitnesses.
Import Events Protocols Features Quirks Decoder.

(** A decoder of raw bytes for the examples: one code unit per byte. *)
Definition latin1 (bytes : list Z) : jsstr := bytes.

Definition freshDecoder : Decoder := newInputDecoder None None.

Lemma paste_round_trip_witness :
  exists d',
    feed latin1 latin1 Unknown freshDecoder
      (PASTE_START ++ lit "hello world" ++ PASTE_END) = Normal d'
    /\ state d' = idle
    /\ events d' = events freshDecoder ++ [PasteEvent (lit "hello world")].
Proof.
  apply (paste_round_trip latin1 latin1 Unknown freshDecoder
           (lit "hello world")).
  - reflexivity.
  - unfold isByte. apply (bool_decide_unpack _). vm_compute. exact I.
  - cbn. intuition discriminate.
Defined.

Lemma plain_text_keys_witness :
  exists d',
    feed latin1 latin1 Unknown freshDecoder (lit "hi") = Normal d'
    /\ state d' = idle
    /\ events d' =
       events freshDecoder
       ++ map (fun b => KeyEvent (Char [b]) noMods false None (latin1 [b]))
            (lit "hi").
Proof.
  apply (plain_text_keys latin1 latin1 Unknown (lit "hi") freshDecoder).
  - reflexivity.
  - reflexivity.
  - apply Nat.ltb_lt. reflexivity.
  - reflexivity.
  - unfold printable. apply (bool_decide_unpack _). vm_compute. exact I.
Defined.

Lemma kitty_suppresses_text_witness :
  exists d',
    feed latin1 latin1 Unknown (newInputDecoder (Some true) None) (lit "hi")
    = Normal d'
    /\ state d' = idle
    /\ events d' = events (newInputDecoder (Some true) None).
Proof.
  apply (kitty_suppresses_text latin1 latin1 Unknown (lit "hi")
           (newInputDecoder (Some true) None)).
  - reflexivity.
  - reflexivity.
  - unfold printable. apply (bool_decide_unpack _). vm_compute. exact I.
Defined.

(** [ESC [ 128512 u]: the code point of an emoji, a surrogate pair. *)
Lemma kitty_character_report_witness :
  exists d' raw,
    feed latin1 latin1 Unknown (newInputDecoder (Some true) None)
      (27 :: 91 :: lit "128512" ++ [117]) = Normal d'
    /\ state d' = idle
    /\ events d' =
       events (newInputDecoder (Some true) None)
       ++ [KeyEvent (Char [55357; 56832]) noMods false (Some press) raw].
Proof.
  apply (kitty_character_report latin1 latin1 Unknown
           (newInputDecoder (Some true) None) (lit "128512")
           [55357; 56832]).
  - reflexivity.
  - discriminate.
  - unfold isDigitByte. apply (bool_decide_unpack _). vm_compute. exact I.
  - vm_compute. discriminate.
  - reflexivity.
  - reflexivity.
Defined.

End DecoderWitnesses.

(** *** The bits of a packed cell *)
Section CellBits.
Import Cell.

Lemma toInt32_mod (z : Z) : toInt32 z mod 4294967296 = z mod 4294967296.
Proof.
  unfold toInt32. destruct (_ && _); [reflexivity |].
  Z.div_mod_to_equations. lia.
Qed.

Lemma toUint32_mod (z : Z) : toUint32 z = z mod 4294967296.
Proof.
  unfold toUint32. destruct (_ && _) eqn:R; [| reflexivity].
  apply andb_true_iff in R as [R1 R2].
  symmetry. apply Z.mod_small. lia.
Qed.

Lemma testbit_toInt32 (z n : Z) :
  0 <= n < 32 -> Z.testbit (toInt32 z) n = Z.testbit z n.
Proof.
  intros H.
  rewrite <- (Z.mod_pow2_bits_low (toInt32 z) 32 n) by lia.
  rewrite <- (Z.mod_pow2_bits_low z 32 n) by lia.
  change (2 ^ 32) with 4294967296. now rewrite toInt32_mod.
Qed.

Lemma testbit_toUint32 (z n : Z) :
  0 <= n ->
  Z.testbit (toUint32 z) n = if n <? 32 then Z.testbit z n else false.
Proof.
  intros H. rewrite toUint32_mod. change 4294967296 with (2 ^ 32).
  destruct (n <? 32) eqn:L.
  - apply Z.mod_pow2_bits_low. lia.
  - apply Z.mod_pow2_bits_high. lia.
Qed.

(** The low [w] bits of [hi << s | lo], for [w <= s < 32]. *)
Lemma low_field (hi lo s w : Z) :
  0 <= w <= s -> s < 32 ->
  Z.land (toInt32 (bor (shl hi s) lo)) (Z.ones w) = lo mod 2 ^ w.
Proof.
  intros W S. rewrite Z.land_ones by lia.
  apply Z.bits_inj'. intros n N.
  destruct (Z.ltb_spec n w) as [L | L].
  - rewrite !Z.mod_pow2_bits_low by lia.
    rewrite testbit_toInt32 by lia. unfold bor, shl.
    rewrite Z.lor_spec, !testbit_toInt32 by lia.
    rewrite Z.mod_small by lia.
    rewrite Z.shiftl_spec_low by lia. reflexivity.
  - rewrite !Z.mod_pow2_bits_high by lia. reflexivity.
Qed.

(** The [w] bits from bit [s] on of [hi << s | lo], for [s + w <= 32]. *)
Lemma high_field (hi lo s w : Z) :
  0 <= s -> 0 <= w -> s + w <= 32 -> s < 32 ->
  Z.land (toInt32 (ushr (bor (shl hi s) lo) s)) (Z.ones w)
  = Z.lor (hi mod 2 ^ w) ((lo / 2 ^ s) mod 2 ^ w).
Proof.
  intros S W SW S32. rewrite Z.land_ones by lia.
  apply Z.bits_inj'. intros n N.
  rewrite Z.lor_spec.
  destruct (Z.ltb_spec n w) as [L | L].
  - rewrite !Z.mod_pow2_bits_low by lia.
    rewrite testbit_toInt32 by lia. unfold ushr.
    rewrite (Z.mod_small s 32) by lia.
    rewrite Z.shiftr_spec by lia.
    rewrite testbit_toUint32 by lia.
    replace (n + s <? 32) with true by lia.
    unfold bor, shl. rewrite Z.lor_spec, !testbit_toInt32 by lia.
    rewrite (Z.mod_small s 32) by lia.
    rewrite Z.shiftl_spec by lia.
    replace (n + s - s) with n by lia.
    rewrite testbit_toInt32 by lia.
    rewrite <- Z.shiftr_div_pow2 by lia.
    rewrite Z.shiftr_spec by lia. reflexivity.
  - rewrite !Z.mod_pow2_bits_high by lia. reflexivity.
Qed.

Lemma band_ones (x w : Z) :
  0 <= w <= 31 -> band x (Z.ones w) = x mod 2 ^ w.
Proof.
  intros W. unfold band.
  assert (R : toInt32 (Z.ones w) = Z.ones w).
  { unfold toInt32.
    assert (0 <= Z.ones w < 2147483648).
    { rewrite Z.ones_equiv. split; [pose proof (Z.pow_pos_nonneg 2 w); lia |].
      assert (2 ^ w <= 2 ^ 31) by (apply Z.pow_le_mono_r; lia).
      change (2 ^ 31) with 2147483648 in *. lia. }
    replace ((-2147483648 <=? Z.ones w) && (Z.ones w <? 2147483648))
      with true by lia.
    reflexivity. }
  rewrite R, Z.land_ones by lia.
  apply Z.bits_inj'. intros n N.
  destruct (Z.ltb_spec n w) as [L | L].
  - rewrite !Z.mod_pow2_bits_low by lia. apply testbit_toInt32. lia.
  - rewrite !Z.mod_pow2_bits_high by lia. reflexivity.
Qed.

Lemma encodeColor_range (c : option Color) : 0 <= encodeColor c <= 65792.
Proof.
  unfold encodeColor, COLOR_NONE, COLOR_PALETTE_START.
  destruct (negb (truthy c)) eqn:T; [lia |].
  destruct c as [[n | s] |]; [| | lia].
  - pose proof (band_255_range n). lia.
  - destruct (matchHexColor s) as [rgb |] eqn:M; [| lia].
    pose proof (band_255_range (shr rgb 16)) as Hr.
    pose proof (band_255_range (shr rgb 8)) as Hg.
    pose proof (band_255_range rgb) as Hb.
    rewrite packRgbColor_565 by assumption.
    Z.div_mod_to_equations. lia.
Qed.

(** The two colour fields of the second word, as they are read back. *)
Lemma unpackBgColor_packCell char attr fg bg :
  unpackBgColor (packCell char attr fg bg)
  = decodeColor (encodeColor bg mod 65536).
Proof.
  unfold unpackBgColor, packCell. cbn [snd]. f_equal.
  unfold band at 1. change (toInt32 65535) with (Z.ones 16).
  apply (low_field (encodeColor fg) (encodeColor bg) 16 16); lia.
Qed.

Lemma unpackFgColor_packCell char attr fg bg :
  unpackFgColor (packCell char attr fg bg)
  = decodeColor
      (Z.lor (encodeColor fg mod 65536) (encodeColor bg / 65536)).
Proof.
  unfold unpackFgColor, packCell. cbn [snd]. f_equal.
  unfold band at 1. change (toInt32 65535) with (Z.ones 16).
  rewrite (high_field (encodeColor fg) (encodeColor bg) 16 16) by lia.
  f_equal. change (2 ^ 16) with 65536.
  pose proof (encodeColor_range bg).
  apply Z.mod_small. Z.div_mod_to_equations. lia.
Qed.

(** *** Properties of the packed cell *)

(** X10. A cell gives back the colours it was packed with (that is, their
    16-bit encodings decoded), whatever the character, the attribute byte
    and the other colour, as long as both encodings fit in 16 bits. *)
Theorem cell_colours_round_trip char attr fg bg :
  encodeColor fg < 65536 -> encodeColor bg < 65536 ->
  unpackFgColor (packCell char attr fg bg) = decodeColor (encodeColor fg)
  /\ unpackBgColor (packCell char attr fg bg) = decodeColor (encodeColor bg).
Proof.
  intros F B.
  pose proof (encodeColor_range fg). pose proof (encodeColor_range bg).
  rewrite unpackFgColor_packCell, unpackBgColor_packCell.
  rewrite (Z.div_small (encodeColor bg)) by lia.
  rewrite Z.lor_0_r, !Z.mod_small by lia. auto.
Qed.

(** X11. The encoding of a truecolor adds 257 to its 5-6-5 value, so a bright
    colour (red of 248 or more, green of 224 or more; [#ffffff] is one)
    needs a 17th bit, which the 16-bit field drops: such a background reads
    back from the cell as the palette colour [32 * (g / 4 - 56) + b / 8],
    not as a truecolor. *)
Theorem cell_bright_colour_truncated char attr fg s rgb r g b :
  matchHexColor s = Some rgb -> channels rgb = (r, g, b) ->
  248 <= r -> 224 <= g ->
  unpackBgColor (packCell char attr fg (Some (Hex s)))
  = Some (Palette (32 * (g / 4 - 56) + b / 8)).
Proof.
  intros M C R G.
  pose proof (channels_range _ _ _ _ C) as (Hr & Hg & Hb).
  rewrite unpackBgColor_packCell, (encodeColor_hex s rgb r g b M C).
  assert (E : (257 + 2048 * (r / 8) + 32 * (g / 4) + b / 8) mod 65536
              = 1 + (32 * (g / 4 - 56) + b / 8)).
  { Z.div_mod_to_equations. lia. }
  rewrite E. unfold decodeColor, COLOR_NONE, COLOR_PALETTE_START.
  assert (0 <= 32 * (g / 4 - 56) + b / 8 <= 255)
    by (Z.div_mod_to_equations; lia).
  replace (1 + (32 * (g / 4 - 56) + b / 8) =? 0) with false by lia.
  replace (1 + (32 * (g / 4 - 56) + b / 8) <=? 1 + 255) with true by lia.
  do 2 f_equal. lia.
Qed.

Lemma codePointAt0_fromCodePoint (cp : Z) (s : jsstr) :
  0 <= cp -> fromCodePoint cp = Some s -> codePointAt0 s = Some cp.
Proof.
  intros N. unfold fromCodePoint.
  destruct ((cp <? 0) || (1114111 <? cp)) eqn:R; [discriminate |].
  apply orb_false_iff in R as [_ R]. apply Z.ltb_ge in R.
  destruct (cp <? 65536) eqn:B; intros [= <-]; unfold codePointAt0.
  - destruct ((55296 <=? cp) && (cp <=? 56319)); reflexivity.
  - apply Z.ltb_ge in B.
    rewrite Z.shiftr_div_pow2 by lia.
    change 1023 with (Z.ones 10). rewrite Z.land_ones by lia.
    change (2 ^ 10) with 1024.
    set (h := 55296 + (cp - 65536) / 1024).
    set (l := 56320 + (cp - 65536) mod 1024).
    assert (H : 55296 <= h <= 56319)
      by (unfold h; Z.div_mod_to_equations; lia).
    assert (L : 56320 <= l <= 57343)
      by (unfold l; Z.div_mod_to_equations; lia).
    replace ((55296 <=? h) && (h <=? 56319)) with true by lia.
    replace ((56320 <=? l) && (l <=? 57343)) with true by lia.
    f_equal. unfold h, l. Z.div_mod_to_equations. lia.
Qed.

(** X12. The first word gives back the character and the attribute byte: for
    every code point from 1 to 0x10FFFF, the cell packed from its string
    unpacks to the same string, and the attribute comes back modulo 256,
    whatever the colours. The empty string is stored as a space. *)
Theorem cell_char_attr_round_trip cp s attr fg bg :
  1 <= cp -> fromCodePoint cp = Some s ->
  unpackChar (packCell s attr fg bg) = Some s
  /\ unpackAttr (packCell s attr fg bg) = attr mod 256
  /\ unpackChar (packCell [] attr fg bg) = Some (lit " ").
Proof.
  intros N F.
  assert (R : cp <= 1114111).
  { unfold fromCodePoint in F.
    destruct ((cp <? 0) || (1114111 <? cp)) eqn:R; [discriminate |].
    apply orb_false_iff in R as [_ R]. lia. }
  assert (C : charCodePoint s = cp).
  { unfold charCodePoint.
    rewrite (codePointAt0_fromCodePoint cp s) by (lia || assumption).
    replace (cp =? 0) with false by lia. reflexivity. }
  assert (M : forall x, 0 <= x < 2097152 -> band x CHAR_MASK = x).
  { intros x X. change CHAR_MASK with (Z.ones 21).
    rewrite band_ones by lia. apply Z.mod_small.
    change (2 ^ 21) with 2097152. lia. }
  assert (U : forall x,
             0 <= x < 2097152 ->
             band (bor (shl (band attr 255) ATTR_SHIFT) (band x CHAR_MASK))
               CHAR_MASK = x).
  { intros x X. unfold band at 1. change (toInt32 CHAR_MASK) with (Z.ones 21).
    unfold ATTR_SHIFT. rewrite low_field by lia.
    rewrite (M x X). apply Z.mod_small. change (2 ^ 21) with 2097152. lia. }
  split; [| split].
  - unfold unpackChar, packCell. cbn [fst]. rewrite C, U by lia. exact F.
  - unfold unpackAttr, packCell. cbn [fst]. rewrite C.
    unfold band at 1. change (toInt32 255) with (Z.ones 8).
    unfold ATTR_SHIFT. rewrite high_field by lia.
    rewrite (M cp) by lia.
    rewrite (Z.div_small cp) by (change (2 ^ 24) with 16777216; lia).
    rewrite Zmod_0_l, Z.lor_0_r.
    change 255 with (Z.ones 8). rewrite band_ones by lia.
    apply Z.mod_mod. lia.
  - unfold unpackChar, packCell. cbn [fst].
    change (charCodePoint []) with 32. rewrite U by lia. reflexivity.
Qed.

(** Encoding what was decoded gives the encoding back, checked on one
    value. *)
Definition reencodes (x : Z) : bool :=
  encodeColor (decodeColor x) =? (if x =? 1 then 0 else x).

Lemma reencodes_all :
  forallb (fun a =>
    forallb (fun b =>
      forallb (fun c => reencodes (2048 * a + 32 * b + c)) (Zrange 0 32))
      (Zrange 0 64))
    (Zrange 0 32) = true.
Proof. vm_compute. reflexivity. Qed.

(** X13. Decoding and encoding again is the identity on the 16-bit encodings
    (what was read from a cell can be written back unchanged), with one
    exception: the encoding 1, palette index 0, comes back as 0, the
    default colour. *)
Theorem encode_decode_fixpoint (x : Z) :
  0 <= x < 65536 ->
  encodeColor (decodeColor x) = if x =? 1 then 0 else x.
Proof.
  intros H. apply Z.eqb_eq.
  pose proof (forallb_Zrange _ _ _ reencodes_all (x / 2048)) as H1.
  cbv beta in H1.
  pose proof (forallb_Zrange _ _ _
                (H1 ltac:(Z.div_mod_to_equations; lia))
                (x / 32 mod 64)) as H2.
  cbv beta in H2.
  pose proof (forallb_Zrange _ _ _
                (H2 ltac:(Z.div_mod_to_equations; lia))
                (x mod 32) ltac:(Z.div_mod_to_equations; lia)) as H3.
  cbv beta in H3.
  replace (2048 * (x / 2048) + 32 * (x / 32 mod 64) + x mod 32) with x in H3
    by (Z.div_mod_to_equations; lia).
  exact H3.
Qed.

End CellBits.

Section CellWitnesses.
Import Cell.

Lemma cell_colours_round_trip_witness :
  unpackFgColor
    (packCell (lit "A") 1 (Some (Hex (lit "#ff8000"))) (Some (Palette 4)))
  = decodeColor (encodeColor (Some (Hex (lit "#ff8000"))))
  /\ unpackBgColor
       (packCell (lit "A") 1 (Some (Hex (lit "#ff8000"))) (Some (Palette 4)))
     = decodeColor (encodeColor (Some (Palette 4))).
Proof.
  apply (cell_colours_round_trip (lit "A") 1 (Some (Hex (lit "#ff8000")))
           (Some (Palette 4))); vm_compute; reflexivity.
Defined.

Lemma cell_bright_colour_truncated_witness :
  unpackBgColor (packCell (lit "A") 0 None (Some (Hex (lit "#ffffff"))))
  = Some (Palette (32 * (255 / 4 - 56) + 255 / 8)).
Proof.
  apply (cell_bright_colour_truncated (lit "A") 0 None (lit "#ffffff")
           16777215 255 255 255); try reflexivity; lia.
Defined.

Lemma cell_char_attr_round_trip_witness :
  unpackChar (packCell [55357; 56832] 300 None None) = Some [55357; 56832]
  /\ unpackAttr (packCell [55357; 56832] 300 None None) = 300 mod 256
  /\ unpackChar (packCell [] 300 None None) = Some (lit " ").
Proof.
  apply (cell_char_attr_round_trip 128512 [55357; 56832] 300 None None);
    [lia | reflexivity].
Defined.

Lemma encode_decode_fixpoint_witness :
  encodeColor (decodeColor 40000) = if 40000 =? 1 then 0 else 40000.
Proof. apply (encode_decode_fixpoint 40000). lia. Defined.

End CellWitnesses.

(** *** The back buffer and the frame differ *)
Section DiffBuffers.
Import Cell Ansi Diff.

Lemma outOfRange_false e row col :
  outOfRange e row col = false <-> 0 <= row < rows e /\ 0 <= col < cols e.
Proof.
  unfold outOfRange. rewrite !orb_false_iff, !Z.ltb_ge, !Z.leb_gt. lia.
Qed.

Lemma curr_in_range e row col :
  wf e -> outOfRange e row col = false ->
  0 <= row * cols e + col < Z.of_nat (length (curr e)).
Proof.
  intros W O. apply outOfRange_false in O as [Hr Hc].
  pose proof (index_in_range e row col W Hr Hc) as H.
  destruct W as (_ & _ & _ & _ & W5 & _). rewrite W5. lia.
Qed.

Lemma index_inj cols0 row col row' col' :
  0 <= col < cols0 -> 0 <= col' < cols0 ->
  row * cols0 + col = row' * cols0 + col' -> row = row' /\ col = col'.
Proof.
  intros Hc Hc' E.
  destruct (Z.lt_trichotomy row row') as [H | [H | H]]; [nia | | nia].
  subst row'. split; [reflexivity | lia].
Qed.

Lemma runHasChanges_in_sync e row startCol endCol :
  wf e -> 0 <= row < rows e -> 0 <= startCol -> endCol <= cols e ->
  prev e = curr e ->
  runHasChanges e row startCol endCol = false.
Proof.
  intros W Hr Hs He P. unfold runHasChanges. cbv zeta.
  apply not_true_iff_false. intros H.
  apply existsb_exists in H as (c & Hin & Hc).
  apply colRange_In in Hin. rewrite P in Hc.
  destruct (readCell_in_range (curr e) (row * cols e + c)) as [cell Hcell].
  { pose proof (index_in_range e row c W Hr ltac:(lia)) as H.
    destruct W as (_ & _ & _ & _ & W5 & _). rewrite W5. lia. }
  rewrite Hcell in Hc.
  rewrite (proj2 (cellEquals_eq cell cell) eq_refl) in Hc. discriminate.
Qed.

Lemma rowLoop_in_sync fuel : forall e cache f row col,
  wf e -> 0 <= row < rows e -> 0 <= col ->
  (Z.to_nat (cols e - col) <= fuel)%nat ->
  prev e = curr e ->
  rowLoop fuel e cache f row col = (Ok f, e, cache).
Proof.
  induction fuel as [| fuel IH]; intros e cache f row col W Hrow Hcol Hfuel P;
    cbn [rowLoop]; destruct (col <? cols e) eqn:E;
    try (apply Z.ltb_lt in E; lia); try reflexivity.
  apply Z.ltb_lt in E.
  destruct (readCell_in_range (curr e) (row * cols e + col)) as [cell Hcell].
  { pose proof (index_in_range e row col W Hrow ltac:(lia)) as H.
    destruct W as (_ & _ & _ & _ & W5 & _). rewrite W5. lia. }
  rewrite Hcell.
  pose proof (findRunEnd_bounds e row col cell ltac:(lia) Hcell) as Hrun.
  rewrite runHasChanges_in_sync by (try assumption; lia).
  apply IH; try assumption; lia.
Qed.

Lemma rowsLoop_in_sync rowList : forall e cache f,
  wf e -> (forall row, In row rowList -> 0 <= row < rows e) ->
  prev e = curr e ->
  exists d, length d = length (dirty e) /\
            rowsLoop rowList e cache f = (Ok f, setDirty e d, cache).
Proof.
  induction rowList as [| row rest IH]; intros e cache f W Hrows P;
    cbn [rowsLoop].
  - exists (dirty e). split; [reflexivity |]. destruct e; reflexivity.
  - destruct (isDirty e row); cbn [negb].
    + rewrite rowLoop_in_sync; try assumption; try lia.
      2: apply Hrows; left; reflexivity.
      set (e1 := setDirty e _).
      destruct (IH e1 cache f) as (d & Ld & Hd).
      * destruct W as (W1 & W2 & W3 & W4 & W5 & W6).
        unfold e1, wf. cbn. rewrite length_insert. repeat split; assumption.
      * intros r Hr. apply Hrows. right. exact Hr.
      * exact P.
      * exists d. split.
        -- rewrite Ld. unfold e1. cbn. apply length_insert.
        -- rewrite Hd. reflexivity.
    + apply IH; try assumption. intros r Hr. apply Hrows. right. exact Hr.
Qed.

Lemma computeDiff_synced e cache :
  wf e -> prev e = curr e ->
  exists d, length d = length (dirty e) /\
            computeDiff e cache
            = (Ok [], setDirty (setAnsi e (mkAnsiState 0 None None) false) d,
               cache).
Proof.
  intros W P. unfold computeDiff. cbv zeta.
  set (e0 := setAnsi e _ _).
  destruct (rowsLoop_in_sync (colRange 0 (rows e0)) e0 cache
              (mkFrame [] (-1) (-1)) W
              ltac:(intros row Hr; apply colRange_In in Hr; exact Hr) P)
    as (d & Ld & Hd).
  rewrite Hd. exists d. split; [exact Ld | reflexivity].
Qed.

(** X14. When the front buffer already equals the back buffer, [computeDiff]
    returns the empty string whatever the dirty flags say, and leaves both
    buffers and the colour cache as they were. Flagging rows dirty
    ([markDirty], [markAllDirty], a [resize]) therefore repaints nothing
    by itself. *)
Theorem computeDiff_in_sync (e : DiffEngine) (cache : ColorCache) :
  wf e -> prev e = curr e ->
  exists e', computeDiff e cache = (Ok [], e', cache)
             /\ prev e' = prev e /\ curr e' = curr e
             /\ forall row, 0 <= row < rows e -> isDirty e' row = false.
Proof.
  intros W P.
  pose proof (computeDiff_spec e cache) as S.
  destruct (computeDiff_synced e cache W P) as (d & Ld & Hd).
  rewrite Hd in S. cbn [fst snd diffPost] in S.
  eexists. split; [exact Hd |]. split; [reflexivity |].
  split; [reflexivity |].
  apply S. split; [exact W |].
  intros row Hr _ col Hc. rewrite P. reflexivity.
Qed.

Lemma getCell_setCell e row col cell row' col' :
  wf e ->
  getCell (setCell e row col cell) row' col'
  = if bool_decide (row' = row /\ col' = col) && negb (outOfRange e row col)
    then cell else getCell e row' col'.
Proof.
  intros W. unfold setCell.
  destruct (outOfRange e row col) eqn:O;
    [rewrite andb_false_r; reflexivity |].
  rewrite andb_true_r.
  pose proof (curr_in_range e row col W O) as Hidx.
  destruct (readCell_in_range (curr e) _ Hidx) as [current Hcur].
  unfold storeCell. cbv zeta. rewrite Hcur.
  destruct (cellEquals current cell) eqn:CE.
  - apply cellEquals_eq in CE. subst current.
    case_bool_decide as B; [| reflexivity].
    destruct B as [-> ->]. unfold getCell. rewrite O, Hcur. reflexivity.
  - assert (G : forall x, getCell (markDirty x row) row' col' = getCell x row' col').
    { intros x. unfold markDirty. destruct (_ && _); reflexivity. }
    rewrite G. unfold getCell, outOfRange. cbn [rows cols curr setCurr].
    fold (outOfRange e row' col').
    destruct (outOfRange e row' col') eqn:O'.
    + case_bool_decide as B; [| reflexivity].
      destruct B as [-> ->]. congruence.
    + rewrite readCell_insert by lia.
      apply outOfRange_false in O as [Hr Hc], O' as [Hr' Hc'].
      case_bool_decide as B; case_bool_decide as B'; try reflexivity.
      * exfalso. apply B'. destruct B as [B _].
        apply index_inj in B; assumption.
      * exfalso. apply B. destruct B' as [-> ->]. split; [reflexivity | lia].
Qed.

Lemma setCell_unchanged (e : DiffEngine) (row col : Z) :
  wf e -> setCell e row col (getCell e row col) = e.
Proof.
  intros W. unfold setCell, getCell.
  destruct (outOfRange e row col) eqn:O; [reflexivity |].
  pose proof (curr_in_range e row col W O) as Hidx.
  destruct (readCell_in_range (curr e) _ Hidx) as [current Hcur].
  unfold storeCell. cbv zeta. rewrite Hcur.
  rewrite (proj2 (cellEquals_eq current current) eq_refl). reflexivity.
Qed.

(** X15. A cell written with [setCell] is the cell [getCell] returns at that
    position, and every other position reads as before; a write outside of
    the grid changes nothing; a write that changes the content of a cell
    flags its row dirty, and one that writes the content the cell already
    has changes nothing, not even the dirty flag. *)
Theorem setCell_getCell (e : DiffEngine) (row col : Z) (cell : Cell)
  (row' col' : Z) :
  wf e ->
  getCell (setCell e row col cell) row' col'
  = (if bool_decide (row' = row /\ col' = col) && negb (outOfRange e row col)
     then cell else getCell e row' col')
  /\ (outOfRange e row col = true -> setCell e row col cell = e)
  /\ (outOfRange e row col = false -> getCell e row col <> cell ->
      isDirty (setCell e row col cell) row = true)
  /\ (getCell e row col = cell -> setCell e row col cell = e).
Proof.
  intros W. split; [apply getCell_setCell, W |]. split; [| split].
  - intros O. unfold setCell. rewrite O. reflexivity.
  - intros O Hne. unfold setCell, getCell in *. rewrite O in *.
    pose proof (curr_in_range e row col W O) as Hidx.
    destruct (readCell_in_range (curr e) _ Hidx) as [current Hcur].
    unfold storeCell. cbv zeta. rewrite Hcur in *.
    destruct (cellEquals current cell) eqn:CE;
      [apply cellEquals_eq in CE; contradiction |].
    apply outOfRange_false in O as [Hr Hc].
    unfold markDirty. cbn [rows setCurr].
    rewrite (proj2 (andb_true_iff _ _))
      by (split; [apply Z.leb_le | apply Z.ltb_lt]; lia).
    change (dirty (setCurr e ?x)) with (dirty e).
    pose proof (isDirty_insert (setCurr e (<[Z.to_nat (row * cols e + col) := cell]> (curr e)))
                  row row 1 ltac:(lia)) as D.
    cbn [dirty setCurr] in D. rewrite D.
    destruct W as (W1 & W2 & W3 & W4 & W5 & W6).
    rewrite bool_decide_eq_true_2 by (split; [reflexivity | lia]).
    reflexivity.
  - intros <-. apply setCell_unchanged, W.
Qed.

(** X16. After [clear] every position of the grid reads as the empty cell and
    every row is flagged dirty. *)
Theorem clear_empties (e : DiffEngine) (row col : Z) :
  wf e ->
  getCell (clear e) row col = emptyCell
  /\ (0 <= row < rows e -> isDirty (clear e) row = true).
Proof.
  intros W. split.
  - unfold getCell, clear, markAllDirty, outOfRange.
    cbn [rows cols curr setCurr setDirty].
    fold (outOfRange e row col).
    destruct (outOfRange e row col) eqn:O; [reflexivity |].
    pose proof (curr_in_range e row col W O) as Hidx.
    destruct W as (W1 & W2 & W3 & W4 & W5 & W6).
    unfold readCell, fillFirst.
    rewrite (proj2 (Z.ltb_ge _ _)) by lia.
    rewrite lookup_app_l by (rewrite length_replicate; lia).
    rewrite lookup_replicate_2 by lia. reflexivity.
  - intros Hr. unfold clear. apply isDirty_markAllDirty.
    destruct W as (W1 & W2 & W3 & W4 & W5 & W6). cbn. lia.
Qed.

(** **** The colour cache stays small *)

(** What every cache built by [getCachedColorSequence] satisfies. *)
Definition cacheBounded (cache : ColorCache) : Prop :=
  Z.of_nat (length cache) <= MAX_CACHE_SIZE
  /\ Forall (fun kv => kv.1 <> []) cache.

Lemma cacheSet_length cache key value :
  (length (cacheSet cache key value) <= S (length cache))%nat.
Proof.
  induction cache as [| [k v] rest IH]; cbn; [lia |].
  case_bool_decide; cbn; lia.
Qed.

Lemma cacheSet_keys cache key value :
  key <> [] -> Forall (fun kv => kv.1 <> []) cache ->
  Forall (fun kv : jsstr * jsstr => kv.1 <> []) (cacheSet cache key value).
Proof.
  intros K. induction cache as [| [k v] rest IH]; cbn; intros F.
  - apply Forall_cons_2; [exact K | apply Forall_nil_2].
  - apply Forall_cons_1 in F as [F1 F2].
    case_bool_decide; apply Forall_cons_2; auto.
Qed.

Lemma cacheKey_nonempty fg bg r : cacheKey fg bg r <> [].
Proof.
  unfold cacheKey. intros H. apply (f_equal (@length Z)) in H.
  rewrite !length_app in H. cbn in H. lia.
Qed.

Lemma getCachedColorSequence_bounded fg bg r cache :
  cacheBounded cache -> cacheBounded (getCachedColorSequence fg bg r cache).2.
Proof.
  intros [L K]. unfold getCachedColorSequence. cbv zeta.
  assert (M : cacheBounded
                (cacheSet
                   (if MAX_CACHE_SIZE <=? Z.of_nat (length cache)
                    then match cache with
                         | (firstKey, _) :: rest =>
                             match firstKey with [] => cache | _ => rest end
                         | [] => cache
                         end
                    else cache)
                   (cacheKey fg bg r) (buildColorSequence fg bg r))).
  { destruct (MAX_CACHE_SIZE <=? Z.of_nat (length cache)) eqn:E.
    - destruct cache as [| [k v] rest].
      + split; [cbn; unfold MAX_CACHE_SIZE; lia |].
        apply cacheSet_keys; [apply cacheKey_nonempty | exact K].
      + apply Forall_cons_1 in K as [K1 K2]. cbn [fst] in K1.
        destruct k as [| c k]; [congruence |].
        split.
        * pose proof (cacheSet_length rest (cacheKey fg bg r)
                        (buildColorSequence fg bg r)).
          cbn [length] in L. lia.
        * apply cacheSet_keys; [apply cacheKey_nonempty | exact K2].
    - apply Z.leb_gt in E. split.
      + pose proof (cacheSet_length cache (cacheKey fg bg r)
                      (buildColorSequence fg bg r)). lia.
      + apply cacheSet_keys; [apply cacheKey_nonempty | exact K]. }
  destruct (cacheGet cache (cacheKey fg bg r)) as [[| c cached] |];
    cbn [snd]; try exact M. split; assumption.
Qed.

Lemma generateStateChange_bounded e cache a f b :
  cacheBounded cache -> cacheBounded (generateStateChange e cache a f b).2.
Proof.
  intros B. unfold generateStateChange. cbv zeta.
  destruct (negb _); [exact B |].
  destruct (_ && _ && _); [exact B |].
  destruct (_ && _); [| exact B].
  pose proof (getCachedColorSequence_bounded
                (if negb (bool_decide (fg (ansiState e) = f)) then f
                 else fg (ansiState e))
                (if negb (bool_decide (bg (ansiState e) = b))
                    || (negb (bool_decide (bg (ansiState e) = None))
                        && bool_decide (b = None)
                        || hasSetBackground e && bool_decide (b = None)
                           && bool_decide (bg (ansiState e) = None))
                 then b else bg (ansiState e))
                (negb (bool_decide (bg (ansiState e) = None))
                 && bool_decide (b = None)
                 || hasSetBackground e && bool_decide (b = None)
                    && bool_decide (bg (ansiState e) = None))
                cache B) as G.
  destruct (getCachedColorSequence _ _ _ cache). exact G.
Qed.

Lemma outputRun_bounded e cache row s t a f b :
  cacheBounded cache -> cacheBounded (outputRun e cache row s t a f b).2.
Proof.
  intros B. unfold outputRun. cbv zeta.
  pose proof (generateStateChange_bounded e cache a f b B) as G.
  destruct (generateStateChange e cache a f b) as [[sc e1] c1].
  destruct (runChars _ _ _); exact G.
Qed.

Lemma rowLoop_bounded fuel : forall e cache f row col,
  cacheBounded cache -> cacheBounded (rowLoop fuel e cache f row col).2.
Proof.
  induction fuel as [| fuel IH]; intros e cache f row col B; cbn [rowLoop];
    destruct (col <? cols e); try exact B.
  destruct (readCell _ _) as [cell |]; [| exact B].
  destruct (runHasChanges _ _ _ _); [| apply IH, B].
  match goal with
  | |- context [outputRun e cache row col ?t ?a ?fg ?bg] =>
      pose proof (outputRun_bounded e cache row col t a fg bg B) as G;
      destruct (outputRun e cache row col t a fg bg) as [[[run |] e1] c1]
  end; [apply IH, G | exact G].
Qed.

Lemma rowsLoop_bounded rowList : forall e cache f,
  cacheBounded cache -> cacheBounded (rowsLoop rowList e cache f).2.
Proof.
  induction rowList as [| row rest IH]; intros e cache f B; cbn [rowsLoop];
    [exact B |].
  destruct (negb _); [apply IH, B |].
  pose proof (rowLoop_bounded (Z.to_nat (cols e)) e cache f row 0 B) as G.
  destruct (rowLoop _ e cache f row 0) as [[[f1 | | |] e1] c1];
    try exact G. apply IH, G.
Qed.

Lemma computeDiff_bounded e cache :
  cacheBounded cache -> cacheBounded (computeDiff e cache).2.
Proof.
  intros B. unfold computeDiff. cbv zeta.
  match goal with
  | |- context [rowsLoop ?l ?e0 cache ?f] =>
      pose proof (rowsLoop_bounded l e0 cache f B) as G;
      destruct (rowsLoop l e0 cache f) as [[[f1 | | |] e1] c1]
  end; exact G.
Qed.

(** The colour cache after the frames of [engines] have been computed one
    after the other. *)
Fixpoint cacheAfter (engines : list DiffEngine) (cache : ColorCache)
  : ColorCache :=
  match engines with
  | [] => cache
  | e :: rest => cacheAfter rest (computeDiff e cache).2
  end.

(** X17. The colour cache starts empty and never holds more than
    [MAX_CACHE_SIZE] entries, whatever frames are computed. *)
Theorem color_cache_bounded (engines : list DiffEngine) :
  Z.of_nat (length (cacheAfter engines [])) <= MAX_CACHE_SIZE.
Proof.
  assert (G : forall cache, cacheBounded cache ->
                            cacheBounded (cacheAfter engines cache)).
  { induction engines as [| e rest IH]; intros cache B; cbn [cacheAfter];
      [exact B |].
    apply IH, computeDiff_bounded, B. }
  apply G. split; [cbn; unfold MAX_CACHE_SIZE; lia | apply Forall_nil_2].
Qed.

End DiffBuffers.

Section DiffWitnesses.
Import Cell Ansi Diff.

(** A 2-by-2 engine after one frame, with every row flagged again. *)
Definition repaintedEngine : DiffEngine :=
  markAllDirty (computeDiff engine2x2 []).1.2.

Lemma engine2x2_wf : wf engine2x2.
Proof. unfold wf. vm_compute. repeat split; try reflexivity; discriminate. Qed.

Lemma computeDiff_in_sync_witness :
  isDirty repaintedEngine 0 = true /\
  exists e', computeDiff repaintedEngine [] = (Ok [], e', [])
             /\ prev e' = prev repaintedEngine
             /\ curr e' = curr repaintedEngine
             /\ forall row, 0 <= row < rows repaintedEngine ->
                            isDirty e' row = false.
Proof.
  split; [reflexivity |].
  apply (computeDiff_in_sync repaintedEngine []).
  - unfold wf. vm_compute. repeat split; try reflexivity; discriminate.
  - vm_compute. reflexivity.
Defined.

Lemma setCell_getCell_witness :
  getCell (setCell engine2x2 1 1 (packCell (lit "z") 0 None None)) 1 1
  = packCell (lit "z") 0 None None.
Proof.
  apply (proj1 (setCell_getCell engine2x2 1 1 (packCell (lit "z") 0 None None)
                  1 1 engine2x2_wf)).
Defined.

Lemma clear_empties_witness :
  getCell (clear engine2x2) 0 1 = emptyCell
  /\ (0 <= 0 < rows engine2x2 -> isDirty (clear engine2x2) 0 = true).
Proof.
  apply (clear_empties engine2x2 0 1).
  unfold wf. vm_compute. repeat split; try reflexivity; discriminate.
Defined.

End DiffWitnesses.

(** *** Attribute bytes and their sequences *)
Section AnsiAttributes.
Import Cell Ansi Diff.

Lemma join_cons sep p ps :
  exists rest, join sep (p :: ps) = p ++ rest.
Proof.
  destruct ps as [| q ps]; cbn [join].
  - exists []. rewrite app_nil_r. reflexivity.
  - eexists. reflexivity.
Qed.

(** The attribute part of a sequence opens with the reset code. *)
Lemma attribute_part_resets (a : Attributes) :
  exists q,
    (if 0 <? attributesToByte a
     then [match ATTR_LUT (attributesToByte a) with
           | Some s => slice2m1 s
           | None => []
           end]
     else [lit "0"]) = [lit "0" ++ q].
Proof.
  destruct a as [b i d u r s f g].
  destruct b, i, d, u, r, s; eexists; cbv; reflexivity.
Qed.

(** X18. The attribute byte is the six flags, one bit each: it stays below 64,
    every flag is read back from its bit, and the sequence built from the
    flags read back (as the full-change branch of [generateStateChange]
    does) is the sequence built from the attributes themselves. *)
Theorem attribute_byte_round_trip (a : Attributes) :
  0 <= attributesToByte a < 64
  /\ hasBit (attributesToByte a) ATTR_BOLD = bold a
  /\ hasBit (attributesToByte a) ATTR_DIM = dim a
  /\ hasBit (attributesToByte a) ATTR_ITALIC = italic a
  /\ hasBit (attributesToByte a) ATTR_UNDERLINE = underline a
  /\ hasBit (attributesToByte a) ATTR_REVERSE = reverse a
  /\ hasBit (attributesToByte a) ATTR_STRIKETHROUGH = strikethrough a
  /\ buildAnsiSequence
       (attributesOfState (attributesToByte a) (Ansi.fg a) (Ansi.bg a))
     = buildAnsiSequence a.
Proof.
  assert (B : 0 <= attributesToByte a < 64
    /\ hasBit (attributesToByte a) ATTR_BOLD = bold a
    /\ hasBit (attributesToByte a) ATTR_DIM = dim a
    /\ hasBit (attributesToByte a) ATTR_ITALIC = italic a
    /\ hasBit (attributesToByte a) ATTR_UNDERLINE = underline a
    /\ hasBit (attributesToByte a) ATTR_REVERSE = reverse a
    /\ hasBit (attributesToByte a) ATTR_STRIKETHROUGH = strikethrough a).
  { destruct a as [b i d u r s f g].
    destruct b, i, d, u, r, s; cbv; repeat split; congruence. }
  destruct B as (B0 & B1 & B2 & B3 & B4 & B5 & B6).
  repeat split; try assumption; try lia.
  unfold attributesOfState, buildAnsiSequence, ansiSequenceParts. cbv zeta.
  unfold ATTR_BOLD, ATTR_DIM, ATTR_ITALIC, ATTR_UNDERLINE, ATTR_REVERSE,
    ATTR_STRIKETHROUGH in B1, B2, B3, B4, B5, B6.
  rewrite B1, B2, B3, B4, B5, B6. cbn [Ansi.fg Ansi.bg].
  replace (attributesToByte
             (mkAttributes (bold a) (italic a) (dim a) (underline a)
                (reverse a) (strikethrough a)
                (if truthy (Ansi.fg a) then Ansi.fg a else None)
                (if truthy (Ansi.bg a) then Ansi.bg a else None)))
    with (attributesToByte a) by (destruct a; reflexivity).
  fold (norm (Ansi.fg a)). fold (norm (Ansi.bg a)).
  rewrite !colorParts_norm. reflexivity.
Qed.

(** X19. Every sequence [buildAnsiSequence] builds opens with [ESC [ 0] and ends
    with [m]: the attributes are always set from a reset, and the empty
    result the last line of the function provides for never occurs. *)
Theorem buildAnsiSequence_resets_first (a : Attributes) :
  exists rest, buildAnsiSequence a = ESC ++ lit "0" ++ rest ++ lit "m".
Proof.
  unfold buildAnsiSequence, ansiSequenceParts. cbv zeta.
  destruct (attribute_part_resets a) as [q Hq].
  rewrite Hq. cbn [app].
  destruct (join_cons (lit ";") (lit "0" ++ q)
              (colorParts (Ansi.fg a) false ++ colorParts (Ansi.bg a) true))
    as [rest Hrest].
  unfold sgrSequence. rewrite Hrest.
  exists (q ++ rest). rewrite <- !app_assoc. reflexivity.
Qed.

End AnsiAttributes.

(** *** The output buffer *)
Section OutputStream.
Import Terminal.




Lemma flush_stream t :
  sent (flush t) ++ pending (flush t) = sent t ++ pending t
  /\ highWaterMark (flush t) = highWaterMark t.
Proof.
  unfold flush. destruct (length (pending t) =? 0)%nat; cbn;
    [| rewrite app_nil_r]; split; reflexivity.
Qed.

Lemma write_stream t data :
  sent (write t data) ++ pending (write t data) = sent t ++ pending t ++ data
  /\ highWaterMark (write t data) = highWaterMark t.
Proof.
  unfold write. cbv zeta.
  destruct (highWaterMark t <? _).
  - destruct (flush_stream t) as [F H]. cbn.
    rewrite app_assoc, F, H, <- app_assoc. split; reflexivity.
  - cbn. split; reflexivity.
Qed.


(** X21. After a write the pending string is no longer than the high-water mark,
    unless the data written is: such data is kept pending as a whole, after
    everything before it was sent. *)
Theorem pending_within_mark (t : Terminal) (data : jsstr) :
  Z.of_nat (length (pending (write t data)))
    <= Z.max (highWaterMark t) (Z.of_nat (length data))
  /\ (highWaterMark t < Z.of_nat (length data) ->
      pending (write t data) = data /\
      sent (write t data) = sent t ++ pending t).
Proof.
  unfold write, flush. cbv zeta. split.
  - destruct (highWaterMark t <? _) eqn:E.
    + destruct (length (pending t) =? 0)%nat eqn:L; cbn.
      * apply Nat.eqb_eq in L. rewrite length_app, L. lia.
      * lia.
    + apply Z.ltb_ge in E. cbn. rewrite length_app. lia.
  - intros H.
    rewrite (proj2 (Z.ltb_lt _ _)) by lia.
    destruct (length (pending t) =? 0)%nat eqn:L; cbn.
    + apply Nat.eqb_eq in L. destruct (pending t); [| discriminate].
      rewrite app_nil_r. split; reflexivity.
    + split; reflexivity.
Qed.

End OutputStream.

Section OutputWitnesses.
Import Terminal.

Lemma pending_within_mark_witness :
  pending (write (mkTerminal (lit "ab") 4 []) (lit "hello")) = lit "hello"
  /\ sent (write (mkTerminal (lit "ab") 4 []) (lit "hello")) = lit "ab".
Proof.
  apply (pending_within_mark (mkTerminal (lit "ab") 4 []) (lit "hello")).
  cbn. lia.
Defined.

End OutputWitnesses.

(** *** Text on the screen *)
Section TerminalScreen.
Import Js Cell Ansi Diff TerminalClass.

(** The cell [setCellWithAttrs] stores for a character. *)
Definition cellOf (char : jsstr) (attrs : option Attributes) : Cell :=
  packCell char
    (match attrs with Some a => attributesToByte a | None => 0 end)
    (match attrs with Some a => Ansi.fg a | None => None end)
    (match attrs with Some a => Ansi.bg a | None => None end).

Lemma setCellWithAttrs_setCell e row col char attrs :
  setCellWithAttrs e row col char attrs = setCell e row col (cellOf char attrs).
Proof. reflexivity. Qed.

Lemma wf_setCell e row col cell : wf e -> wf (setCell e row col cell).
Proof.
  intros W. unfold setCell. destruct (outOfRange e row col); [exact W |].
  unfold storeCell. cbv zeta.
  destruct (match readCell _ _ with Some _ => _ | None => _ end); [exact W |].
  destruct W as (W1 & W2 & W3 & W4 & W5 & W6).
  unfold markDirty. cbn [rows setCurr].
  destruct (_ && _); unfold wf; cbn; rewrite ?length_insert;
    repeat split; assumption.
Qed.

Lemma setCell_dims e row col cell :
  rows (setCell e row col cell) = rows e /\
  cols (setCell e row col cell) = cols e.
Proof.
  unfold setCell. destruct (outOfRange e row col); [split; reflexivity |].
  unfold storeCell. cbv zeta.
  destruct (match readCell _ _ with Some _ => _ | None => _ end);
    [split; reflexivity |].
  unfold markDirty. cbn [rows setCurr]. destruct (_ && _); split; reflexivity.
Qed.

(** The position is inside the terminal as [putText] sees it and inside
    the grid of the engine. *)
Definition onScreen (t : Terminal) (row col : Z) : bool :=
  negb ((col <? 0) || (_cols t <=? col) || (row <? 0) || (_rows t <=? row))
  && negb (outOfRange (diffEngine t) row col).

Lemma putText_loop_cells chars : forall t row currentCol attrs r c,
  wf (diffEngine t) ->
  getCell (diffEngine (putText_loop chars t row currentCol attrs)) r c
  = if bool_decide (r = row /\ currentCol <= c) && onScreen t r c
    then match chars !! Z.to_nat (c - currentCol) with
         | Some char => cellOf char attrs
         | None => getCell (diffEngine t) r c
         end
    else getCell (diffEngine t) r c.
Proof.
  induction chars as [| char rest IH]; intros t row currentCol attrs r c W;
    cbn [putText_loop].
  - rewrite lookup_nil. destruct (_ && _); reflexivity.
  - set (outside := (currentCol <? 0) || (_cols t <=? currentCol)
                    || (row <? 0) || (_rows t <=? row)).
    assert (Hnext : currentCol < c ->
                    (char :: rest) !! Z.to_nat (c - currentCol)
                    = rest !! Z.to_nat (c - (currentCol + 1))).
    { intros H.
      replace (Z.to_nat (c - currentCol))
        with (S (Z.to_nat (c - (currentCol + 1)))) by lia.
      reflexivity. }
    assert (Hhere : (char :: rest) !! Z.to_nat (currentCol - currentCol)
                    = Some char).
    { replace (Z.to_nat (currentCol - currentCol)) with 0%nat by lia.
      reflexivity. }
    destruct outside eqn:O.
    + rewrite IH by exact W.
      destruct (decide (r = row /\ currentCol < c)) as [[-> Hc] | Hn].
      * rewrite (bool_decide_eq_true_2 (row = row /\ currentCol + 1 <= c))
          by (split; [reflexivity | lia]).
        rewrite (bool_decide_eq_true_2 (row = row /\ currentCol <= c))
          by (split; [reflexivity | lia]).
        rewrite Hnext by exact Hc. reflexivity.
      * rewrite (bool_decide_eq_false_2 (r = row /\ currentCol + 1 <= c))
          by lia.
        cbn [andb].
        destruct (decide (r = row /\ c = currentCol)) as [[-> ->] | Hn'].
        -- unfold onScreen. fold outside. rewrite O. cbn [negb andb].
           rewrite andb_false_r. reflexivity.
        -- rewrite bool_decide_eq_false_2 by lia. reflexivity.
    + set (t1 := setDiffEngine t _).
      assert (W1 : wf (diffEngine t1))
        by (unfold t1; cbn; rewrite setCellWithAttrs_setCell;
            apply wf_setCell, W).
      rewrite IH by exact W1.
      assert (V1 : onScreen t1 r c = onScreen t r c).
      { unfold onScreen, t1, outOfRange. cbn.
        rewrite setCellWithAttrs_setCell.
        destruct (setCell_dims (diffEngine t) row currentCol
                    (cellOf char attrs)) as [-> ->]. reflexivity. }
      rewrite V1.
      assert (G : getCell (diffEngine t1) r c
                  = if bool_decide (r = row /\ c = currentCol)
                       && negb (outOfRange (diffEngine t) row currentCol)
                    then cellOf char attrs
                    else getCell (diffEngine t) r c).
      { unfold t1. cbn. rewrite setCellWithAttrs_setCell.
        apply getCell_setCell. exact W. }
      rewrite G. clear G V1.
      destruct (decide (r = row /\ currentCol < c)) as [[-> Hc] | Hn].
      * rewrite (bool_decide_eq_true_2 (row = row /\ currentCol + 1 <= c))
          by (split; [reflexivity | lia]).
        rewrite (bool_decide_eq_true_2 (row = row /\ currentCol <= c))
          by (split; [reflexivity | lia]).
        rewrite (bool_decide_eq_false_2 (row = row /\ c = currentCol)) by lia.
        rewrite Hnext by exact Hc. cbn [andb]. reflexivity.
      * rewrite (bool_decide_eq_false_2 (r = row /\ currentCol + 1 <= c))
          by lia.
        cbn [andb].
        destruct (decide (r = row /\ c = currentCol)) as [[-> ->] | Hn'].
        -- rewrite (bool_decide_eq_true_2
                      (row = row /\ currentCol = currentCol))
             by (split; reflexivity).
           rewrite (bool_decide_eq_true_2
                      (row = row /\ currentCol <= currentCol))
             by (split; [reflexivity | lia]).
           rewrite Hhere. cbn [andb].
           unfold onScreen. fold outside. rewrite O. cbn [negb andb].
           destruct (outOfRange _ _ _); reflexivity.
        -- rewrite (bool_decide_eq_false_2 (r = row /\ c = currentCol))
             by exact Hn'.
           rewrite (bool_decide_eq_false_2 (r = row /\ currentCol <= c))
             by lia.
           reflexivity.
Qed.

(** X22. [putText] writes the i-th code point of the text at column [col + i]
    of the row, with the attributes given; the code points that fall
    outside of the screen are dropped, and no other cell is touched. *)
Theorem putText_cells (t : Terminal) (row col : Z) (text : jsstr)
  (attrs : option Attributes) (r c : Z) :
  wf (diffEngine t) ->
  getCell (diffEngine (putText t row col text attrs)) r c
  = if bool_decide (r = row /\ col <= c) && onScreen t r c
    then match stringChars text !! Z.to_nat (c - col) with
         | Some char => cellOf char attrs
         | None => getCell (diffEngine t) r c
         end
    else getCell (diffEngine t) r c.
Proof. intros W. apply putText_loop_cells, W. Qed.

(** **** Frames *)

Lemma flush_pending b : Terminal.pending (Terminal.flush b) = [].
Proof.
  unfold Terminal.flush.
  destruct (length (Terminal.pending b) =? 0)%nat eqn:L; [| reflexivity].
  apply Nat.eqb_eq in L. destruct (Terminal.pending b);
    [reflexivity | discriminate].
Qed.

(** What [flush (write b data)] leaves: everything sent, nothing pending. *)
Lemma flush_write b data :
  Terminal.sent (Terminal.flush (Terminal.write b data))
  = Terminal.sent b ++ Terminal.pending b ++ data.
Proof.
  destruct (flush_stream (Terminal.write b data)) as [F _].
  rewrite flush_pending, app_nil_r in F. rewrite F.
  apply write_stream.
Qed.

(** The wrapper of a frame. *)
Definition syncWrapper (t : Terminal) : jsstr :=
  if syncUpdate t then ESC_BEGIN_SYNC ++ ESC_END_SYNC else [].

Lemma render_synced t cache :
  wf (diffEngine t) -> prev (diffEngine t) = curr (diffEngine t) ->
  exists t', render t cache = (Ok tt, t', cache)
    /\ Terminal.sent (buffer t')
         ++ Terminal.pending (buffer t')
       = Terminal.sent (buffer t)
         ++ Terminal.pending (buffer t) ++ syncWrapper t
    /\ (syncUpdate t = true -> Terminal.pending (buffer t') = [])
    /\ (syncUpdate t = false -> buffer t' = buffer t).
Proof.
  intros W P. unfold render. cbv zeta.
  destruct (computeDiff_synced (diffEngine t) cache W P) as (d & _ & ->).
  unfold syncWrapper. destruct (syncUpdate t) eqn:S.
  - eexists. split; [reflexivity |]. cbn [app ESC_BEGIN_SYNC].
    unfold flush, write. cbn [buffer setBuffer setDiffEngine].
    rewrite flush_pending, app_nil_r, flush_write.
    split; [rewrite app_nil_r; reflexivity |].
    split; [reflexivity | discriminate].
  - eexists. split; [reflexivity |]. cbn [app setDiffEngine buffer].
    rewrite app_nil_r.
    split; [reflexivity |]. split; [discriminate | reflexivity].
Qed.

(** X23. A frame in which no cell differs still costs the pair of
    synchronized-update sequences when [syncUpdate] is on (the default):
    [render] sends exactly those and flushes; with [syncUpdate] off it sends
    nothing and leaves the buffer alone. *)
Theorem render_idle (t : Terminal) (cache : ColorCache) :
  wf (diffEngine t) -> prev (diffEngine t) = curr (diffEngine t) ->
  exists t', render t cache = (Ok tt, t', cache)
    /\ Terminal.sent (buffer t')
         ++ Terminal.pending (buffer t')
       = Terminal.sent (buffer t)
         ++ Terminal.pending (buffer t)
         ++ (if syncUpdate t then ESC_BEGIN_SYNC ++ ESC_END_SYNC else [])
    /\ (syncUpdate t = true -> Terminal.pending (buffer t') = [])
    /\ (syncUpdate t = false -> buffer t' = buffer t).
Proof. intros W P. exact (render_synced t cache W P). Qed.

Lemma resize_blank e r c e' :
  resize e r c = Some e' -> negb (rows e =? r) || negb (cols e =? c) = true ->
  wf e' /\ prev e' = curr e' /\ rows e' = r /\ cols e' = c.
Proof.
  unfold resize, allocCells, allocDirty. intros H Hd.
  replace ((r =? rows e) && (c =? cols e)) with false in H
    by (rewrite (Z.eqb_sym r), (Z.eqb_sym c);
        destruct (rows e =? r), (cols e =? c); cbn in *; congruence).
  destruct ((0 <=? r * c) && (r * c <? 4294967296)) eqn:A; [| discriminate].
  destruct (0 <=? r) eqn:B; [| discriminate].
  cbn in H. injection H as <-.
  apply andb_true_iff in A as [A1 A2]. apply Z.leb_le in A1, B.
  unfold wf. cbn. rewrite !length_replicate. repeat split; lia.
Qed.

(** X24. For a terminal whose engine has the terminal's dimensions (as the
    constructor leaves it): when the size has changed, [handleResize] sends
    the three clearing sequences after everything that was pending, emits
    the event with the new size and leaves a blank engine of that size, so
    that the [render] that follows paints no cell. When the size is the same
    it writes nothing and emits nothing. *)
Theorem handleResize_blank (t : Terminal) (d : Dimensions)
  (cache : ColorCache) (t' : Terminal) (event : option ResizeEvent) :
  rows (diffEngine t) = _rows t -> cols (diffEngine t) = _cols t ->
  handleResize t d = (t', Some event) ->
  (_rows t', _cols t') = updateDimensions d
  /\ match event with
     | None =>
         (_rows t', _cols t') = (_rows t, _cols t)
         /\ buffer t' = buffer t /\ diffEngine t' = diffEngine t
     | Some ev =>
         (_rows t', _cols t') <> (_rows t, _cols t)
         /\ ev = mkResizeEvent (_rows t') (_cols t')
         /\ rows (diffEngine t') = _rows t' /\ cols (diffEngine t') = _cols t'
         /\ Terminal.pending (buffer t') = []
         /\ Terminal.sent (buffer t')
            = Terminal.sent (buffer t)
              ++ Terminal.pending (buffer t)
              ++ ESC_CLEAR_SCREEN ++ ESC_HOME ++ 27 :: lit "[J"
         /\ exists t'', render t' cache = (Ok tt, t'', cache)
              /\ Terminal.sent (buffer t'')
                 = Terminal.sent (buffer t') ++ syncWrapper t'
     end.
Proof.
  intros Er Ec.
  unfold handleResize. destruct (updateDimensions d) as [r c].
  destruct (negb (_rows t =? r) || negb (_cols t =? c)) eqn:D.
  - set (t2 := flush _).
    destruct (resize (diffEngine t2) r c) as [e |] eqn:R; [| discriminate].
    intros [= <- <-]. split; [reflexivity |].
    apply resize_blank in R as (W & P & Rr & Rc);
      [| unfold t2; cbn; rewrite Er, Ec; exact D].
    cbn [_rows _cols setDiffEngine diffEngine buffer].
    assert (S2 : Terminal.pending (buffer t2) = []
                 /\ Terminal.sent (buffer t2)
                    = Terminal.sent (buffer t)
                      ++ Terminal.pending (buffer t)
                      ++ ESC_CLEAR_SCREEN ++ ESC_HOME ++ 27 :: lit "[J").
    { unfold t2, flush, write. cbn [buffer setBuffer].
      split; [apply flush_pending |].
      rewrite flush_write, app_assoc.
      rewrite (proj1 (write_stream
                        (Terminal.write (buffer t) ESC_CLEAR_SCREEN)
                        ESC_HOME)).
      rewrite (app_assoc (Terminal.sent _)).
      rewrite (proj1 (write_stream (buffer t) ESC_CLEAR_SCREEN)).
      rewrite <- !app_assoc. reflexivity. }
    destruct S2 as [S2p S2s].
    split; [| split; [reflexivity |]].
    { intros [= E1 E2]. rewrite E1, E2, !Z.eqb_refl in D. discriminate. }
    split; [exact Rr |]. split; [exact Rc |].
    split; [exact S2p |]. split; [exact S2s |].
    destruct (render_synced (setDiffEngine t2 e) cache W P)
      as (t'' & Hr & Hs & Hp1 & Hp2).
    exists t''. split; [exact Hr |].
    cbn [buffer setDiffEngine] in Hs, Hp2. rewrite S2p in Hs. cbn [app] in Hs.
    assert (Terminal.pending (buffer t'') = []) as Hp.
    { destruct (syncUpdate (setDiffEngine t2 e)) eqn:S.
      - apply Hp1. reflexivity.
      - rewrite Hp2 by reflexivity. exact S2p. }
    rewrite Hp, app_nil_r in Hs. exact Hs.
  - intros [= <- <-]. split; [reflexivity |].
    apply orb_false_iff in D as [D1 D2].
    apply negb_false_iff, Z.eqb_eq in D1, D2.
    cbn. repeat split; congruence.
Qed.

End TerminalScreen.

Section TerminalWitnesses.
Import Js Cell Ansi Diff TerminalClass.

(** A terminal of two rows and three columns, as the constructor builds
    it. *)
Definition smallTerminal : Terminal :=
  mkTerminal (Terminal.mkTerminal [] (64 * 1024) [])
             (mkDiffEngine 2 3 6 (replicate 6 emptyCell) (replicate 6 emptyCell)
                           [0; 0] (mkAnsiState 0 None None) false)
             2 3 true.

Lemma smallTerminal_new :
  newTerminal (mkTerminalOptions None None)
              (mkDimensions None (mkStdout (Some 3) (Some 2)))
  = Some smallTerminal.
Proof. reflexivity. Qed.

Lemma smallTerminal_wf : wf (diffEngine smallTerminal).
Proof. unfold wf. vm_compute. repeat split; try reflexivity; discriminate. Qed.

Lemma putText_cells_witness :
  getCell (diffEngine (putText smallTerminal 1 1 (lit "hello") None)) 1 2
  = cellOf (lit "e") None
  /\ getCell (diffEngine (putText smallTerminal 1 1 (lit "hello") None)) 0 2
     = emptyCell.
Proof.
  split.
  - rewrite (putText_cells smallTerminal 1 1 (lit "hello") None 1 2
               smallTerminal_wf).
    reflexivity.
  - rewrite (putText_cells smallTerminal 1 1 (lit "hello") None 0 2
               smallTerminal_wf).
    reflexivity.
Defined.

Lemma render_idle_witness :
  exists t', render smallTerminal [] = (Ok tt, t', [])
    /\ Terminal.sent (buffer t') = ESC_BEGIN_SYNC ++ ESC_END_SYNC.
Proof.
  destruct (render_idle smallTerminal [] smallTerminal_wf eq_refl)
    as (t' & Hr & Hs & Hp & _).
  exists t'. split; [exact Hr |].
  rewrite (Hp eq_refl), app_nil_r in Hs. exact Hs.
Defined.

Lemma handleResize_blank_witness :
  exists t' ev,
    handleResize smallTerminal
                 (mkDimensions None (mkStdout (Some 4) (Some 2)))
    = (t', Some (Some ev))
    /\ ev = mkResizeEvent 2 4
    /\ cols (diffEngine t') = 4.
Proof.
  eexists. eexists. split; [reflexivity |].
  pose proof (handleResize_blank smallTerminal
                (mkDimensions None (mkStdout (Some 4) (Some 2))) []
                _ _ eq_refl eq_refl eq_refl) as (_ & _ & E & _ & C & _).
  split; [exact E | exact C].
Defined.

End TerminalWitnesses.

(** *** Switching the input modes on and off *)
Section ModeSwitches.
Import Js Features Detection Enable Disable.

Variable toLowerCase : jsstr -> jsstr.

(** Everything written to the terminal so far, sent or pending. *)
Definition stream (w : World) : jsstr :=
  Terminal.sent (term w) ++ Terminal.pending (term w).

Lemma stream_write w data : stream (termWrite w data) = stream w ++ data.
Proof.
  unfold stream, termWrite. cbn [term setTerm].
  rewrite (proj1 (write_stream (term w) data)), app_assoc. reflexivity.
Qed.

Lemma stream_flush w : stream (termFlush w) = stream w.
Proof.
  unfold stream, termFlush. cbn [term setTerm].
  apply (proj1 (flush_stream (term w))).
Qed.

Lemma stream_setState w s : stream (setState w s) = stream w.
Proof. reflexivity. Qed.

(** The sequences that switch off the modes that are on, in the order of
    [resetTerminal]. *)
Definition teardownSequence (s : TerminalModeState) : jsstr :=
  (if focusEvents s then DISABLE_FOCUS_EVENTS else [])
  ++ (if bracketedPaste s then DISABLE_BRACKETED_PASTE else [])
  ++ (if kittyKeyboard s then POP_KITTY_KEYBOARD else [])
  ++ (if mouseTracking s
      then DISABLE_MOUSE_ALL ++ DISABLE_MOUSE_BUTTONS ++ DISABLE_MOUSE_TRACKING
           ++ (if bool_decide (mouseProtocol s = Some sgr)
               then DISABLE_SGR_MOUSE else [])
      else []).

Lemma disableFocusEvents_spec w :
  terminalState (disableFocusEvents w)
  = setFocusEvents (terminalState w) false
  /\ stream (disableFocusEvents w)
     = stream w ++ (if focusEvents (terminalState w)
                    then DISABLE_FOCUS_EVENTS else [])
  /\ cachedCapabilities (disableFocusEvents w) = cachedCapabilities w
  /\ sharedDecoder (disableFocusEvents w) = sharedDecoder w.
Proof.
  unfold disableFocusEvents.
  destruct (focusEvents (terminalState w)) eqn:F; cbn [negb].
  - rewrite stream_setState, stream_flush, stream_write.
    repeat split; reflexivity.
  - rewrite app_nil_r. repeat split; try reflexivity.
    destruct w as [[] ? ? ?]. cbn in *. subst. reflexivity.
Qed.

Lemma disableBracketedPaste_spec w :
  terminalState (disableBracketedPaste w)
  = setBracketedPaste (terminalState w) false
  /\ stream (disableBracketedPaste w)
     = stream w ++ (if bracketedPaste (terminalState w)
                    then DISABLE_BRACKETED_PASTE else [])
  /\ cachedCapabilities (disableBracketedPaste w) = cachedCapabilities w
  /\ sharedDecoder (disableBracketedPaste w) = sharedDecoder w.
Proof.
  unfold disableBracketedPaste.
  destruct (bracketedPaste (terminalState w)) eqn:F; cbn [negb].
  - rewrite stream_setState, stream_flush, stream_write.
    repeat split; reflexivity.
  - rewrite app_nil_r. repeat split; try reflexivity.
    destruct w as [[] ? ? ?]. cbn in *. subst. reflexivity.
Qed.

Lemma popKittyKeyboard_spec w :
  terminalState (popKittyKeyboard w)
  = setKittyKeyboard (terminalState w) false
  /\ stream (popKittyKeyboard w)
     = stream w ++ (if kittyKeyboard (terminalState w)
                    then POP_KITTY_KEYBOARD else [])
  /\ cachedCapabilities (popKittyKeyboard w) = cachedCapabilities w
  /\ sharedDecoder (popKittyKeyboard w) = sharedDecoder w.
Proof.
  unfold popKittyKeyboard.
  destruct (kittyKeyboard (terminalState w)) eqn:F; cbn [negb].
  - rewrite stream_setState, stream_flush, stream_write.
    repeat split; reflexivity.
  - rewrite app_nil_r. repeat split; try reflexivity.
    destruct w as [[] ? ? ?]. cbn in *. subst. reflexivity.
Qed.

Lemma disableMouse_spec w :
  (mouseTracking (terminalState w) = false ->
   mouseProtocol (terminalState w) = None) ->
  terminalState (disableMouse w) = setMouse (terminalState w) false None
  /\ stream (disableMouse w)
     = stream w
       ++ (if mouseTracking (terminalState w)
           then DISABLE_MOUSE_ALL ++ DISABLE_MOUSE_BUTTONS
                ++ DISABLE_MOUSE_TRACKING
                ++ (if bool_decide (mouseProtocol (terminalState w) = Some sgr)
                    then DISABLE_SGR_MOUSE else [])
           else [])
  /\ cachedCapabilities (disableMouse w) = cachedCapabilities w
  /\ sharedDecoder (disableMouse w) = sharedDecoder w.
Proof.
  intros C. unfold disableMouse.
  destruct (mouseTracking (terminalState w)) eqn:F; cbn [negb].
  - cbv zeta. cbn [terminalState termWrite setTerm].
    destruct (bool_decide (mouseProtocol (terminalState w) = Some sgr));
      rewrite stream_setState, stream_flush, ?stream_write;
      rewrite <- ?app_assoc, ?app_nil_r; repeat split; reflexivity.
  - rewrite app_nil_r. repeat split; try reflexivity.
    specialize (C eq_refl).
    destruct w as [[] ? ? ?]. cbn in *. subst. reflexivity.
Qed.

(** The protocol is recorded exactly while the mouse is tracked. *)
Definition mouseCoherent (s : TerminalModeState) : Prop :=
  mouseTracking s = false -> mouseProtocol s = None.

(** X25. When raw mode can be left ([stty sane] succeeds, or raw mode is not
    on), [resetTerminal] sends, after everything that was pending, the
    sequence that switches off each mode that is on and no other, then the
    one that shows the cursor; nothing is left pending and the module's
    state is the initial one again. When [stty] fails the promise is
    rejected after the modes were switched off: raw mode stays recorded
    and the cursor sequence is not written. *)
Theorem resetTerminal_restores (w : World) (sttySaneExit : Z) :
  mouseCoherent (terminalState w) ->
  let ok := negb (rawMode (terminalState w)) || (sttySaneExit =? 0) in
  let w' := (resetTerminal w sttySaneExit).2 in
  (resetTerminal w sttySaneExit).1 = ok
  /\ cachedCapabilities w' = cachedCapabilities w
  /\ sharedDecoder w' = sharedDecoder w
  /\ (if ok
      then terminalState w' = initialTerminalState
           /\ Terminal.pending (term w') = []
           /\ Terminal.sent (term w')
              = stream w ++ teardownSequence (terminalState w)
                ++ ESC_SHOW_CURSOR
      else terminalState w'
           = mkTerminalModeState true false None false false false ∅ ∅
           /\ stream w' = stream w ++ teardownSequence (terminalState w)).
Proof.
  intros C ok w'. subst ok w'. unfold resetTerminal. cbv zeta.
  destruct (disableFocusEvents_spec w) as (S1 & T1 & C1 & D1).
  set (w1 := disableFocusEvents w) in *.
  destruct (disableBracketedPaste_spec w1) as (S2 & T2 & C2 & D2).
  set (w2 := disableBracketedPaste w1) in *.
  destruct (popKittyKeyboard_spec w2) as (S3 & T3 & C3 & D3).
  set (w3 := popKittyKeyboard w2) in *.
  assert (C' : mouseCoherent (terminalState w3)).
  { unfold mouseCoherent in *. rewrite S3, S2, S1. exact C. }
  destruct (disableMouse_spec w3 C') as (S4 & T4 & C4 & D4).
  set (w4 := disableMouse w3) in *.
  assert (T : stream w4 = stream w ++ teardownSequence (terminalState w)).
  { rewrite T4, T3, T2, T1, S3, S2, S1. unfold teardownSequence.
    cbn [mouseTracking mouseProtocol kittyKeyboard bracketedPaste
         setKittyKeyboard setBracketedPaste setFocusEvents].
    rewrite <- !app_assoc. reflexivity. }
  assert (S : terminalState w4
              = mkTerminalModeState (rawMode (terminalState w)) false None
                  false false false (enabledFeatures (terminalState w))
                  (supportedFeatures (terminalState w))).
  { rewrite S4, S3, S2, S1. reflexivity. }
  clearbody w4. clear - T S C4 C3 C2 C1 D4 D3 D2 D1.
  unfold disableRawMode.
  cbn [terminalState setState rawMode setSupportedFeatures setEnabledFeatures].
  rewrite S. cbn [rawMode mouseTracking mouseProtocol kittyKeyboard
                  bracketedPaste focusEvents].
  destruct (rawMode (terminalState w)); cbn [negb orb].
  - destruct (sttySaneExit =? 0); cbn [negb fst snd].
    + split; [reflexivity |].
      split; [cbn; congruence |]. split; [cbn; congruence |].
      split; [reflexivity |].
      cbn [term termFlush termWrite setTerm setState].
      split; [apply flush_pending |].
      rewrite flush_write, app_assoc. fold (stream w4).
      rewrite T, <- app_assoc. reflexivity.
    + split; [reflexivity |].
      split; [cbn; congruence |]. split; [cbn; congruence |].
      split; [reflexivity |]. rewrite stream_setState. exact T.
  - cbn [fst snd]. split; [reflexivity |].
    split; [cbn; congruence |]. split; [cbn; congruence |].
    split; [reflexivity |].
    cbn [term termFlush termWrite setTerm setState].
    split; [apply flush_pending |].
    rewrite flush_write, app_assoc. fold (stream w4).
    rewrite T, <- app_assoc. reflexivity.
Qed.

(** **** What the initialization switches on *)

Lemma disableMouse_keeps w :
  rawMode (terminalState (disableMouse w)) = rawMode (terminalState w)
  /\ enabledFeatures (terminalState (disableMouse w))
     = enabledFeatures (terminalState w).
Proof.
  unfold disableMouse. destruct (negb _); [split; reflexivity |].
  cbv zeta. destruct (bool_decide _); split; reflexivity.
Qed.

Lemma enableMouse_keeps w p a :
  rawMode (terminalState (enableMouse w p a)) = rawMode (terminalState w)
  /\ enabledFeatures (terminalState (enableMouse w p a))
     = enabledFeatures (terminalState w).
Proof.
  unfold enableMouse. cbv zeta.
  destruct (disableMouse_keeps w) as [R K].
  destruct (mouseTracking (terminalState w)), a, (bool_decide (p = sgr));
    cbn [terminalState setState termFlush termWrite setTerm rawMode
         enabledFeatures setMouse];
    split; assumption || reflexivity.
Qed.

Lemma enableFeature_keeps w name opts w1 :
  enableFeature w name opts = Some w1 ->
  rawMode (terminalState w1) = rawMode (terminalState w)
  /\ enabledFeatures (terminalState w1) = enabledFeatures (terminalState w).
Proof.
  unfold enableFeature.
  destruct (featureOfName name) as [[] |]; intros [= <-].
  - apply enableMouse_keeps.
  - split; reflexivity.
  - unfold enableBracketedPaste.
    destruct (bracketedPaste (terminalState w)); split; reflexivity.
  - unfold enableFocusEvents.
    destruct (focusEvents (terminalState w)); split; reflexivity.
  - split; reflexivity.
Qed.

(** A feature of the configuration that is switched on, supported at the
    level asked for and known by name. *)
Definition granted (caps : DetectedCapabilities)
  (l : list (jsstr * FeatureConfig)) (name : jsstr) : Prop :=
  exists fc, In (name, fc) l /\ enabled fc = true
             /\ isSupported caps name fc = true
             /\ is_Some (featureOfName name).

Lemma processFeature_enabled caps w errs e :
  let w1 := (processFeature caps (w, errs) e).1 in
  rawMode (terminalState w1) = rawMode (terminalState w)
  /\ forall name b,
       enabledFeatures (terminalState w1) !! name = Some b ->
       enabledFeatures (terminalState w) !! name = Some b
       \/ (b = true /\ granted caps [e] name).
Proof.
  destruct e as [feature fc]. unfold processFeature.
  destruct (enabled fc) eqn:En; cbn [negb]; [| cbn; auto].
  destruct (isSupported caps feature fc) eqn:Su; cbn [negb].
  - destruct (enableFeature w feature (options fc)) as [w1 |] eqn:E.
    + destruct (enableFeature_keeps w feature (options fc) w1 E) as [R K].
      cbn [fst terminalState setState rawMode enabledFeatures
           setEnabledFeatures].
      split; [exact R |].
      intros name b H. rewrite K in H.
      destruct (decide (name = feature)) as [-> | Hne].
      * rewrite lookup_insert_eq in H. injection H as <-. right.
        split; [reflexivity |].
        exists fc. split; [left; reflexivity |]. split; [exact En |].
        split; [exact Su |].
        destruct (featureOfName feature) eqn:N; [eauto |].
        apply (enableFeature_None w feature (options fc)) in N. congruence.
      * rewrite lookup_insert_ne in H by congruence. left. exact H.
    + destruct (required fc); cbn; auto.
  - destruct (required fc); cbn; auto.
Qed.

Lemma processFeatures_enabled caps l : forall w errs,
  let w1 := (foldl (processFeature caps) (w, errs) l).1 in
  rawMode (terminalState w1) = rawMode (terminalState w)
  /\ forall name b,
       enabledFeatures (terminalState w1) !! name = Some b ->
       enabledFeatures (terminalState w) !! name = Some b
       \/ (b = true /\ granted caps l name).
Proof.
  induction l as [| e l IH]; intros w errs; cbn [foldl].
  - cbn. auto.
  - pose proof (processFeature_enabled caps w errs e) as [R1 K1].
    destruct (processFeature caps (w, errs) e) as [w1 errs1].
    cbn [fst] in R1, K1.
    destruct (IH w1 errs1) as [R2 K2]. cbv zeta.
    split; [congruence |].
    intros name b H. destruct (K2 name b H) as [H2 | [Hb (fc & I & G)]].
    + destruct (K1 name b H2) as [H1 | [Hb (fc & I & G)]]; [left; exact H1 |].
      right. split; [exact Hb |]. exists fc. split; [| exact G].
      destruct I as [I | []]. left. exact I.
    + right. split; [exact Hb |]. exists fc. split; [right; exact I | exact G].
Qed.

(** X26. When the initialization succeeds, raw mode is on, and every feature
    the returned mode lists as enabled either was enabled before or is a
    feature the configuration switches on that the capabilities support at
    the level asked for: nothing unsupported is ever switched on. *)
Theorem enabled_features_supported (w : World) (config : InputConfig)
  (o : Oracle) (mode : InputMode.t) (w' : World) :
  initializeInput toLowerCase w config o = (Resolved mode, w') ->
  InputMode.raw mode = true
  /\ InputMode.echo mode = false
  /\ forall name b,
       InputMode.enabledFeatures mode !! name = Some b ->
       enabledFeatures (terminalState w) !! name = Some b
       \/ (b = true
           /\ granted (usedCapabilities toLowerCase w config o)
                (configFeatures config) name).
Proof.
  unfold initializeInput, usedCapabilities.
  destruct (obtainCapabilities toLowerCase w config o)
    as [[caps cache1] term1].
  cbn [fst snd]. cbv zeta.
  set (w2 := setState _ _).
  assert (E2 : enabledFeatures (terminalState w2)
               = enabledFeatures (terminalState w)) by reflexivity.
  clearbody w2.
  unfold enableRawMode.
  assert (G : forall w3,
             rawMode (terminalState w3) = true ->
             enabledFeatures (terminalState w3)
             = enabledFeatures (terminalState w) ->
             (let '(w4, errors) :=
                foldl (processFeature caps) (w3, []) (configFeatures config) in
              if (0 <? length errors)%nat
              then (Rejected (failureMessage errors), w4)
              else (Resolved
                      (getInputStatus
                         (terminalState (configureDecoder w4 config))),
                    configureDecoder w4 config))
             = (Resolved mode, w') ->
             InputMode.raw mode = true /\ InputMode.echo mode = false
             /\ forall name b,
                  InputMode.enabledFeatures mode !! name = Some b ->
                  enabledFeatures (terminalState w) !! name = Some b
                  \/ (b = true /\ granted caps (configFeatures config) name)).
  { intros w3 R3 E3.
    pose proof (processFeatures_enabled caps (configFeatures config) w3 [])
      as [R K].
    destruct (foldl (processFeature caps) (w3, []) (configFeatures config))
      as [w4 errors].
    cbn [fst] in R, K.
    destruct (0 <? length errors)%nat; [discriminate |].
    intros [= <- <-]. cbn [getInputStatus InputMode.raw InputMode.echo
                           InputMode.enabledFeatures configureDecoder
                           terminalState].
    rewrite R, R3. split; [reflexivity |]. split; [reflexivity |].
    intros name b H. rewrite <- E3. apply K, H. }
  destruct (rawMode (terminalState w2)) eqn:R2.
  - apply G; assumption.
  - destruct (negb (sttyRawExit o =? 0)); [discriminate |].
    apply G; [reflexivity | exact E2].
Qed.

(** X27. The legacy options never make the initialization fail for a feature:
    [configureInput] is rejected only when raw mode cannot be enabled, and
    otherwise resolves with [undefined], whatever the terminal supports. *)
Theorem configureInput_legacy (w : World) (legacy : InputOptions)
  (o : Oracle) :
  (configureInput toLowerCase w (inl legacy) o).1
  = if rawAvailable w o then Configured None else Failed RAW_MODE_MESSAGE.
Proof.
  unfold configureInput.
  pose proof (initializeInput_result toLowerCase w (legacyConfig legacy) o)
    as R.
  destruct (initializeInput toLowerCase w (legacyConfig legacy) o)
    as [result w1].
  cbn [fst snd] in *.
  destruct (rawAvailable w o); [| rewrite R; reflexivity].
  assert (E : flat_map
                (featureError
                   (usedCapabilities toLowerCase w (legacyConfig legacy) o))
                (configFeatures (legacyConfig legacy)) = []).
  { generalize (usedCapabilities toLowerCase w (legacyConfig legacy) o).
    intros caps. destruct legacy as [m p k b f].
    destruct m, k, b, f; reflexivity. }
  rewrite E in R. rewrite R. reflexivity.
Qed.

End ModeSwitches.

Section ModeWitnesses.
Import Js Features Detection Enable Disable.

(** A world in which raw mode, the mouse (SGR), the Kitty keyboard and
    bracketed paste are on, with one character pending. *)
Definition busyWorld : World :=
  mkWorld (mkTerminalModeState true true (Some sgr) true true false ∅ ∅)
          (Terminal.mkTerminal (lit "x") 65536 []) None None.

Lemma resetTerminal_restores_witness :
  (resetTerminal busyWorld 0).1 = true
  /\ terminalState (resetTerminal busyWorld 0).2 = initialTerminalState
  /\ Terminal.sent (term (resetTerminal busyWorld 0).2)
     = lit "x" ++ DISABLE_BRACKETED_PASTE ++ POP_KITTY_KEYBOARD
       ++ DISABLE_MOUSE_ALL ++ DISABLE_MOUSE_BUTTONS ++ DISABLE_MOUSE_TRACKING
       ++ DISABLE_SGR_MOUSE ++ ESC_SHOW_CURSOR.
Proof.
  destruct (resetTerminal_restores busyWorld 0) as (A & _ & _ & S & _ & T).
  - intros H. discriminate H.
  - split; [exact A |]. split; [exact S | exact T].
Defined.

(** Mouse tracking and the Kitty keyboard asked of a Kitty terminal. *)
Definition mouseAndKitty : InputConfig :=
  mkInputConfig
    [(lit "mouseTracking", mkFeatureConfig true true None);
     (lit "kittyKeyboard", mkFeatureConfig true false None)]
    None None None.

Definition kittyOracle : Oracle :=
  mkOracle (envOf (Some "xterm-kitty"%string) None None) Silent 0.

Lemma enabled_features_supported_witness :
  exists mode w',
    initializeInput asciiLower freshWorld mouseAndKitty kittyOracle
    = (Resolved mode, w')
    /\ InputMode.raw mode = true.
Proof.
  destruct (initializeInput asciiLower freshWorld mouseAndKitty kittyOracle)
    as [[mode | message] w'] eqn:E.
  - exists mode, w'. split; [reflexivity |].
    apply (enabled_features_supported asciiLower freshWorld mouseAndKitty
             kittyOracle mode w' E).
  - exfalso.
    pose proof (initializeInput_result asciiLower freshWorld mouseAndKitty
                  kittyOracle) as R.
    rewrite E in R. vm_compute in R. discriminate R.
Defined.

End ModeWitnesses.

(** *** Keys with an implicit shift *)
Section ShiftedKeys.
Import Js Events KeyUtils.

(** What [areKeysEqual] compares: the string of the code and the
    modifiers, the shift being set for a shifted character. *)
Definition keyIdentity (code : KeyCode) (m : KeyModifiers)
  : jsstr * (bool * bool * bool * bool) :=
  (codeString code,
   (ctrl m, alt m,
    shift m || match code with
               | Char char => isShiftedChar char
               | Named _ => false
               end,
    meta m)).

Lemma isShiftedChar_nonempty char : isShiftedChar char = true -> char <> [].
Proof. destruct char; [discriminate | discriminate]. Qed.

Lemma normalizeShiftModifier_key code m r k w :
  exists m',
    normalizeShiftModifier (KeyEvent code m r k w) = KeyEvent code m' r k w
    /\ (codeString code, (ctrl m', alt m', shift m', meta m'))
       = keyIdentity code m.
Proof.
  unfold keyIdentity. destruct code as [n | char]; cbn [normalizeShiftModifier].
  - exists m. rewrite orb_false_r. split; reflexivity.
  - destruct (shift m) eqn:S; cbn [orb].
    + exists m. rewrite S. split; reflexivity.
    + case_bool_decide as E.
      * subst char. exists m. rewrite S. split; reflexivity.
      * destruct (isShiftedChar char) eqn:I.
        -- exists (withShift m). split; reflexivity.
        -- exists m. rewrite S. split; reflexivity.
Qed.

Lemma areKeysEqual_identity ca ma ra ka wa cb mb rb kb wb :
  areKeysEqual (KeyEvent ca ma ra ka wa) (KeyEvent cb mb rb kb wb)
  = Some (bool_decide (keyIdentity ca ma = keyIdentity cb mb)).
Proof.
  unfold areKeysEqual.
  destruct (normalizeShiftModifier_key ca ma ra ka wa) as (ma' & -> & <-).
  destruct (normalizeShiftModifier_key cb mb rb kb wb) as (mb' & -> & <-).
  case_bool_decide as C; cbn [negb].
  - f_equal. symmetry. rewrite C.
    destruct (ctrl ma'), (ctrl mb'), (alt ma'), (alt mb'), (shift ma'),
      (shift mb'), (meta ma'), (meta mb'); cbn;
      (apply bool_decide_eq_true_2; reflexivity)
      || (apply bool_decide_eq_false_2; congruence).
  - f_equal. symmetry. apply bool_decide_eq_false_2. congruence.
Qed.

(** X28. On key events [areKeysEqual] is an equivalence relation that looks at
    the code and the modifiers only (not at [repeat], [kind] or [raw]); a
    shifted character counts as typed with shift, whether the event says so
    or not. *)
Theorem areKeysEqual_equivalence ca ma ra ka wa cb mb rb kb wb cc mc rc kc wc :
  let a := KeyEvent ca ma ra ka wa in
  let b := KeyEvent cb mb rb kb wb in
  let c := KeyEvent cc mc rc kc wc in
  areKeysEqual a a = Some true
  /\ areKeysEqual a b = areKeysEqual b a
  /\ (areKeysEqual a b = Some true -> areKeysEqual b c = Some true ->
      areKeysEqual a c = Some true)
  /\ areKeysEqual a (KeyEvent ca ma rb kb wb) = Some true
  /\ (forall char, ca = Char char -> isShiftedChar char = true ->
      areKeysEqual a (KeyEvent ca (withShift ma) ra ka wa) = Some true).
Proof.
  cbv zeta. rewrite !areKeysEqual_identity.
  split; [rewrite bool_decide_eq_true_2; reflexivity |].
  split; [f_equal; apply bool_decide_ext; split; congruence |].
  split.
  { intros [= H1] [= H2]. apply bool_decide_eq_true in H1, H2.
    rewrite bool_decide_eq_true_2; congruence. }
  split; [rewrite bool_decide_eq_true_2; reflexivity |].
  intros char -> I. rewrite bool_decide_eq_true_2; [reflexivity |].
  unfold keyIdentity, withShift. cbn. rewrite I, orb_true_r. reflexivity.
Qed.

Lemma lookupShifted_In table c v :
  lookupShifted table c = Some v -> In (c, v) table.
Proof.
  induction table as [| [k u] rest IH]; cbn; [discriminate |].
  destruct (k =? c) eqn:E.
  - intros [= ->]. apply Z.eqb_eq in E. subst. left. reflexivity.
  - intros H. right. apply IH, H.
Qed.

Lemma unshifted_not_shifted char u :
  getUnshiftedChar char = Some u -> isShiftedChar u = false /\ u <> [].
Proof.
  destruct char as [| c [| ? ?]]; try discriminate. cbn [getUnshiftedChar].
  destruct ((65 <=? c) && (c <=? 90)) eqn:U.
  - intros [= <-]. split; [| discriminate]. cbn [isShiftedChar].
    apply andb_true_iff in U as [U1 U2]. apply Z.leb_le in U1, U2.
    rewrite (proj2 (andb_false_iff _ _))
      by (right; apply Z.leb_gt; lia).
    assert (forall k,
               97 <= k <= 122 -> lookupShifted SHIFTED_CHARS k = None) as N.
    { intros k Hk.
      destruct (lookupShifted SHIFTED_CHARS k) as [v |] eqn:L;
        [| reflexivity].
      apply lookupShifted_In in L. unfold SHIFTED_CHARS in L.
      cbn [In] in L.
      repeat (destruct L as [L | L]; [injection L as L1 L2; lia |]).
      destruct L. }
    rewrite N by lia. reflexivity.
  - destruct (lookupShifted SHIFTED_CHARS c) as [v |] eqn:L; [| discriminate].
    intros [= <-]. split; [| discriminate].
    apply lookupShifted_In in L.
    assert (Forall (fun kv : Z * Z => isShiftedChar [kv.2] = false)
                   SHIFTED_CHARS) as F
      by (repeat constructor).
    rewrite Forall_forall in F. apply list_elem_of_In in L.
    apply (F _ L).
Qed.

Lemma shifted_iff_unshifted char :
  isShiftedChar char = bool_decide (is_Some (getUnshiftedChar char)).
Proof.
  destruct char as [| c [| ? ?]]; try reflexivity.
  cbn [isShiftedChar getUnshiftedChar].
  destruct ((65 <=? c) && (c <=? 90)).
  - symmetry. apply bool_decide_eq_true_2. eauto.
  - destruct (lookupShifted SHIFTED_CHARS c) as [v |].
    + rewrite !bool_decide_eq_true_2 by eauto. reflexivity.
    + rewrite !bool_decide_eq_false_2 by (intros [? ?]; discriminate).
      reflexivity.
Qed.

(** The modifiers of a key event (none for another event). *)
Definition modifiersOf (event : InputEvent) : KeyModifiers :=
  match event with
  | KeyEvent _ m _ _ _ => m
  | _ => noMods
  end.

(** [normalizeShiftModifier] and [normalizeToBaseKey] on a character key,
    by cases. *)
Lemma normalizeShiftModifier_char char m r k w :
  normalizeShiftModifier (KeyEvent (Char char) m r k w)
  = KeyEvent (Char char)
      (if negb (shift m) && isShiftedChar char then withShift m else m) r k w.
Proof.
  cbn [normalizeShiftModifier].
  destruct (shift m); cbn [orb negb andb]; [reflexivity |].
  case_bool_decide as E.
  - subst char. reflexivity.
  - destruct (isShiftedChar char); reflexivity.
Qed.

Lemma normalizeToBaseKey_char char m r k w :
  normalizeToBaseKey (KeyEvent (Char char) m r k w)
  = match getUnshiftedChar char with
    | Some u =>
        if negb (shift m) then KeyEvent (Char u) (withShift m) r k w
        else KeyEvent (Char char) m r k w
    | None => KeyEvent (Char char) m r k w
    end.
Proof.
  cbn [normalizeToBaseKey].
  case_bool_decide as E.
  - subst char. reflexivity.
  - destruct (getUnshiftedChar char) as [u |] eqn:G; [| reflexivity].
    destruct (unshifted_not_shifted char u G) as [_ NE].
    destruct u; [congruence | reflexivity].
Qed.

(** X29. The two normalisations are idempotent and give the same modifiers:
    both add the shift exactly for an upper-case letter or a symbol of the
    table. After [normalizeToBaseKey] an event that carried no shift never
    holds a shifted character. *)
Theorem normalizers_agree (event : InputEvent) :
  normalizeShiftModifier (normalizeShiftModifier event)
  = normalizeShiftModifier event
  /\ normalizeToBaseKey (normalizeToBaseKey event) = normalizeToBaseKey event
  /\ modifiersOf (normalizeToBaseKey event)
     = modifiersOf (normalizeShiftModifier event)
  /\ (forall char m r k w,
        normalizeToBaseKey event = KeyEvent (Char char) m r k w ->
        shift (modifiersOf event) = false ->
        isShiftedChar char = false).
Proof.
  destruct event as [[n | char] m r k w | | |];
    try (repeat split; try reflexivity; discriminate).
  rewrite normalizeShiftModifier_char, normalizeToBaseKey_char.
  rewrite (shifted_iff_unshifted char). cbn [modifiersOf].
  destruct (getUnshiftedChar char) as [u |] eqn:G.
  - destruct (unshifted_not_shifted char u G) as [N NE].
    rewrite bool_decide_eq_true_2 by eauto. rewrite andb_true_r.
    destruct (shift m) eqn:S; cbn [negb].
    + rewrite normalizeShiftModifier_char, normalizeToBaseKey_char, G, S.
      cbn [negb andb modifiersOf].
      repeat split; try reflexivity. intros; congruence.
    + rewrite normalizeShiftModifier_char, normalizeToBaseKey_char.
      cbn [withShift shift negb andb modifiersOf].
      split; [reflexivity |].
      split; [destruct (getUnshiftedChar u); reflexivity |].
      split; [reflexivity |].
      intros char0 m0 r0 k0 w0 [= <- <- <- <- <-] _. exact N.
  - rewrite bool_decide_eq_false_2 by (intros [? ?]; discriminate).
    rewrite andb_false_r.
    rewrite normalizeShiftModifier_char, normalizeToBaseKey_char, G.
    rewrite (shifted_iff_unshifted char), G.
    rewrite bool_decide_eq_false_2 by (intros [? ?]; discriminate).
    rewrite andb_false_r. cbn [modifiersOf].
    repeat split; try reflexivity.
    intros char0 m0 r0 k0 w0 [= <- <- <- <- <-] _.
    rewrite (shifted_iff_unshifted char), G.
    apply bool_decide_eq_false_2. intros [? ?]; discriminate.
Qed.

End ShiftedKeys.

(** *** The capability cache *)
Section CapabilityCache.
Import Js Features Detection.

Variable toLowerCase : jsstr -> jsstr.

(** X30. The capabilities are detected once: whatever a first call did, a later
    call without [force] returns the same capabilities, whatever the
    environment or the terminal's answer have become, and does not touch
    the terminal. A detection writes to the terminal only to probe a
    terminal of unknown type. *)
Theorem detection_cached (cached : option DetectedCapabilities)
  (term term' : Terminal.Terminal) (force performQueries performQueries' : bool)
  (q q' : QueryOutcome) (env env' : Env) :
  let first :=
    detectCapabilities toLowerCase cached term force performQueries q env in
  detectCapabilities toLowerCase first.1.2 term' false performQueries' q' env'
  = (first.1.1, first.1.2, term')
  /\ (first.2 <> term ->
      terminalType first.1.1 = Unknown /\ performQueries = true
      /\ q <> NotRaw /\ (cached = None \/ force = true)).
Proof.
  cbv zeta. unfold detectCapabilities.
  destruct cached as [c |], force; cbn [fst snd];
    try (split; [reflexivity | congruence]);
    (destruct (performQueries && _) eqn:P;
     [ apply andb_true_iff in P as [P1 P2]; apply bool_decide_eq_true in P2;
       destruct q; cbn [queryFeature fst snd];
       (split; [reflexivity |]); intros H; try congruence;
       (split; [exact P2 |]); (split; [exact P1 |]);
       (split; [discriminate | auto])
     | cbn [fst snd]; split; [reflexivity | congruence] ]).
Qed.

End CapabilityCache.

Section KeyWitnesses.
Import Js Events KeyUtils.

Lemma areKeysEqual_equivalence_witness :
  areKeysEqual (KeyEvent (Char (lit "A")) noMods false None (lit "A"))
               (KeyEvent (Char (lit "A")) (withShift noMods) false None
                         (lit "A"))
  = Some true
  /\ areKeysEqual (KeyEvent (Char (lit "A")) noMods false None (lit "A"))
                  (KeyEvent (Char (lit "a")) (withShift noMods) false None [])
     = Some false.
Proof.
  split; [| reflexivity].
  pose proof (areKeysEqual_equivalence
                (Char (lit "A")) noMods false None (lit "A")
                (Char (lit "A")) noMods false None (lit "A")
                (Char (lit "A")) noMods false None (lit "A"))
    as (_ & _ & _ & _ & H).
  exact (H (lit "A") eq_refl eq_refl).
Defined.

Lemma normalizers_agree_witness :
  normalizeToBaseKey (KeyEvent (Char (lit "!")) noMods false None (lit "!"))
  = KeyEvent (Char (lit "1")) (withShift noMods) false None (lit "!")
  /\ isShiftedChar (lit "1") = false.
Proof.
  split; [reflexivity |].
  apply (proj2 (proj2 (proj2
           (normalizers_agree
              (KeyEvent (Char (lit "!")) noMods false None (lit "!")))))
           (lit "1") (withShift noMods) false None (lit "!"));
    reflexivity.
Defined.

End KeyWitnesses.
